(** * AI-Tutor PDF management service: ingestion and retrieval pipeline

    A shallow embedding of the chapter ingestion orchestrator
    ([pdf_management_service/chapter_pdf_manager.py]) and of the RAG
    pipeline ([pdf_management_service/rag_pipeline.py]), followed by the
    properties of the specification that concern them.

    Python values are rendered as follows: a [str] is the list of its
    Unicode code points, an [int] is a [Z], a [dict] used as a table is a
    [gmap] (or an association list where the insertion order is observed),
    and a result dictionary is an inductive type with one constructor per
    [return] statement.  External services (OpenAI, Pinecone, Firebase,
    PyMuPDF, the file system) are a record of functions of the history of
    calls made so far, so that every sequence of outcomes can be played. *)

From Stdlib Require Import ZArith List Lia QArith Ascii String Bool Sorted.
From stdpp Require Import base list strings pretty gmap.

Set Default Proof Using "Type".
Local Open Scope Z_scope.

(** ** Python strings *)

Module Py.

(** A [str] is a sequence of code points. *)
Abbreviation str := (list N).

(** Decoding of the UTF-8 bytes of a literal of this file into code
    points, so that the Bengali literals of the source can be written
    as they are. *)
Fixpoint utf8_decode (bs : list N) : str :=
  match bs with
  | [] => []
  | b0 :: r0 =>
      if (b0 <? 128)%N then b0 :: utf8_decode r0
      else if (b0 <? 224)%N then
        match r0 with
        | b1 :: r1 => ((b0 mod 32) * 64 + b1 mod 64)%N :: utf8_decode r1
        | [] => []
        end
      else if (b0 <? 240)%N then
        match r0 with
        | b1 :: b2 :: r2 =>
            ((b0 mod 16) * 4096 + (b1 mod 64) * 64 + b2 mod 64)%N
              :: utf8_decode r2
        | _ => []
        end
      else
        match r0 with
        | b1 :: b2 :: b3 :: r3 =>
            ((b0 mod 8) * 262144 + (b1 mod 64) * 4096
             + (b2 mod 64) * 64 + b3 mod 64)%N :: utf8_decode r3
        | _ => []
        end
  end.

Definition lit (s : string) : str :=
  utf8_decode (map N_of_ascii (list_ascii_of_string s)).

(** [c.isspace()] for a single character: the code points Python
    treats as whitespace. *)
Definition isspace (c : N) : bool :=
  ((9 <=? c) && (c <=? 13) || (28 <=? c) && (c <=? 32)
   || (c =? 133) || (c =? 160) || (c =? 5760)
   || (8192 <=? c) && (c <=? 8202)
   || (c =? 8232) || (c =? 8233) || (c =? 8239) || (c =? 8287)
   || (c =? 12288))%N.

Definition SP : N := 32%N.
Definition NL : N := 10%N.

(** [s.split()]: maximal runs of non-whitespace characters.  [cur] holds
    the word being read, reversed. *)
Fixpoint split_from (cur : str) (s : str) : list str :=
  match s with
  | [] => match cur with [] => [] | _ => [rev cur] end
  | c :: r =>
      if isspace c then
        match cur with
        | [] => split_from [] r
        | _ => rev cur :: split_from [] r
        end
      else split_from (c :: cur) r
  end.

Definition split (s : str) : list str := split_from [] s.

(** [len(s.split())] *)
Definition word_count (s : str) : Z := Z.of_nat (length (split s)).

Fixpoint lstrip (s : str) : str :=
  match s with
  | [] => []
  | c :: r => if isspace c then lstrip r else s
  end.

Definition rstrip (s : str) : str := rev (lstrip (rev s)).

(** [s.strip()] *)
Definition strip (s : str) : str := rstrip (lstrip s).

(** [sep.join(parts)] *)
Fixpoint join (sep : str) (parts : list str) : str :=
  match parts with
  | [] => []
  | [p] => p
  | p :: rest => p ++ sep ++ join sep rest
  end.

(** [s[a:b]] for non-negative bounds. *)
Definition slice (s : str) (a b : nat) : str := take (b - a) (drop a s).

(** [s[:n]] *)
Definition prefix (s : str) (n : nat) : str := take n s.

Fixpoint starts_with (p s : str) : bool :=
  match p, s with
  | [], _ => true
  | a :: p', b :: s' => (a =? b)%N && starts_with p' s'
  | _ :: _, [] => false
  end.

(** [needle in hay] *)
Fixpoint contains (needle hay : str) : bool :=
  starts_with needle hay
  || match hay with
     | [] => false
     | _ :: rest => contains needle rest
     end.

(** [str(n)] for an [int], as an f-string prints it. *)
Definition str_of_Z (n : Z) : str := lit (pretty n).
Definition str_of_nat (n : nat) : str := lit (pretty n).

(** [s.split(NL)[0]]: the text up to the first line feed. *)
Fixpoint first_line (s : str) : str :=
  match s with
  | [] => []
  | c :: r => if (c =? NL)%N then [] else c :: first_line r
  end.

End Py.

(** ** The chapter catalogue ([chapter_pdf_manager.py], module level) *)

Module Manager.
Import Py.

(** One entry of [NCTB_CHAPTERS]. *)
Record ChapterInfo := mkChapterInfo {
  info_id : str;
  name : str;
  englishName : str;
  chapterNumber : str;
  chapter_number : Z
}.

Definition entry (k nm en num : string) (n : Z) : str * ChapterInfo :=
  (lit k, mkChapterInfo (lit k) (lit nm) (lit en) (lit num) n).

(** [NCTB_CHAPTERS], in the order of the dictionary literal. *)
Definition NCTB_CHAPTERS : list (str * ChapterInfo) :=
  [ entry "real_numbers" "বাস্তব সংখ্যা" "Real Numbers" "১ম অধ্যায়" 1;
    entry "sets_functions" "সেট ও ফাংশন" "Sets and Functions" "২য় অধ্যায়" 2;
    entry "algebraic_expressions" "বীজগাণিতিক রাশি" "Algebraic Expressions"
      "৩য় অধ্যায়" 3;
    entry "indices_logarithms" "সূচক ও লগারিদম" "Indices and Logarithms"
      "৪র্থ অধ্যায়" 4;
    entry "linear_equations" "এক চলকবিশিষ্ট সমীকরণ"
      "Linear Equations in One Variable" "৫ম অধ্যায়" 5;
    entry "lines_angles_triangles" "রেখা, কোণ ও ত্রিভুজ"
      "Lines, Angles and Triangles" "৬ষ্ঠ অধ্যায়" 6;
    entry "practical_geometry" "ব্যবহারিক জ্যামিতি" "Practical Geometry"
      "৭ম অধ্যায়" 7;
    entry "circles" "বৃত্ত" "Circles" "৮ম অধ্যায়" 8;
    entry "trigonometric_ratios" "ত্রিকোণমিতিক অনুপাত" "Trigonometric Ratios"
      "৯ম অধ্যায়" 9;
    entry "distance_height" "দূরত্ব ও উচ্চতা" "Distance and Height"
      "১০ম অধ্যায়" 10;
    entry "algebraic_ratios" "বীজগাণিতিক অনুপাত ও সমানুপাত"
      "Algebraic Ratios and Proportions" "১১শ অধ্যায়" 11;
    entry "simultaneous_equations" "দুই চলকবিশিষ্ট সরল সহসমীকরণ"
      "Simultaneous Linear Equations in Two Variables" "১২শ অধ্যায়" 12;
    entry "finite_series" "সসীম ধারা" "Finite Series" "১৩শ অধ্যায়" 13;
    entry "ratio_similarity_symmetry" "অনুপাত, সদৃশতা ও প্রতিসমতা"
      "Ratio, Similarity and Symmetry" "১৪শ অধ্যায়" 14;
    entry "area_theorems" "ক্ষেত্রফল সম্পর্কিত উপপাদ্য ও সম্পাদ্য"
      "Area Related Theorems and Constructions" "১৫শ অধ্যায়" 15;
    entry "mensuration" "পরিমিতি" "Mensuration" "১৬শ অধ্যায়" 16;
    entry "statistics" "পরিসংখ্যান" "Statistics" "১৭শ অধ্যায়" 17;
    entry "real_numbers_advanced" "বাস্তব সংখ্যা (উন্নত)"
      "Real Numbers (Advanced)" "১ম অধ্যায়" 1 ].

(** [d.keys()] and [d.get(k)] of an insertion-ordered dictionary. *)
Definition keys {V} (d : list (str * V)) : list str := map fst d.

Fixpoint dict_get {V} (d : list (str * V)) (k : str) : option V :=
  match d with
  | [] => None
  | (k', v) :: rest => if bool_decide (k' = k) then Some v else dict_get rest k
  end.

Definition get_chapters_for_class (class_level : Z) : list (str * ChapterInfo) :=
  if class_level =? 9 then
    List.filter (fun kv => negb (contains (lit "advanced") (fst kv))) NCTB_CHAPTERS
  else if class_level =? 10 then NCTB_CHAPTERS
  else [].

Definition is_valid_chapter_for_class (chapter_id : str) (class_level : Z) : bool :=
  bool_decide (chapter_id ∈ keys (get_chapters_for_class class_level)).



(** ** Stored records and the state of the service *)

(** The metadata dictionary written next to each vector. *)
Record VecMeta := mkVecMeta {
  v_class_level : Z;
  v_chapter_id : str;
  v_chapter_name : str;
  v_bengali_name : str;
  v_chunk_index : nat;
  v_text : str;
  v_upload_date : str
}.

(** One element of the [vectors] list given to [index.upsert]. *)
Record Vector := mkVector {
  vec_id : str;
  vec_values : list Q;
  vec_metadata : VecMeta
}.

(** The record kept per chapter in [chapter_metadata[chapter_key]]. *)
Record ChapterMeta := mkChapterMeta {
  m_filename : str;
  m_local_path : str;
  m_firebase_url : option str;
  m_firebase_path : option str;
  m_file_hash : str;
  m_upload_date : str;
  m_text_chunks_count : Z;
  m_chapter_info : ChapterInfo;
  m_class_level : Z;
  m_subject : str
}.

(** Outcome of [blob.upload_from_filename] followed by [blob.make_public]:
    the public URL, an error whose text mentions [storage.objects.create],
    or any other error. *)
Inductive AdminOutcome :=
| AdminOk (public_url : str)
| AdminNoCreatePermission
| AdminError.

(** The calls the service makes to the outside, as they are recorded in
    the history (latest first). *)
Inductive Event :=
| FileSave (ok : bool)
| HashRead (ok : bool)
| FileRemove (path : str) (ok : bool)
| EmbeddingCreate (chunk_index : nat) (input : str) (ok : bool)
| IndexQuery (top_k : nat) (ok : bool)
| IndexDelete (ids : list str) (ok : bool)
| IndexUpsert (ids : list str) (ok : bool)
| FileMove (ok : bool)
| FileCopy (ok : bool)
| PdfOpen (ok : bool)
| PathExists (found : bool)
| AdminUpload (path : str) (outcome : AdminOutcome)
| SignedUpload (path : str) (ok : bool)
| BlobDelete (path : str) (ok : bool)
| FirestoreWrite (doc_id : str) (ok : bool)
| MetadataSave.

(** The external services.  Every answer may depend on the history of
    calls, so a service can succeed at one call and fail at the next. *)
Record Services := mkServices {
  sha256_hexdigest : list N -> str;
  file_save_ok : list Event -> bool;
  temp_readable : list Event -> bool;
  remove_ok : list Event -> bool;
  embedding_create : list Event -> str -> option (list Q);
  query_ok : list Event -> bool;
  delete_ok : list Event -> bool;
  upsert_ok : list Event -> bool;
  fitz_open : list N -> option (list str);
  move_ok : list Event -> bool;
  copy_ok : list Event -> bool;
  path_exists : list Event -> str -> bool;
  admin_upload : list Event -> str -> AdminOutcome;
  signed_upload : list Event -> str -> option str;
  blob_delete_ok : list Event -> bool;
  firestore_ok : list Event -> bool;
  now_isoformat : list Event -> str
}.

(** The manager object, the content of the Pinecone index and the
    history of external calls. *)
Record State := mkState {
  openai_client : bool;
  pinecone_client : bool;
  index_handle : bool;
  firebase_initialized : bool;
  db : bool;
  chapter_metadata : gmap str (gmap str ChapterMeta);
  index : gmap str Vector;
  history : list Event
}.

Definition log (e : Event) (s : State) : State :=
  mkState (openai_client s) (pinecone_client s) (index_handle s)
    (firebase_initialized s) (db s) (chapter_metadata s) (index s)
    (e :: history s).

Definition set_index (ix : gmap str Vector) (s : State) : State :=
  mkState (openai_client s) (pinecone_client s) (index_handle s)
    (firebase_initialized s) (db s) (chapter_metadata s) ix (history s).

Definition set_chapter_metadata (md : gmap str (gmap str ChapterMeta))
    (s : State) : State :=
  mkState (openai_client s) (pinecone_client s) (index_handle s)
    (firebase_initialized s) (db s) md (index s) (history s).

(** ** A state monad with exceptions *)

Inductive Res (A : Type) :=
| Ok (a : A)
| Raise.
Arguments Ok {A} a.
Arguments Raise {A}.

Definition M (A : Type) : Type := State -> Res A * State.

Definition ret {A} (a : A) : M A := fun s => (Ok a, s).

Definition bind {A B} (m : M A) (k : A -> M B) : M B :=
  fun s => match m s with
           | (Ok a, s') => k a s'
           | (Raise, s') => (Raise, s')
           end.

Definition raise {A} : M A := fun s => (Raise, s).

Definition get : M State := fun s => (Ok s, s).

Definition modify (f : State -> State) : M unit := fun s => (Ok tt, f s).

(** [try: m  except Exception: ...], the handler receiving [None]. *)
Definition attempt {A} (m : M A) : M (option A) :=
  fun s => match m s with
           | (Ok a, s') => (Ok (Some a), s')
           | (Raise, s') => (Ok None, s')
           end.

Notation "x <~ m ;; k" := (bind m (fun x => k))
  (at level 100, m at next level, right associativity).
Notation "m >>; k" := (bind m (fun _ => k))
  (at level 100, right associativity).

(** A call that may fail: the outcome is logged, a failure raises. *)
Definition call (okf : list Event -> bool) (e : bool -> Event) : M unit :=
  fun s => let ok := okf (history s) in
           (if ok then Ok tt else Raise, log (e ok) s).

(** ** The methods of [ChapterPDFManager] *)

Section WithServices.
Variable svc : Services.

Definition utcnow : M str := fun s => (Ok (now_isoformat svc (history s)), s).

(** [openai.Embedding.create(model=..., input=input)] followed by
    [response['data'][0]['embedding']], for chunk number [i]. *)
Definition openai_embedding_create (i : nat) (input : str) : M (list Q) :=
  fun s => match embedding_create svc (history s) input with
           | Some embedding => (Ok embedding, log (EmbeddingCreate i input true) s)
           | None => (Raise, log (EmbeddingCreate i input false) s)
           end.

(** [self.index.query(vector=..., top_k=top_k, filter=flt)]: at most
    [top_k] of the stored vectors whose metadata pass the filter.  Without
    an index handle the attribute access raises. *)
Definition index_query (top_k : nat) (flt : VecMeta -> bool) : M (list Vector) :=
  fun s =>
    if negb (index_handle s) then (Raise, s)
    else if query_ok svc (history s) then
      (Ok (take top_k (List.filter (fun v => flt (vec_metadata v))
                         (map snd (map_to_list (index s))))),
       log (IndexQuery top_k true) s)
    else (Raise, log (IndexQuery top_k false) s).

(** [self.index.delete(ids=ids)] *)
Definition index_delete (ids : list str) : M unit :=
  fun s =>
    if negb (index_handle s) then (Raise, s)
    else if delete_ok svc (history s) then
      (Ok tt, log (IndexDelete ids true) (set_index (foldr delete (index s) ids) s))
    else (Raise, log (IndexDelete ids false) s).

(** [self.index.upsert(vectors=vectors)] *)
Definition index_upsert (vectors : list Vector) : M unit :=
  fun s =>
    if negb (index_handle s) then (Raise, s)
    else if upsert_ok svc (history s) then
      (Ok tt,
       log (IndexUpsert (map vec_id vectors) true)
         (set_index (foldl (fun ix v => <[vec_id v := v]> ix) (index s) vectors) s))
    else (Raise, log (IndexUpsert (map vec_id vectors) false) s).

(** The composite id of chunk [i]: [f"{class_level}_{chapter_id}_chunk_{i}"]. *)
Definition chunk_id (class_level : Z) (chapter_id : str) (i : nat) : str :=
  str_of_Z class_level ++ lit "_" ++ chapter_id ++ lit "_chunk_" ++ str_of_nat i.

Definition batch_size : nat := 10.

Definition chunk_metadata (class_level : Z) (chapter_id : str) (i : nat)
    (chunk now : str) : VecMeta :=
  mkVecMeta class_level chapter_id
    (prefix (from_option englishName chapter_id (dict_get NCTB_CHAPTERS chapter_id)) 100)
    (prefix (from_option name chapter_id (dict_get NCTB_CHAPTERS chapter_id)) 100)
    i (prefix chunk 500) now.

(** The loop of [create_embeddings] from chunk number [i] on; [vectors] is
    the batch collected so far.  A failed embedding skips the chunk; a
    failed upsert inside the loop is caught by the same handler, after the
    vector was appended. *)
Fixpoint embed_chunks (class_level : Z) (chapter_id : str) (i : nat)
    (text_chunks : list str) (vectors : list Vector) : M (list Vector) :=
  match text_chunks with
  | [] => ret vectors
  | chunk :: rest =>
      r <~ attempt (openai_embedding_create i (prefix chunk 1000)) ;;
      match r with
      | None => embed_chunks class_level chapter_id (S i) rest vectors
      | Some embedding =>
          now <~ utcnow ;;
          let vectors' :=
            vectors ++ [mkVector (chunk_id class_level chapter_id i) embedding
                          (chunk_metadata class_level chapter_id i chunk now)] in
          if (batch_size <=? length vectors')%nat then
            u <~ attempt (index_upsert vectors') ;;
            match u with
            | Some _ => embed_chunks class_level chapter_id (S i) rest []
            | None => embed_chunks class_level chapter_id (S i) rest vectors'
            end
          else embed_chunks class_level chapter_id (S i) rest vectors'
      end
  end.

Definition create_embeddings (text_chunks : list str) (class_level : Z)
    (chapter_id : str) : M bool :=
  s <~ get ;;
  if negb (openai_client s) || negb (pinecone_client s) then ret false
  else
    r <~ attempt (vectors <~ embed_chunks class_level chapter_id 0 text_chunks [] ;;
                  match vectors with
                  | [] => ret tt
                  | _ => index_upsert vectors
                  end) ;;
    ret (bool_decide (is_Some r)).

(** *** Text extraction *)

Definition strlen (s : str) : Z := Z.of_nat (length s).

(** [l[k:]] for a possibly negative [k]. *)
Definition from_index {A} (l : list A) (k : Z) : list A :=
  if k <? 0 then drop (Z.to_nat (Z.of_nat (length l) + k)) l
  else drop (Z.to_nat k) l.

Definition max_pages : nat := 50.

(** The texts [doc[page_num].get_text()] for
    [page_num in range(min(doc.page_count, 50))]. *)
Definition page_texts (doc : list str) : list str :=
  omap (fun page_num => doc !! page_num) (seq 0 (Nat.min (length doc) max_pages)).

(** [text_pages]: the non-empty ones among them. *)
Definition text_pages (doc : list str) : list str :=
  List.filter (fun text => negb (bool_decide (strip text = []))) (page_texts doc).

Definition keep_chunk (chunks : list str) (current_chunk : list str) : list str :=
  let chunk_text := join [SP] current_chunk in
  if strlen (strip chunk_text) >? 50 then chunks ++ [chunk_text] else chunks.

(** The word loop of [extract_text_chunks]; it stops as soon as 100 chunks
    are collected. *)
Fixpoint pack_words (chunk_size overlap : Z) (words : list str)
    (chunks current_chunk : list str) (current_length : Z)
    : list str * list str :=
  match words with
  | [] => (chunks, current_chunk)
  | word :: rest =>
      let '(chunks', current', length') :=
        if (current_length + strlen word >? chunk_size)
           && negb (bool_decide (current_chunk = [])) then
          let overlap_words :=
            if Z.of_nat (length current_chunk) >? overlap / 10
            then from_index current_chunk ((- overlap) / 10) else [] in
          let current' := overlap_words ++ [word] in
          (keep_chunk chunks current_chunk, current',
           foldr Z.add 0 (map strlen current'))
        else (chunks, current_chunk ++ [word], current_length + strlen word + 1) in
      if (100 <=? length chunks')%nat then (chunks', current')
      else pack_words chunk_size overlap rest chunks' current' length'
  end.

Definition chunks_of_pages (doc : list str) (chunk_size overlap : Z) : list str :=
  let full_text := join [NL] (text_pages doc) in
  let '(chunks, current_chunk) :=
    pack_words chunk_size overlap (split full_text) [] [] 0 in
  let chunks :=
    match current_chunk with
    | [] => chunks
    | _ => keep_chunk chunks current_chunk
    end in
  take 50 chunks.

(** [extract_text_chunks(pdf_path, chunk_size, overlap)] on a file that
    holds the bytes [pdf]; an unreadable document gives the empty list. *)
Definition extract_text_chunks_with (pdf : list N) (chunk_size overlap : Z)
    : M (list str) :=
  match fitz_open svc pdf with
  | Some doc => modify (log (PdfOpen true)) >>; ret (chunks_of_pages doc chunk_size overlap)
  | None => modify (log (PdfOpen false)) >>; ret []
  end.

Definition extract_text_chunks (pdf : list N) : M (list str) :=
  extract_text_chunks_with pdf 800 50.

(** *** Fingerprint and index maintenance *)

Definition calculate_file_hash (file : list N) : M (option str) :=
  fun s =>
    if temp_readable svc (history s)
    then (Ok (Some (sha256_hexdigest svc file)), log (HashRead true) s)
    else (Ok None, log (HashRead false) s).

(** The filter [{'class_level': {'$eq': ...}, 'chapter_id': {'$eq': ...}}]. *)
Definition chapter_filter (class_level : Z) (chapter_id : str) (m : VecMeta) : bool :=
  bool_decide (v_class_level m = class_level)
  && bool_decide (v_chapter_id m = chapter_id).

Definition check_chapter_exists_in_pinecone (class_level : Z) (chapter_id : str)
    : M bool :=
  r <~ attempt (index_query 1 (chapter_filter class_level chapter_id)) ;;
  match r with
  | Some matches => ret (0 <? length matches)%nat
  | None => ret false
  end.

(** The batches of [delete_existing_chapter_chunks]: [fuel] rounds are
    left, [all_ids] collects the ids deleted so far. *)
Fixpoint delete_batches (fuel : nat) (class_level : Z) (chapter_id : str)
    (all_ids : list str) : M (list str) :=
  match fuel with
  | O => ret all_ids
  | S fuel' =>
      matches <~ index_query 100 (chapter_filter class_level chapter_id) ;;
      match matches with
      | [] => ret all_ids
      | _ =>
          let batch_ids := map vec_id matches in
          index_delete batch_ids >>;
          delete_batches fuel' class_level chapter_id (all_ids ++ batch_ids)
      end
  end.

Definition delete_existing_chapter_chunks (class_level : Z) (chapter_id : str)
    : M bool :=
  r <~ attempt (delete_batches 10 class_level chapter_id []) ;;
  match r with
  | Some (_ :: _) => ret true
  | _ => ret false
  end.

(** *** Upload of a chapter *)

(** The dictionaries returned by [upload_chapter_pdf], one constructor per
    [return] statement, in the order of the source.  [ConfirmationRequired]
    is the dictionary with [requires_confirmation] that the source places
    after the [return] of the same branch. *)
Inductive UploadResult :=
| InvalidChapter (valid_chapters : list str)
| InvalidClassLevel
| HashFailed
| SkippedIdentical (file_hash : str) (chunks_count : Z)
    (firebase_url : option str) (student_download_ready : bool)
| SkippedSameContent (file_hash : str) (chunks_count : Z)
    (firebase_url : option str) (student_download_ready : bool)
| ConfirmationRequired (existing_hash : option str) (new_hash : str)
| SaveFailed
| ExtractFailed
| EmbeddingsFailed
| Processed (chunks_created : Z) (firebase_url firebase_path : option str)
    (student_download_ready : bool)
| Errored.

(** [result['success']] *)
Definition success (r : UploadResult) : bool :=
  match r with
  | SkippedIdentical _ _ _ _ | SkippedSameContent _ _ _ _ | Processed _ _ _ _ => true
  | _ => false
  end.

(** [result.get('duplicate_detected', False)] *)
Definition duplicate_detected (r : UploadResult) : bool :=
  match r with
  | SkippedIdentical _ _ _ _ | SkippedSameContent _ _ _ _ => true
  | _ => false
  end.

(** [result.get('requires_confirmation', False)] *)
Definition requires_confirmation (r : UploadResult) : bool :=
  match r with
  | ConfirmationRequired _ _ => true
  | _ => false
  end.

(** [result.get('chunks_created')] *)
Definition chunks_created (r : UploadResult) : option Z :=
  match r with
  | SkippedIdentical _ n _ _ | SkippedSameContent _ n _ _ | Processed n _ _ _ => Some n
  | _ => None
  end.

(** [result.get('existing_chunks')] *)
Definition existing_chunks (r : UploadResult) : option Z :=
  match r with
  | SkippedIdentical _ n _ _ | SkippedSameContent _ n _ _ => Some n
  | _ => None
  end.

(** [result.get('file_hash')] *)
Definition result_file_hash (r : UploadResult) : option str :=
  match r with
  | SkippedIdentical h _ _ _ | SkippedSameContent h _ _ _ => Some h
  | _ => None
  end.

(** Truth value of an optional string: [None] and the empty string are false. *)
Definition truthy (o : option str) : bool :=
  match o with
  | Some (_ :: _) => true
  | _ => false
  end.

Definition chapter_key_of (class_level : Z) : str :=
  lit "class_" ++ str_of_Z class_level.

(** [secure_filename(f"class_{class_level}_{chapter_id}.pdf")]; the ids of
    the catalogue hold only letters, digits and underscores, which
    [secure_filename] leaves as they are. *)
Definition filename_of (class_level : Z) (chapter_id : str) : str :=
  lit "class_" ++ str_of_Z class_level ++ lit "_" ++ chapter_id ++ lit ".pdf".

Definition local_path_of (filename : str) : str := lit "data/chapters/" ++ filename.

Definition firebase_path_of (class_level : Z) (chapter_id : str) : str :=
  lit "chapters/class_" ++ str_of_Z class_level ++ lit "/" ++ chapter_id ++ lit ".pdf".

Definition doc_id_of (class_level : Z) (chapter_id : str) : str :=
  str_of_Z class_level ++ lit "_" ++ chapter_id.

(** [self.chapter_metadata.get(chapter_key, {}).get(chapter_id, {})];
    [None] stands for the empty dictionary. *)
Definition lookup_metadata (s : State) (chapter_key chapter_id : str)
    : option ChapterMeta :=
  match chapter_metadata s !! chapter_key with
  | Some chapters => chapters !! chapter_id
  | None => None
  end.

Definition store_metadata (chapter_key chapter_id : str) (m : ChapterMeta)
    (s : State) : State :=
  set_chapter_metadata
    (<[chapter_key := <[chapter_id := m]> (default ∅ (chapter_metadata s !! chapter_key))]>
       (chapter_metadata s)) s.

Definition with_firebase (url path : option str) (m : ChapterMeta) : ChapterMeta :=
  mkChapterMeta (m_filename m) (m_local_path m) url path (m_file_hash m)
    (m_upload_date m) (m_text_chunks_count m) (m_chapter_info m)
    (m_class_level m) (m_subject m).

(** [os.remove(path)] *)
Definition remove_file (path : str) : M unit := call (remove_ok svc) (FileRemove path).
Definition save_metadata : M unit := modify (log MetadataSave).

(** Upload through the Admin SDK, and through a signed URL when the Admin
    SDK lacks the create permission; [Some url] on success. *)
Definition publish (firebase_path : str) : M (option str) :=
  fun s =>
    let outcome := admin_upload svc (history s) firebase_path in
    let s1 := log (AdminUpload firebase_path outcome) s in
    match outcome with
    | AdminOk public_url => (Ok (Some public_url), s1)
    | AdminError => (Ok None, s1)
    | AdminNoCreatePermission =>
        match signed_upload svc (history s1) firebase_path with
        | Some public_url => (Ok (Some public_url), log (SignedUpload firebase_path true) s1)
        | None => (Ok None, log (SignedUpload firebase_path false) s1)
        end
    end.

(** [self.db.collection('chapters').document(doc_id).set/update(...)] inside
    its own [try]. *)
Definition firestore_write (doc_id : str) : M unit :=
  fun s => (Ok tt, log (FirestoreWrite doc_id (firestore_ok svc (history s))) s).

Definition local_file_exists (path : str) : M bool :=
  fun s => let found := path_exists svc (history s) path in
           (Ok found, log (PathExists found) s).

Definition temp_path_of (filename : str) : str := lit "/tmp/temp_" ++ filename.

(** The branch taken when the fingerprint equals the recorded one and the
    upload is not forced: nothing is extracted or embedded; a missing
    Firebase URL is the only thing retried. *)
Definition skip_identical (class_level : Z) (chapter_id file_hash : str)
    (existing_metadata : option ChapterMeta) : M UploadResult :=
  remove_file (temp_path_of (filename_of class_level chapter_id)) >>;
  let chunks_count := from_option m_text_chunks_count 0 existing_metadata in
  let firebase_url := existing_metadata ≫= m_firebase_url in
  s <~ get ;;
  if negb (truthy firebase_url) && firebase_initialized s then
    match existing_metadata with
    | Some m =>
        found <~ (match m_local_path m with
                  | [] => ret false
                  | _ => local_file_exists (m_local_path m)
                  end) ;;
        if found then
          let firebase_path := firebase_path_of class_level chapter_id in
          published <~ publish firebase_path ;;
          let firebase_url' :=
            match published with Some url => Some url | None => firebase_url end in
          let firebase_upload_success := bool_decide (is_Some published) in
          modify (store_metadata (chapter_key_of class_level) chapter_id
                    (with_firebase firebase_url' (Some firebase_path) m)) >>;
          save_metadata >>;
          (if db s && firebase_upload_success
           then firestore_write (doc_id_of class_level chapter_id) else ret tt) >>;
          ret (SkippedIdentical file_hash chunks_count firebase_url'
                 firebase_upload_success)
        else ret (SkippedIdentical file_hash chunks_count firebase_url false)
    | None => ret (SkippedIdentical file_hash chunks_count firebase_url false)
    end
  else ret (SkippedIdentical file_hash chunks_count firebase_url (truthy firebase_url)).

(** From "If we're replacing existing content, delete old chunks" to the
    end of the [try] block.  [replace] is [chapter_exists or force_reupload];
    the value returned by [delete_existing_chapter_chunks] is not used. *)
Definition process_upload (file : list N) (class_level : Z)
    (chapter_id file_hash : str) (replace : bool) : M UploadResult :=
  let filename := filename_of class_level chapter_id in
  (if replace
   then delete_existing_chapter_chunks class_level chapter_id >>; ret tt
   else ret tt) >>;
  let local_path := local_path_of filename in
  moved <~ attempt (call (move_ok svc) FileMove) ;;
  saved <~ (match moved with
            | Some _ => ret true
            | None =>
                copied <~ attempt (call (copy_ok svc) FileCopy >>;
                                   remove_file (temp_path_of filename)) ;;
                ret (bool_decide (is_Some copied))
            end) ;;
  if negb saved then ret SaveFailed
  else
    text_chunks <~ extract_text_chunks file ;;
    match text_chunks with
    | [] => ret ExtractFailed
    | _ =>
        embedded <~ create_embeddings text_chunks class_level chapter_id ;;
        if negb embedded then ret EmbeddingsFailed
        else
          s <~ get ;;
          published <~ (if firebase_initialized s
                        then url <~ publish (firebase_path_of class_level chapter_id) ;;
                             ret (url, Some (firebase_path_of class_level chapter_id))
                        else ret (None, None)) ;;
          let firebase_url := fst published in
          let firebase_path := snd published in
          let firebase_upload_success := bool_decide (is_Some firebase_url) in
          now <~ utcnow ;;
          match dict_get NCTB_CHAPTERS chapter_id with
          | None => raise
          | Some info =>
              modify (store_metadata (chapter_key_of class_level) chapter_id
                        (mkChapterMeta filename local_path firebase_url firebase_path
                           file_hash now (Z.of_nat (length text_chunks)) info
                           class_level (lit "Mathematics"))) >>;
              save_metadata >>;
              (if db s && firebase_upload_success
               then firestore_write (doc_id_of class_level chapter_id) else ret tt) >>;
              ret (Processed (Z.of_nat (length text_chunks)) firebase_url firebase_path
                     firebase_upload_success)
          end
    end.

(** The body of the [try] block of [upload_chapter_pdf]. *)
Definition upload_body (file : list N) (class_level : Z) (chapter_id : str)
    (force_reupload : bool) : M UploadResult :=
  if negb (is_valid_chapter_for_class chapter_id class_level) then
    ret (InvalidChapter (keys (get_chapters_for_class class_level)))
  else if negb (bool_decide (class_level ∈ [9; 10])) then ret InvalidClassLevel
  else
    let temp_path := temp_path_of (filename_of class_level chapter_id) in
    call (file_save_ok svc) FileSave >>;
    h <~ calculate_file_hash file ;;
    match h with
    | Some ((_ :: _) as file_hash) =>
        s <~ get ;;
        let existing_metadata :=
          lookup_metadata s (chapter_key_of class_level) chapter_id in
        let existing_hash := m_file_hash <$> existing_metadata in
        if bool_decide (existing_hash = Some file_hash) && negb force_reupload then
          skip_identical class_level chapter_id file_hash existing_metadata
        else
          chapter_exists <~ check_chapter_exists_in_pinecone class_level chapter_id ;;
          if chapter_exists && negb force_reupload then
            if truthy existing_hash
               && negb (bool_decide (existing_hash = Some file_hash)) then
              (* "File content changed - will update chunks" *)
              process_upload file class_level chapter_id file_hash
                (chapter_exists || force_reupload)
            else if bool_decide (existing_hash = Some file_hash) then
              remove_file temp_path >>;
              ret (SkippedSameContent file_hash
                     (from_option m_text_chunks_count 0 existing_metadata)
                     (existing_metadata ≫= m_firebase_url)
                     (truthy (existing_metadata ≫= m_firebase_url)))
            else
              process_upload file class_level chapter_id file_hash
                (chapter_exists || force_reupload)
          else
            process_upload file class_level chapter_id file_hash
              (chapter_exists || force_reupload)
    | _ => remove_file temp_path >>; ret HashFailed
    end.

Definition upload_chapter_pdf (file : list N) (class_level : Z) (chapter_id : str)
    (force_reupload : bool) : M UploadResult :=
  r <~ attempt (upload_body file class_level chapter_id force_reupload) ;;
  match r with
  | Some result => ret result
  | None =>
      let temp_path := temp_path_of (filename_of class_level chapter_id) in
      found <~ local_file_exists temp_path ;;
      (if found then attempt (remove_file temp_path) >>; ret tt else ret tt) >>;
      ret Errored
  end.

(** *** Deletion of a chapter *)

Inductive DeleteResult :=
| Deleted
| DeleteErrored.

(** [[f"{class_level}_{chapter_id}_chunk_{i}" for i in range(1000)]] *)
Definition delete_chapter_ids (class_level : Z) (chapter_id : str) : list str :=
  map (fun i => chunk_id class_level chapter_id i) (seq 0 1000).

Definition delete_chapter (class_level : Z) (chapter_id : str) : M DeleteResult :=
  r <~ attempt (
    s <~ get ;;
    (if pinecone_client s
     then index_delete (delete_chapter_ids class_level chapter_id) else ret tt) >>;
    (if firebase_initialized s
     then call (blob_delete_ok svc)
            (BlobDelete (lit "chapters/" ++ filename_of class_level chapter_id))
     else ret tt) >>;
    match lookup_metadata s (chapter_key_of class_level) chapter_id with
    | Some m =>
        found <~ local_file_exists (m_local_path m) ;;
        (if found then remove_file (m_local_path m) else ret tt) >>;
        modify (fun s' => set_chapter_metadata
                  (alter (delete chapter_id) (chapter_key_of class_level)
                     (chapter_metadata s')) s') >>;
        save_metadata
    | None => ret tt
    end) ;;
  ret (match r with Some _ => Deleted | None => DeleteErrored end).

End WithServices.

End Manager.

(** ** The RAG pipeline ([rag_pipeline.py]) *)

Module Rag.
Import Py.

(** *** Chapter detection *)

(** The regular expressions of [detect_chapters], in the order of
    [bengali_patterns + english_patterns]. *)
Inductive Pattern :=
| BengaliChapter        (* অধ্যায়\s*[০-৯]+ *)
| BengaliLesson         (* পাঠ\s*[০-৯]+ *)
| BengaliChapterDigits  (* অধ্যায়\s*\d+ *)
| EnglishChapter        (* Chapter\s+\d+ *)
| EnglishChapterUpper   (* CHAPTER\s+\d+ *)
| EnglishUnit           (* Unit\s+\d+ *)
| EnglishLesson.        (* Lesson\s+\d+ *)

Definition bengali_patterns : list Pattern :=
  [BengaliChapter; BengaliLesson; BengaliChapterDigits].

Definition english_patterns : list Pattern :=
  [EnglishChapter; EnglishChapterUpper; EnglishUnit; EnglishLesson].

Definition all_patterns : list Pattern := bengali_patterns ++ english_patterns.

(** An element of [chapter_matches]. *)
Record Heading := mkHeading {
  h_start : nat;
  h_end : nat;
  h_text : str;
  full_line : str
}.

(** An element of the list returned by [detect_chapters]. *)
Record Chapter := mkChapter {
  title : str;
  start_pos : nat;
  end_pos : nat;
  content : str
}.

(** [list.sort(key=lambda x: x['start'])]: a stable sort, written as an
    insertion from the right. *)
Fixpoint insert_by_start (h : Heading) (l : list Heading) : list Heading :=
  match l with
  | [] => [h]
  | x :: rest =>
      if (h_start h <=? h_start x)%nat then h :: x :: rest
      else x :: insert_by_start h rest
  end.

Definition sort_by_start (l : list Heading) : list Heading :=
  foldr insert_by_start [] l.

Section Segmenter.
(** [re.finditer(pattern, text, re.IGNORECASE)], as the pairs
    [(match.start(), match.end())] in the order of the iterator. *)
Variable finditer : Pattern -> str -> list (nat * nat).

Definition heading_of (text : str) (m : nat * nat) : Heading :=
  mkHeading (fst m) (snd m) (slice text (fst m) (snd m))
    (first_line (slice text (fst m - 50) (snd m + 100))).

Definition find_headings (text : str) : list Heading :=
  flat_map (fun pattern => map (heading_of text) (finditer pattern text)) all_patterns.

Definition generic_title (subject : option str) : str :=
  match subject with
  | Some ((_ :: _) as subject) => subject ++ lit " - Complete Text"
  | _ => lit "Complete Text"
  end.

(** The loop [for i, match in enumerate(chapter_matches)]. *)
Definition chapters_of (text : str) (chapter_matches : list Heading) : list Chapter :=
  imap (fun i m =>
          let end_pos := match chapter_matches !! S i with
                         | Some next => h_start next
                         | None => length text
                         end in
          mkChapter (strip (full_line m)) (h_start m) end_pos
            (strip (slice text (h_start m) end_pos)))
       chapter_matches.

Definition detect_chapters (text : str) (subject : option str) : list Chapter :=
  let chapter_matches := sort_by_start (find_headings text) in
  match chapter_matches with
  | [] => [mkChapter (generic_title subject) 0 (length text) text]
  | _ => chapters_of text chapter_matches
  end.

End Segmenter.

(** *** Chunking *)

Section Chunker.
(** [nltk.tokenize.sent_tokenize] *)
Variable sent_tokenize : str -> list str.

(** [chunks[-1] += " " + current_chunk] *)
Fixpoint append_to_last (chunks : list str) (current_chunk : str) : list str :=
  match chunks with
  | [] => []
  | [c] => [c ++ [SP] ++ current_chunk]
  | c :: rest => c :: append_to_last rest current_chunk
  end.

(** [current_chunk + " " + sentence if current_chunk else sentence] *)
Definition potential_chunk (current_chunk sentence : str) : str :=
  match current_chunk with
  | [] => sentence
  | _ => current_chunk ++ [SP] ++ sentence
  end.

(** The loop over the sentences.  The comparison
    [word_count > max_chunk_size * 1.5] is written over the integers. *)
Fixpoint pack_sentences (min_chunk_size max_chunk_size : Z) (sentences : list str)
    (chunks : list str) (current_chunk : str) : list str * str :=
  match sentences with
  | [] => (chunks, current_chunk)
  | sentence :: rest =>
      let potential := potential_chunk current_chunk sentence in
      let count := word_count potential in
      if count <=? max_chunk_size then
        pack_sentences min_chunk_size max_chunk_size rest chunks potential
      else if min_chunk_size <=? word_count current_chunk then
        pack_sentences min_chunk_size max_chunk_size rest
          (chunks ++ [strip current_chunk]) sentence
      else if 2 * count >? 3 * max_chunk_size then
        pack_sentences min_chunk_size max_chunk_size rest
          (chunks ++ [strip potential]) []
      else
        pack_sentences min_chunk_size max_chunk_size rest chunks potential
  end.

Definition chunk_text (text : str) (min_chunk_size max_chunk_size : Z) : list str :=
  let '(chunks, current_chunk) :=
    pack_sentences min_chunk_size max_chunk_size (sent_tokenize text) [] [] in
  match current_chunk with
  | [] => chunks
  | _ =>
      if min_chunk_size <=? word_count current_chunk
      then chunks ++ [strip current_chunk]
      else match chunks with
           | [] => chunks
           | _ => append_to_last chunks current_chunk
           end
  end.

End Chunker.

(** *** Retrieval and answer *)

(** The filter dictionary given to [index.query]. *)
Record Filter := mkFilter {
  f_class_level : str;
  f_subject : option str;
  f_chapter : option str
}.

(** An element of [results['matches']], and of the list returned by
    [search_relevant_chunks]. *)
Record ChunkInfo := mkChunkInfo {
  chunk_id : str;
  score : Q;
  text : str;
  class_level : str;
  subject : str;
  chapter : str;
  page_number : Z;
  info_word_count : Z
}.

(** The dictionary returned by [generate_rag_response]; [context_used] is
    present on the generated answer only. *)
Record Response := mkResponse {
  answer : str;
  source_chunks : list ChunkInfo;
  confidence : Q;
  context_used : option nat
}.

(** Calls to the outside made while answering, in order. *)
Inductive Call :=
| EmbeddingCall (input : str)
| QueryCall (top_k : nat) (flt : Filter)
| ChatCall (system_prompt query : str).

(** The OpenAI client and the Pinecone index; [None] is a raised error. *)
Record Clients := mkClients {
  embeddings_create : str -> option (list Q);
  index_query : list Q -> nat -> Filter -> option (list ChunkInfo);
  chat_completions_create : str -> str -> option str
}.

Section Answer.
Variable client : Clients.
(** The built-in [sum] on doubles and the division of a double by an
    [int], with the rounding of the interpreter. *)
Variable float_sum : list Q -> Q.
Variable float_div : Q -> nat -> Q.

Definition nonempty (o : option str) : option str :=
  match o with
  | Some (_ :: _) => o
  | _ => None
  end.

(** [search_relevant_chunks]: any error gives the empty list. *)
Definition search_relevant_chunks (query class_level : str)
    (subject chapter : option str) (top_k : nat) : list ChunkInfo * list Call :=
  match embeddings_create client query with
  | None => ([], [EmbeddingCall query])
  | Some query_embedding =>
      let filter_dict := mkFilter class_level (nonempty subject) (nonempty chapter) in
      match index_query client query_embedding top_k filter_dict with
      | None => ([], [EmbeddingCall query; QueryCall top_k filter_dict])
      | Some matches => (matches, [EmbeddingCall query; QueryCall top_k filter_dict])
      end
  end.

(** How an f-string prints an optional argument. *)
Definition fmt (o : option str) : str :=
  match o with
  | Some s => s
  | None => lit "None"
  end.

Definition not_covered_answer (class_level : str) (subject : option str) : str :=
  lit "This topic is not covered in your Class " ++ class_level ++ lit " "
  ++ fmt subject
  ++ lit " book. Do you want me to explain from general knowledge?".

Definition error_answer : str :=
  lit "I'm sorry, I encountered an error while processing your question. Please try again.".

Definition system_prompt_of (class_level : str) (subject : option str)
    (context : str) : str :=
  lit "You are an expert AI tutor for Bangladeshi students following NCTB curriculum.
You are helping a Class " ++ class_level ++ lit " student with "
  ++ from_option id (lit "their studies") (nonempty subject)
  ++ lit ".

Use the following textbook content to answer the student's question:

" ++ context ++ lit "

Instructions:
1. Answer based ONLY on the provided textbook content
2. Provide step-by-step explanations
3. Use examples from the textbook when available
4. Explain in both Bengali and English when helpful
5. If the content doesn't fully answer the question, say so clearly
6. Keep explanations clear and age-appropriate for Class " ++ class_level
  ++ lit " students
".

(** [sum(chunk['score'] for chunk in relevant_chunks) / len(relevant_chunks)];
    the scores are doubles, kept as the rationals they denote, and the sum
    and the quotient are the interpreter's, which round. *)
Definition avg_score (chunks : list ChunkInfo) : Q :=
  float_div (float_sum (map score chunks)) (length chunks).

Definition generate_rag_response (query class_level : str)
    (subject chapter : option str) : Response * list Call :=
  let '(relevant_chunks, calls) :=
    search_relevant_chunks query class_level subject chapter 5 in
  match relevant_chunks with
  | [] => (mkResponse (not_covered_answer class_level subject) [] 0%Q None, calls)
  | _ =>
      let context := join [NL; NL] (map text relevant_chunks) in
      let system_prompt := system_prompt_of class_level subject context in
      match chat_completions_create client system_prompt query with
      | Some generated =>
          (mkResponse generated relevant_chunks (avg_score relevant_chunks)
             (Some (length relevant_chunks)),
           calls ++ [ChatCall system_prompt query])
      | None =>
          (mkResponse error_answer [] 0%Q None, calls ++ [ChatCall system_prompt query])
      end
  end.

End Answer.

End Rag.

(** ** Ingestion of a textbook ([rag_pipeline.py]) *)

Module Ingest.
Import Py.

(** The regular expressions of [_clean_text], in the order they are
    applied. *)
Inductive CleanPattern :=
| LoneNumberLine   (* \n\d+\n *)
| PageEnglish      (* Page \d+ *)
| PageBengali      (* পৃষ্ঠা \d+ *)
| WhitespaceRun    (* \s+ *)
| BlankLines       (* \n\s*\n *)
| UnwantedChars.   (* [^\w\s...] *)

(** What [fitz.open] gives: the texts of the pages, and whether [len(doc)]
    still answers once the document is closed, which the log line of
    [extract_text_from_pdf] asks after [doc.close()] (PyMuPDF raises
    [ValueError] there in the releases that check for a closed document). *)
Record Document := mkDocument {
  page_texts : list str;
  len_after_close : bool
}.

(** An element of [page_info]. *)
Record PageInfo := mkPageInfo {
  p_number : nat;
  p_text : str;
  p_word_count : Z
}.

Section Extractor.
(** [re.sub(pattern, repl, text)] *)
Variable re_sub : CleanPattern -> str -> str -> str.

Definition _clean_text (text : str) : str :=
  let text := re_sub LoneNumberLine [NL] text in
  let text := re_sub PageEnglish [] text in
  let text := re_sub PageBengali [] text in
  let text := re_sub WhitespaceRun [SP] text in
  let text := re_sub BlankLines [NL; NL] text in
  let text := re_sub UnwantedChars [] text in
  strip text.

(** The loop [for page_num in range(len(doc))] from page [page_num] on. *)
Fixpoint extract_pages (page_num : nat) (pages : list str) (full_text : str)
    (page_info : list PageInfo) : str * list PageInfo :=
  match pages with
  | [] => (full_text, page_info)
  | text :: rest =>
      let cleaned_text := _clean_text text in
      match strip cleaned_text with
      | [] => extract_pages (S page_num) rest full_text page_info
      | _ =>
          extract_pages (S page_num) rest (full_text ++ cleaned_text ++ [NL; NL])
            (page_info
             ++ [mkPageInfo (page_num + 1) cleaned_text (word_count cleaned_text)])
      end
  end.

(** [extract_text_from_pdf]; [doc] is what [fitz.open] gives, [None] when
    it raises.  An exception of [fitz.open] or of the log line is logged
    and raised again: the result is [None]. *)
Definition extract_text_from_pdf (doc : option Document)
    : option (str * list PageInfo) :=
  match doc with
  | Some doc =>
      let result := extract_pages 0 (page_texts doc) [] [] in
      if len_after_close doc then Some result else None
  | None => None
  end.

End Extractor.

(** The loop of [_estimate_page_number]; [char_count] is the number of
    characters of the pages passed. *)
Fixpoint estimate_from (char_count text_position : nat) (page_info : list PageInfo)
    : option nat :=
  match page_info with
  | [] => None
  | page :: rest =>
      let char_count := (char_count + length (p_text page))%nat in
      if (text_position <=? char_count)%nat then Some (p_number page)
      else estimate_from char_count text_position rest
  end.

Definition _estimate_page_number (text_position : nat) (page_info : list PageInfo)
    : nat :=
  match estimate_from 0 text_position page_info with
  | Some page_number => page_number
  | None =>
      match last page_info with
      | Some page => p_number page
      | None => 1%nat
      end
  end.

(** [ChunkMetadata] and [TextChunk] *)
Record ChunkMetadata := mkChunkMetadata {
  class_level : str;
  subject : str;
  chapter : str;
  chunk_id : str;
  chapter_number : nat;
  page_number : nat;
  word_count : Z;
  created_at : str
}.

Record TextChunk := mkTextChunk {
  text : str;
  metadata : ChunkMetadata;
  embedding : option (list Q)
}.

(** [f"{n:03d}"] for a non-negative [n]. *)
Definition pad3 (n : nat) : str :=
  repeat 48%N (3 - length (str_of_nat n)) ++ str_of_nat n.

Section Processor.
Variable re_sub : CleanPattern -> str -> str -> str.
Variable finditer : Rag.Pattern -> str -> list (nat * nat).
Variable sent_tokenize : str -> list str.
(** [str.lower] *)
Variable lower : str -> str.
(** [self.client.embeddings.create(...)]; [None] when it raises. *)
Variable embeddings_create : str -> option (list Q).
(** [datetime.now().isoformat()] at chunk [chunk_idx] of chapter
    [chapter_idx]. *)
Variable now : nat -> nat -> str.

Definition make_chunk_id (class_level subject : str) (chapter_idx chunk_idx : nat)
    : str :=
  class_level ++ lit "-" ++ lower subject ++ lit "-" ++ str_of_nat (chapter_idx + 1)
  ++ lit "-" ++ pad3 (chunk_idx + 1).

(** The inner loop [for chunk_idx, chunk_text in enumerate(chunks)]. *)
Fixpoint process_chunks (class_level subject : str) (page_info : list PageInfo)
    (chapter_idx : nat) (chapter : Rag.Chapter) (chunk_idx : nat)
    (chunks : list str) (all_chunks : list TextChunk) : option (list TextChunk) :=
  match chunks with
  | [] => Some all_chunks
  | chunk_text :: rest =>
      let metadata :=
        mkChunkMetadata class_level subject (Rag.title chapter)
          (make_chunk_id class_level subject chapter_idx chunk_idx)
          (chapter_idx + 1)
          (_estimate_page_number (Rag.start_pos chapter) page_info)
          (Py.word_count chunk_text) (now chapter_idx chunk_idx) in
      match embeddings_create chunk_text with
      | None => None
      | Some embedding =>
          process_chunks class_level subject page_info chapter_idx chapter
            (S chunk_idx) rest
            (all_chunks ++ [mkTextChunk chunk_text metadata (Some embedding)])
      end
  end.

(** The outer loop [for chapter_idx, chapter in enumerate(chapters)]. *)
Fixpoint process_chapters (class_level subject : str) (page_info : list PageInfo)
    (chapter_idx : nat) (chapters : list Rag.Chapter) (all_chunks : list TextChunk)
    : option (list TextChunk) :=
  match chapters with
  | [] => Some all_chunks
  | chapter :: rest =>
      let chunks := Rag.chunk_text sent_tokenize (Rag.content chapter) 300 800 in
      match process_chunks class_level subject page_info chapter_idx chapter 0
              chunks all_chunks with
      | None => None
      | Some all_chunks' =>
          process_chapters class_level subject page_info (S chapter_idx) rest all_chunks'
      end
  end.

(** [process_textbook]; [None] when an exception leaves the method. *)
Definition process_textbook (doc : option Document) (class_level subject : str)
    (chapter_name : option str) : option (list TextChunk) :=
  match extract_text_from_pdf re_sub doc with
  | None => None
  | Some (full_text, page_info) =>
      let chapters :=
        match chapter_name with
        | Some ((_ :: _) as chapter_name) =>
            [Rag.mkChapter chapter_name 0 (length full_text) full_text]
        | _ => Rag.detect_chapters finditer full_text (Some subject)
        end in
      process_chapters class_level subject page_info 0 chapters []
  end.

End Processor.

(** The vector written for a chunk by [store_chunks_in_pinecone]; the
    text kept in the metadata is cut at 1000 characters. *)
Record StoredVector := mkStoredVector {
  sv_id : str;
  sv_values : option (list Q);
  sv_metadata : ChunkMetadata;
  sv_text : str
}.

Definition vector_of (chunk : TextChunk) : StoredVector :=
  mkStoredVector (chunk_id (metadata chunk)) (embedding chunk) (metadata chunk)
    (prefix (text chunk) 1000).

Definition batch_size : nat := 100.

(** [[vectors[i:i + batch_size] for i in range(0, len(vectors), batch_size)]] *)
Definition batches (vectors : list StoredVector) : list (list StoredVector) :=
  map (fun k => take batch_size (drop (batch_size * k) vectors))
    (seq 0 ((length vectors + (batch_size - 1)) / batch_size)%nat).

Section Store.
(** [self.index.upsert(vectors=batch)], given the batches upserted before:
    [false] when it raises. *)
Variable upsert_ok : list (list StoredVector) -> list StoredVector -> bool.

(** The upload loop; [done] holds the batches upserted so far. *)
Fixpoint upsert_batches (todo done : list (list StoredVector))
    : bool * list (list StoredVector) :=
  match todo with
  | [] => (true, done)
  | batch :: rest =>
      if upsert_ok done batch then upsert_batches rest (done ++ [batch])
      else (false, done)
  end.

(** [store_chunks_in_pinecone]: the value returned and the batches that
    reached the index. *)
Definition store_chunks_in_pinecone (chunks : list TextChunk)
    : bool * list (list StoredVector) :=
  upsert_batches (batches (map vector_of chunks)) [].

End Store.

End Ingest.

(** ** Flask routes of [chapter_pdf_manager.py] *)

Module Routes.
Import Py Manager.

(** The answer of [/chapter/<class_level>/<chapter_id>/status]: 404 when
    there is no record, the status dictionary, or 500. *)
Inductive StatusResponse :=
| StatusNotFound
| StatusOk (file_hash upload_date : str) (text_chunks_count : Z)
    (has_embeddings : bool) (firebase_url : option str) (local_path_exists : bool)
    (chapter_info : ChapterInfo)
| StatusError.

Definition http_code (r : StatusResponse) : Z :=
  match r with
  | StatusNotFound => 404
  | StatusOk _ _ _ _ _ _ _ => 200
  | StatusError => 500
  end.

Section WithServices.
Variable svc : Services.

Definition get_chapter_status (class_level : Z) (chapter_id : str) : M StatusResponse :=
  r <~ attempt (
    s <~ get ;;
    match lookup_metadata s (chapter_key_of class_level) chapter_id with
    | None => ret StatusNotFound
    | Some metadata =>
        has_embeddings <~ check_chapter_exists_in_pinecone svc class_level chapter_id ;;
        local_path_exists <~ local_file_exists svc (m_local_path metadata) ;;
        ret (StatusOk (m_file_hash metadata) (m_upload_date metadata)
               (m_text_chunks_count metadata) has_embeddings (m_firebase_url metadata)
               local_path_exists (m_chapter_info metadata))
    end) ;;
  ret (match r with Some response => response | None => StatusError end).

End WithServices.

End Routes.

(** ** Stand-ins for the external libraries, used by the examples

    The properties below are proved for every tokenizer, matcher, digest
    and service.  The worked examples need concrete ones; these are simple
    functions that agree with the libraries on the inputs of the examples. *)

Module Demo.
Import Py.

(** Sentences end at a full stop, exclamation or question mark followed
    by whitespace or by the end of the text. *)
Definition is_terminator (c : N) : bool := ((c =? 46) || (c =? 33) || (c =? 63))%N.

Definition emit_sentence (cur : str) (rest : list str) : list str :=
  match strip (rev cur) with
  | [] => rest
  | sentence => sentence :: rest
  end.

Fixpoint sentences_from (cur : str) (s : str) : list str :=
  match s with
  | [] => emit_sentence cur []
  | c :: r =>
      if is_terminator c && match r with [] => true | d :: _ => isspace d end
      then emit_sentence (c :: cur) (sentences_from [] r)
      else sentences_from (c :: cur) r
  end.

Definition sent_tokenize (text : str) : list str := sentences_from [] text.

(** The arithmetic of the examples, none of which takes a mean: the exact
    sum and quotient. *)
Definition float_sum (scores : list Q) : Q := foldl Qplus 0%Q scores.
Definition float_div (x : Q) (n : nat) : Q := (x / inject_Z (Z.of_nat n))%Q.

(** An OpenAI client and an index that holds nothing for any scope. *)
Definition empty_index_client : Rag.Clients :=
  Rag.mkClients (fun _ => Some [0%Q]) (fun _ _ _ => Some [])
    (fun _ _ => Some (lit "generated")).

(** A digest for the examples: injective and never empty. *)
Definition digest (file : list N) : str := lit "digest:" ++ file.

(** A reader for the examples: the bytes of a document are its text, a
    form feed ends a page. *)
Fixpoint pages_from (cur : str) (file : list N) : list str :=
  match file with
  | [] => [rev cur]
  | b :: r =>
      if (b =? 12)%N then rev cur :: pages_from [] r else pages_from (b :: cur) r
  end.

Definition pages_of (file : list N) : list str := pages_from [] file.

(** Services whose embedding, query, delete and upsert behaviour is
    given; the file system works and Firebase is not configured. *)
Definition services (embedding : list Manager.Event -> str -> option (list Q))
    (query delete upsert : list Manager.Event -> bool) : Manager.Services :=
  Manager.mkServices digest (fun _ => true) (fun _ => true) (fun _ => true) embedding
    query delete upsert (fun file => Some (pages_of file))
    (fun _ => true) (fun _ => true) (fun _ _ => true)
    (fun _ _ => Manager.AdminError) (fun _ _ => None)
    (fun _ => true) (fun _ => true) (fun _ => lit "2025-01-01T00:00:00").

Definition reliable : Manager.Services :=
  services (fun _ _ => Some [0%Q]) (fun _ => true) (fun _ => true) (fun _ => true).

(** A freshly started manager: both clients initialised, no Firebase, no
    record, an empty index. *)
Definition fresh : Manager.State :=
  Manager.mkState true true true false false ∅ ∅ [].

(** A chapter of three pages. *)
Definition chapter_pdf : list N :=
  lit "Real numbers include rationals and irrationals." ++ [12%N]
  ++ lit "Every rational number is a ratio of two integers." ++ [12%N]
  ++ lit "The square root of two is irrational.".

(** A chapter long enough for two chunks, and a one-page revision of it. *)
Definition long_chapter_pdf : list N :=
  concat (repeat (lit "real numbers include rationals and irrationals ") 30).

Definition revised_pdf : list N :=
  lit "Sets are collections of distinct objects, and functions map sets to sets.".

(** Services whose delete requests all fail. *)
Definition delete_fails : Manager.Services :=
  services (fun _ _ => Some [0%Q]) (fun _ => true) (fun _ => false) (fun _ => true).

Definition is_embedding_call (e : Manager.Event) : bool :=
  match e with
  | Manager.EmbeddingCreate _ _ _ => true
  | _ => false
  end.

(** Services whose first embedding request fails, and services whose
    embedding requests all fail. *)
Definition first_embedding_fails : Manager.Services :=
  services (fun h _ => if existsb is_embedding_call h then Some [0%Q] else None)
    (fun _ => true) (fun _ => true) (fun _ => true).

Definition no_embeddings : Manager.Services :=
  services (fun _ _ => None) (fun _ => true) (fun _ => true) (fun _ => true).

(** The state after the long chapter was ingested for class 9. *)
Definition ingested : Manager.State :=
  snd (Manager.upload_chapter_pdf reliable long_chapter_pdf 9 (lit "real_numbers")
         false fresh).

(** A document of 51 pages (and a last empty one). *)
Definition long_pdf : list N := concat (repeat (lit "page text" ++ [12%N]) 51).

(** Successful upserts and deletes in a history, and the ids held by the
    index. *)
Definition is_upsert (e : Manager.Event) : bool :=
  match e with
  | Manager.IndexUpsert _ true => true
  | _ => false
  end.

Definition is_delete (e : Manager.Event) : bool :=
  match e with
  | Manager.IndexDelete _ true => true
  | _ => false
  end.

Definition stored_ids (s : Manager.State) : list Py.str :=
  map fst (map_to_list (Manager.index s)).

(** A matcher for the examples: the heading [Chapter 1] at the start of a
    text, found by the two chapter patterns, which [re.IGNORECASE] makes
    equal; nothing else. *)
Definition finditer (pattern : Rag.Pattern) (text : str) : list (nat * nat) :=
  match pattern with
  | Rag.EnglishChapter | Rag.EnglishChapterUpper =>
      if starts_with (lit "Chapter 1") text then [(0%nat, 9%nat)] else []
  | _ => []
  end.

(** A matcher for the unit headings of the examples: every [Unit d], one
    space and one digit, is a match of [Unit\s+\d+]. *)
Fixpoint units_from (offset : nat) (text : str) : list (nat * nat) :=
  match text with
  | [] => []
  | _ :: rest =>
      (if starts_with (lit "Unit ") text
          && match drop 5 text with
             | d :: _ => (48 <=? d)%N && (d <=? 57)%N
             | [] => false
             end
       then [(offset, (offset + 6)%nat)] else [])
      ++ units_from (S offset) rest
  end.

Definition find_units (pattern : Rag.Pattern) (text : str) : list (nat * nat) :=
  match pattern with
  | Rag.EnglishUnit => units_from 0 text
  | _ => []
  end.

(** A substitution for pages that hold nothing to clean. *)
Definition re_sub (pattern : Ingest.CleanPattern) (repl text : str) : str := text.

(** A document with a blank page between two pages of text. *)
Definition three_pages : Ingest.Document :=
  Ingest.mkDocument [lit "First page."; lit "   "; lit "Third page."] true.

(** Two chapters: one of 360 words, which makes one chunk, and one of
    1200 words, which makes two. *)
Definition first_chapter_text : str :=
  concat (repeat (lit "Real numbers include rationals and irrationals. ") 60).

Definition second_chapter_text : str :=
  concat (repeat (lit "Every rational number is a ratio of integers. ") 150).

Definition two_chapters : list Rag.Chapter :=
  [Rag.mkChapter (lit "Chapter 1") 0 (length first_chapter_text) first_chapter_text;
   Rag.mkChapter (lit "Chapter 2") (length first_chapter_text)
     (length first_chapter_text + length second_chapter_text) second_chapter_text].

(** [str.lower] on the subjects of the examples, which are lower-case. *)
Definition lower (s : str) : str := s.

Definition embeddings_create (input : str) : option (list Q) := Some [0%Q].

Definition now (chapter_idx chunk_idx : nat) : str := lit "2025-01-01T00:00:00".

(** The state after the long chapter was ingested, with the OpenAI client
    not initialised. *)
Definition ingested_without_openai : Manager.State :=
  Manager.mkState false true true false false
    (Manager.chapter_metadata ingested) (Manager.index ingested)
    (Manager.history ingested).

End Demo.

(** * Properties *)

(** ** Words and whitespace *)

Section SplitFacts.
Import Py.

Lemma split_from_app_space (a b cur : str) :
  length (split_from cur (a ++ SP :: b))
  = (length (split_from cur a) + length (split_from [] b))%nat.
Proof.
  revert cur. induction a as [|c a IH]; intros cur; simpl.
  - destruct cur; simpl; reflexivity.
  - destruct (isspace c).
    + destruct cur; simpl; rewrite IH; reflexivity.
    + apply IH.
Qed.

Lemma word_count_app_space (a b : str) :
  word_count (a ++ [SP] ++ b) = word_count a + word_count b.
Proof.
  unfold word_count, split. simpl. rewrite split_from_app_space. lia.
Qed.

Lemma word_count_nonneg (s : str) : 0 <= word_count s.
Proof. unfold word_count. lia. Qed.

Lemma split_lstrip (s : str) : split (lstrip s) = split s.
Proof.
  unfold split. induction s as [|c s IH]; simpl; [reflexivity|].
  destruct (isspace c) eqn:E; [exact IH|]. simpl. rewrite E. reflexivity.
Qed.

Lemma split_from_app_blank (s ws cur : str) :
  forallb isspace ws = true -> split_from cur (s ++ ws) = split_from cur s.
Proof.
  intros Hws. revert cur. induction s as [|c s IH]; intros cur; simpl.
  - revert cur. induction ws as [|w ws IHw]; intros cur; simpl; [reflexivity|].
    simpl in Hws. apply andb_prop in Hws as [Hw Hws]. rewrite Hw.
    destruct cur; rewrite (IHw Hws); reflexivity.
  - destruct (isspace c); [|apply IH].
    destruct cur; rewrite IH; reflexivity.
Qed.

Lemma lstrip_decompose (s : str) :
  exists ws, s = ws ++ lstrip s /\ forallb isspace ws = true.
Proof.
  induction s as [|c s (ws & Heq & Hws)]; simpl.
  - exists []. split; reflexivity.
  - destruct (isspace c) eqn:E.
    + exists (c :: ws). simpl. rewrite E, Hws. split; [congruence|reflexivity].
    + exists []. split; reflexivity.
Qed.

Lemma rstrip_decompose (s : str) :
  exists ws, s = rstrip s ++ ws /\ forallb isspace ws = true.
Proof.
  unfold rstrip. destruct (lstrip_decompose (rev s)) as (ws & Heq & Hws).
  exists (rev ws). split.
  - rewrite <- rev_app_distr, <- Heq, rev_involutive. reflexivity.
  - rewrite forallb_forall in *. intros x Hx. apply Hws. apply in_rev. exact Hx.
Qed.

Lemma split_rstrip (s : str) : split (rstrip s) = split s.
Proof.
  destruct (rstrip_decompose s) as (ws & Heq & Hws).
  unfold split. rewrite Heq at 2. symmetry. apply split_from_app_blank. exact Hws.
Qed.

Lemma word_count_strip (s : str) : word_count (strip s) = word_count s.
Proof.
  unfold word_count, strip. rewrite split_rstrip, split_lstrip. reflexivity.
Qed.

End SplitFacts.

(** ** The chunker *)

Section ChunkerFacts.
Import Py Rag.
Variable sent_tokenize : str -> list str.

Lemma Forall_snoc {A} (P : A -> Prop) (l : list A) (x : A) :
  Forall P l -> P x -> Forall P (l ++ [x]).
Proof. intros Hl Hx. apply Forall_app. split; [exact Hl | constructor; [exact Hx | constructor]]. Qed.

Lemma Forall_removelast {A} (P : A -> Prop) (l : list A) :
  Forall P l -> Forall P (removelast l).
Proof.
  induction 1 as [|x l Hx Hl IH]; simpl; [constructor|].
  destruct l; [constructor | constructor; assumption].
Qed.

Lemma append_to_last_Forall (P : str -> Prop) (chunks : list str) (cur : str) :
  Forall P chunks -> (forall c, P c -> P (c ++ [SP] ++ cur)) ->
  Forall P (append_to_last chunks cur).
Proof.
  intros Hall Hext. induction Hall as [|c l Hc Hl IH]; simpl; [constructor|].
  destruct l as [|c' l'].
  - constructor; [apply Hext, Hc | constructor].
  - constructor; [exact Hc | exact IH].
Qed.

Lemma removelast_cons {A} (x : A) (l : list A) :
  l <> [] -> removelast (x :: l) = x :: removelast l.
Proof. destruct l; [congruence | reflexivity]. Qed.

Lemma append_to_last_nonempty (chunks : list str) (cur : str) :
  chunks <> [] -> append_to_last chunks cur <> [].
Proof.
  destruct chunks as [|c [|c' l]]; [congruence | discriminate | discriminate].
Qed.

Lemma removelast_append_to_last (chunks : list str) (cur : str) :
  removelast (append_to_last chunks cur) = removelast chunks.
Proof.
  induction chunks as [|c l IH]; [reflexivity|].
  destruct l as [|c' l']; [reflexivity|].
  change (append_to_last (c :: c' :: l') cur)
    with (c :: append_to_last (c' :: l') cur).
  rewrite removelast_cons by (apply append_to_last_nonempty; discriminate).
  rewrite IH. symmetry. apply removelast_cons. discriminate.
Qed.

(** Every chunk flushed by the loop holds at least [min_chunk_size] words. *)
Lemma pack_sentences_min (mn mx : Z) (sentences chunks : list str) (current : str) :
  mn <= mx ->
  Forall (fun c => mn <= word_count c) chunks ->
  Forall (fun c => mn <= word_count c)
    (fst (pack_sentences mn mx sentences chunks current)).
Proof.
  intros Hle. revert chunks current.
  induction sentences as [|s rest IH]; intros chunks current Hall; simpl; [exact Hall|].
  set (potential := potential_chunk current s).
  destruct (word_count potential <=? mx) eqn:E1; [apply IH, Hall|].
  destruct (mn <=? word_count current) eqn:E2.
  - apply IH, Forall_snoc; [exact Hall|]. rewrite word_count_strip. lia.
  - destruct (2 * word_count potential >? 3 * mx) eqn:E3; [|apply IH, Hall].
    apply IH, Forall_snoc; [exact Hall|]. rewrite word_count_strip. lia.
Qed.

(** When no sentence is long enough to push a buffer under the minimum
    past the maximum, every flushed chunk and the buffer stay within
    [max_chunk_size]. *)
Lemma pack_sentences_max (mn mx : Z) (sentences chunks : list str) (current : str) :
  (forall s, In s sentences -> word_count s <= mx /\ word_count s + mn <= mx + 1) ->
  Forall (fun c => word_count c <= mx) chunks ->
  current = [] \/ word_count current <= mx ->
  Forall (fun c => word_count c <= mx)
    (fst (pack_sentences mn mx sentences chunks current))
  /\ (snd (pack_sentences mn mx sentences chunks current) = []
      \/ word_count (snd (pack_sentences mn mx sentences chunks current)) <= mx).
Proof.
  revert chunks current.
  induction sentences as [|s rest IH]; intros chunks current Hs Hall Hcur; simpl.
  { split; assumption. }
  assert (Hrest : forall s', In s' rest ->
            word_count s' <= mx /\ word_count s' + mn <= mx + 1)
    by (intros s' Hin; apply Hs; right; exact Hin).
  destruct (Hs s (or_introl eq_refl)) as [Hs1 Hs2].
  set (potential := potential_chunk current s).
  assert (Hpot : word_count potential
                 = if bool_decide (current = []) then word_count s
                   else word_count current + word_count s).
  { subst potential. destruct current as [|c cs]; [reflexivity|].
    rewrite bool_decide_eq_false_2 by discriminate.
    apply (word_count_app_space (c :: cs) s). }
  destruct (word_count potential <=? mx) eqn:E1.
  { apply IH; [exact Hrest | exact Hall | right; lia]. }
  destruct (mn <=? word_count current) eqn:E2.
  - apply IH; [exact Hrest | | right; exact Hs1].
    apply Forall_snoc; [exact Hall|]. rewrite word_count_strip.
    destruct Hcur as [-> | Hcur]; [|exact Hcur].
    rewrite bool_decide_eq_true_2 in Hpot by reflexivity. lia.
  - exfalso. case_bool_decide; lia.
Qed.

(** C3 (amended).  For [min_chunk_size <= max_chunk_size], every chunk
    returned by [chunk_text], the last one included, holds at least
    [min_chunk_size] words; and every chunk except the last holds at most
    [max_chunk_size] words provided each sentence of the text has at most
    [max_chunk_size] and at most [max_chunk_size - min_chunk_size + 1]
    words. *)
Theorem chunk_text_sizes (text : str) (min_chunk_size max_chunk_size : Z) :
  min_chunk_size <= max_chunk_size ->
  Forall (fun c => min_chunk_size <= word_count c)
    (chunk_text sent_tokenize text min_chunk_size max_chunk_size)
  /\ ((forall s, In s (sent_tokenize text) ->
         word_count s <= max_chunk_size
         /\ word_count s + min_chunk_size <= max_chunk_size + 1) ->
      Forall (fun c => word_count c <= max_chunk_size)
        (removelast (chunk_text sent_tokenize text min_chunk_size max_chunk_size))).
Proof.
  intros Hle. unfold chunk_text.
  pose proof (pack_sentences_min min_chunk_size max_chunk_size
                (sent_tokenize text) [] [] Hle (Forall_nil_2 _)) as Hmin.
  pose proof (pack_sentences_max min_chunk_size max_chunk_size
                (sent_tokenize text) [] []) as Hmax.
  destruct (pack_sentences min_chunk_size max_chunk_size (sent_tokenize text) [] [])
    as [chunks current]. simpl in Hmin, Hmax.
  split.
  - destruct current as [|c cs]; [exact Hmin|].
    destruct (min_chunk_size <=? word_count (c :: cs)) eqn:E.
    + apply Forall_snoc; [exact Hmin|]. rewrite word_count_strip. lia.
    + destruct chunks as [|k ks]; [constructor|].
      apply append_to_last_Forall; [exact Hmin|].
      intros x Hx. rewrite word_count_app_space.
      pose proof (word_count_nonneg (c :: cs)). lia.
  - intros Hs. destruct (Hmax Hs (Forall_nil_2 _) (or_introl eq_refl)) as [Hall _].
    destruct current as [|c cs]; [apply Forall_removelast, Hall|].
    destruct (min_chunk_size <=? word_count (c :: cs)).
    + rewrite removelast_last. exact Hall.
    + destruct chunks as [|k ks]; [constructor|].
      rewrite removelast_append_to_last. apply Forall_removelast, Hall.
Qed.

End ChunkerFacts.

Lemma chunk_text_sizes_witness :
  2 <= 4
  /\ Forall (fun c => 2 <= Py.word_count c)
       (Rag.chunk_text Demo.sent_tokenize
          (Py.lit "Real numbers include rationals. Irrationals are real too. End.") 2 4).
Proof.
  split; [lia|].
  apply (chunk_text_sizes Demo.sent_tokenize
           (Py.lit "Real numbers include rationals. Irrationals are real too. End.")
           2 4); lia.
Defined.

(** C3 as stated fails: with [min_chunk_size = max_chunk_size = 4], a text
    of two five-word sentences gives two chunks, and the first one, which
    is not the last, holds five words. *)
Lemma chunk_text_exceeds_max :
  let chunks := Rag.chunk_text Demo.sent_tokenize
                  (Py.lit "One two three four five. Six seven eight nine ten.") 4 4 in
  4 <= 4
  /\ chunks = [Py.lit "One two three four five."; Py.lit "Six seven eight nine ten."]
  /\ ~ Forall (fun c => 4 <= Py.word_count c <= 4) (removelast chunks).
Proof.
  split; [lia|]. split; [vm_compute; reflexivity|].
  intros H. apply Forall_inv in H. destruct H as [_ Hc].
  vm_compute in Hc. apply Hc. reflexivity.
Qed.

(** ** The chapter segmenter *)

Section SegmenterFacts.
Import Py Rag.
Variable finditer : Pattern -> str -> list (nat * nat).

Definition starts_le (a b : Heading) : Prop := (h_start a <= h_start b)%nat.

Lemma insert_by_start_perm (h : Heading) (l : list Heading) :
  insert_by_start h l ≡ₚ h :: l.
Proof.
  induction l as [|x l IH]; simpl; [reflexivity|].
  destruct (h_start h <=? h_start x)%nat; [reflexivity|].
  rewrite IH. apply Permutation_swap.
Qed.

Lemma sort_by_start_perm (l : list Heading) : sort_by_start l ≡ₚ l.
Proof.
  induction l as [|h l IH]; simpl; [reflexivity|].
  rewrite insert_by_start_perm, IH. reflexivity.
Qed.

Lemma insert_by_start_sorted (h : Heading) (l : list Heading) :
  StronglySorted starts_le l -> StronglySorted starts_le (insert_by_start h l).
Proof.
  induction 1 as [|x l Hl IH Hx]; simpl.
  - repeat constructor.
  - destruct (h_start h <=? h_start x)%nat eqn:E.
    + apply Nat.leb_le in E. constructor; [constructor; assumption|].
      constructor; [exact E|].
      eapply Forall_impl; [exact Hx|]. intros y Hy. unfold starts_le in *. lia.
    + apply Nat.leb_gt in E. constructor; [exact IH|].
      rewrite insert_by_start_perm. constructor; [|exact Hx].
      unfold starts_le. lia.
Qed.

Lemma sort_by_start_sorted (l : list Heading) :
  StronglySorted starts_le (sort_by_start l).
Proof.
  induction l as [|h l IH]; simpl; [constructor|].
  apply insert_by_start_sorted, IH.
Qed.

Lemma find_headings_nil (text : str) :
  (forall pattern, finditer pattern text = []) -> find_headings finditer text = [].
Proof.
  intros Hnone. unfold find_headings, all_patterns, bengali_patterns, english_patterns.
  simpl. rewrite !Hnone. reflexivity.
Qed.

(** The matches of the seven patterns as [re.finditer] reports them, in
    the order in which [detect_chapters] collects them. *)
Definition pattern_matches (text : str) : list (nat * nat) :=
  flat_map (fun pattern => finditer pattern text)
    [BengaliChapter; BengaliLesson; BengaliChapterDigits;
     EnglishChapter; EnglishChapterUpper; EnglishUnit; EnglishLesson].

(** The title taken for a match: the first line of the text from 50
    characters before the match to 100 after it, stripped. *)
Definition title_at (text : str) (m : nat * nat) : str :=
  strip (first_line (slice text (fst m - 50) (snd m + 100))).

Lemma find_headings_matches (text : str) :
  find_headings finditer text = map (heading_of text) (pattern_matches text).
Proof.
  unfold find_headings, pattern_matches, all_patterns, bengali_patterns, english_patterns.
  cbn [app flat_map]. rewrite !app_nil_r, !map_app. reflexivity.
Qed.

Lemma chapters_of_lookup (text : str) (chapter_matches : list Heading) (i : nat)
    (c : Chapter) :
  chapters_of text chapter_matches !! i = Some c ->
  exists m, chapter_matches !! i = Some m
    /\ start_pos c = h_start m
    /\ title c = strip (full_line m)
    /\ end_pos c = match chapters_of text chapter_matches !! S i with
                   | Some next => start_pos next
                   | None => length text
                   end
    /\ content c = strip (slice text (start_pos c) (end_pos c)).
Proof.
  unfold chapters_of. rewrite !list_lookup_imap.
  destruct (chapter_matches !! i) as [m|] eqn:Hm; [|discriminate].
  cbn [fmap option_fmap option_map]. intros [= <-]. exists m.
  split; [reflexivity|]. cbn [start_pos title end_pos content].
  destruct (chapter_matches !! S i) as [next|]; repeat split; reflexivity.
Qed.

Lemma chapters_of_starts (text : str) (chapter_matches : list Heading) :
  map (fun c => (start_pos c, title c)) (chapters_of text chapter_matches)
  = map (fun m => (h_start m, strip (full_line m))) chapter_matches.
Proof.
  apply list_eq. intros i. unfold chapters_of.
  rewrite !list_lookup_fmap, list_lookup_imap.
  destruct (chapter_matches !! i); reflexivity.
Qed.

Lemma sorted_starts (l : list Heading) :
  StronglySorted starts_le l -> StronglySorted le (map h_start l).
Proof.
  induction 1 as [|x l Hl IH Hx]; cbn [map]; constructor; [exact IH|].
  apply Forall_fmap. exact Hx.
Qed.

(** C8 (amended).  When a pattern matches, [detect_chapters] returns one
    segment per match reported by [re.finditer] for the seven patterns:
    the segments, taken with their start offset and title, are a
    rearrangement of the matches, each taken with its start offset and
    the title read around it, and they are in ascending order of start.
    Segment [i] ends where segment [i+1] starts, the last one at
    [len(text)], and its content is the text between its start and its
    end with the surrounding whitespace stripped.  When no pattern
    matches, the result is the single segment from [0] to [len(text)]
    whose content is the whole text, not stripped, under the generic
    title. *)
Theorem detect_chapters_boundaries (text : str) (subject : option str) :
  let found := pattern_matches text in
  let chapters := detect_chapters finditer text subject in
  (found <> [] ->
   map (fun c => (start_pos c, title c)) chapters
   ≡ₚ map (fun m => (fst m, title_at text m)) found
   /\ StronglySorted le (map start_pos chapters)
   /\ forall i c, chapters !! i = Some c ->
        end_pos c = match chapters !! S i with
                    | Some next => start_pos next
                    | None => length text
                    end
        /\ content c = strip (slice text (start_pos c) (end_pos c)))
  /\ (found = [] ->
      chapters = [mkChapter (generic_title subject) 0 (length text) text]).
Proof.
  intros found chapters. subst chapters. unfold detect_chapters.
  rewrite find_headings_matches. fold found.
  pose proof (sort_by_start_perm (map (heading_of text) found)) as Hperm.
  pose proof (sort_by_start_sorted (map (heading_of text) found)) as Hsorted.
  destruct (sort_by_start (map (heading_of text) found)) as [|m0 ms] eqn:E.
  - apply Permutation_nil_l in Hperm. symmetry in Hperm. apply fmap_nil_inv in Hperm.
    split; [intros Hne; congruence | intros _; reflexivity].
  - split; [intros _ | intros Hnil; rewrite Hnil in Hperm;
                       apply Permutation_nil_r in Hperm; discriminate].
    split; [|split].
    + rewrite chapters_of_starts, Hperm, <- list_fmap_compose. reflexivity.
    + replace (map start_pos (chapters_of text (m0 :: ms)))
        with (map h_start (m0 :: ms)); [apply sorted_starts, Hsorted|].
      pose proof (f_equal (map fst) (chapters_of_starts text (m0 :: ms))) as Hst.
      rewrite <- !list_fmap_compose in Hst. symmetry. exact Hst.
    + intros i c Hc.
      destruct (chapters_of_lookup text (m0 :: ms) i c Hc) as (m & _ & _ & _ & He & Hcont).
      split; [exact He | exact Hcont].
Qed.

End SegmenterFacts.

(** C8 as stated fails: the content of a segment is not the span from its
    start to the next start.  With the headings [Unit 1] and [Unit 2], the
    first segment runs from offset 0 to offset 13 and its content is the
    twelve characters before the space that ends the span. *)
Lemma segment_content_is_stripped :
  let text := Py.lit "Unit 1 Sets. Unit 2 Logic." in
  let chapters := Rag.detect_chapters Demo.find_units text None in
  map Rag.start_pos chapters = [0; 13]%nat
  /\ map Rag.end_pos chapters = [13; 26]%nat
  /\ map Rag.content chapters = [Py.lit "Unit 1 Sets."; Py.lit "Unit 2 Logic."]
  /\ Py.slice text 0 13 = Py.lit "Unit 1 Sets. "
  /\ exists c, chapters !! 0%nat = Some c
       /\ Rag.content c <> Py.slice text (Rag.start_pos c) (Rag.end_pos c).
Proof.
  cbv zeta. split; [vm_compute; reflexivity|]. split; [vm_compute; reflexivity|].
  split; [vm_compute; reflexivity|]. split; [vm_compute; reflexivity|].
  eexists. split; [vm_compute; reflexivity|]. vm_compute. discriminate.
Qed.

(** ** The answer composer *)

Section AnswerFacts.
Import Py Rag.
Variable client : Clients.
Variable float_sum : list Q -> Q.
Variable float_div : Q -> nat -> Q.

Definition is_chat_call (c : Call) : bool :=
  match c with
  | ChatCall _ _ => true
  | _ => false
  end.

Lemma search_makes_no_chat_call (query class_level : str)
    (subject chapter : option str) (top_k : nat) :
  forallb (fun c => negb (is_chat_call c))
    (snd (search_relevant_chunks client query class_level subject chapter top_k)) = true.
Proof.
  unfold search_relevant_chunks.
  destruct (embeddings_create client query); [|reflexivity].
  destruct (index_query client _ _ _); reflexivity.
Qed.


End AnswerFacts.


Example not_covered_answer_text :
  Rag.not_covered_answer (Py.lit "9") (Some (Py.lit "Mathematics"))
  = Py.lit "This topic is not covered in your Class 9 Mathematics book. Do you want me to explain from general knowledge?".
Proof. vm_compute. reflexivity. Qed.

(** ** The class-level gate *)

Section CatalogueFacts.
Import Py Manager.

Lemma no_chapters_outside_9_10 (class_level : Z) :
  class_level <> 9 -> class_level <> 10 -> get_chapters_for_class class_level = [].
Proof.
  intros H9 H10. unfold get_chapters_for_class.
  destruct (Z.eqb_spec class_level 9); [contradiction|].
  destruct (Z.eqb_spec class_level 10); [contradiction|]. reflexivity.
Qed.

Lemma keys_filter {V} (f : str * V -> bool) (d : list (str * V)) (k : str) :
  k ∈ keys (List.filter f d) <-> exists v, (k, v) ∈ d /\ f (k, v) = true.
Proof.
  unfold keys. rewrite list_elem_of_fmap. split.
  - intros ([k' v] & -> & Hin). apply list_elem_of_In, filter_In in Hin as [Hin Hf].
    exists v. split; [apply list_elem_of_In, Hin | exact Hf].
  - intros (v & Hin & Hf). exists (k, v). split; [reflexivity|].
    apply list_elem_of_In, filter_In. split; [apply list_elem_of_In, Hin | exact Hf].
Qed.

Lemma keys_elem {V} (d : list (str * V)) (k : str) :
  k ∈ keys d <-> exists v, (k, v) ∈ d.
Proof.
  unfold keys. rewrite list_elem_of_fmap. split.
  - intros ([k' v] & -> & Hin). exists v. exact Hin.
  - intros (v & Hin). exists (k, v). split; [reflexivity | exact Hin].
Qed.

Lemma invalid_chapter_rejected (svc : Services) (file : list N) (class_level : Z)
    (chapter_id : str) (force_reupload : bool) (s : State) :
  is_valid_chapter_for_class chapter_id class_level = false ->
  upload_chapter_pdf svc file class_level chapter_id force_reupload s
  = (Ok (InvalidChapter (keys (get_chapters_for_class class_level))), s).
Proof.
  intros Hinv. unfold upload_chapter_pdf, upload_body, bind, attempt, ret.
  rewrite Hinv. reflexivity.
Qed.

(** C10.  For a class level other than 9 and 10 the catalogue is empty,
    no chapter id is valid, and the upload is rejected with the state
    untouched: nothing was saved, embedded or written.  Class 9 sees
    exactly the chapters whose id does not contain [advanced]; class 10
    sees the whole catalogue. *)
Theorem class_level_gate :
  (forall class_level, class_level <> 9 -> class_level <> 10 ->
     get_chapters_for_class class_level = []
     /\ forall chapter_id,
          is_valid_chapter_for_class chapter_id class_level = false
          /\ forall svc file force_reupload s,
               upload_chapter_pdf svc file class_level chapter_id force_reupload s
               = (Ok (InvalidChapter []), s)
               /\ success (InvalidChapter []) = false)
  /\ (forall chapter_id,
        is_valid_chapter_for_class chapter_id 9 = true
        <-> chapter_id ∈ keys NCTB_CHAPTERS
            /\ contains (lit "advanced") chapter_id = false)
  /\ get_chapters_for_class 10 = NCTB_CHAPTERS
  /\ is_valid_chapter_for_class (lit "real_numbers_advanced") 9 = false
  /\ is_valid_chapter_for_class (lit "real_numbers_advanced") 10 = true.
Proof.
  split; [|split; [|split; [reflexivity | split; vm_compute; reflexivity]]].
  - intros class_level H9 H10.
    pose proof (no_chapters_outside_9_10 class_level H9 H10) as Hnone.
    split; [exact Hnone|]. intros chapter_id.
    assert (Hinv : is_valid_chapter_for_class chapter_id class_level = false).
    { unfold is_valid_chapter_for_class. rewrite Hnone.
      apply bool_decide_eq_false_2. simpl. apply not_elem_of_nil. }
    split; [exact Hinv|]. intros svc file force_reupload s.
    split; [|reflexivity].
    rewrite (invalid_chapter_rejected svc file class_level chapter_id force_reupload s Hinv).
    rewrite Hnone. reflexivity.
  - intros chapter_id. unfold is_valid_chapter_for_class.
    rewrite bool_decide_eq_true.
    change (get_chapters_for_class 9)
      with (List.filter (fun kv : str * ChapterInfo =>
                           negb (contains (lit "advanced") (fst kv))) NCTB_CHAPTERS).
    rewrite keys_filter, keys_elem. cbn [fst]. split.
    + intros (v & Hin & Hf). split; [exists v; exact Hin | apply negb_true_iff, Hf].
    + intros [[v Hin] Hf]. exists v. split; [exact Hin | apply negb_true_iff, Hf].
Qed.

End CatalogueFacts.

Example class_9_chapters :
  Manager.keys (Manager.get_chapters_for_class 9)
  = map Py.lit
      ["real_numbers"; "sets_functions"; "algebraic_expressions"; "indices_logarithms";
       "linear_equations"; "lines_angles_triangles"; "practical_geometry"; "circles";
       "trigonometric_ratios"; "distance_height"; "algebraic_ratios";
       "simultaneous_equations"; "finite_series"; "ratio_similarity_symmetry";
       "area_theorems"; "mensuration"; "statistics"]%string.
Proof. vm_compute. reflexivity. Qed.

(** ** Text extraction *)

Section ExtractionFacts.
Import Py Manager.

Lemma omap_lookup_seq {A} (l : list A) (i k : nat) :
  (i + k <= length l)%nat ->
  omap (fun n => l !! n) (seq i k) = take k (drop i l).
Proof.
  revert i. induction k as [|k IH]; intros i Hle; simpl; [reflexivity|].
  destruct (lookup_lt_is_Some_2 l i ltac:(lia)) as [x Hx].
  rewrite Hx, (drop_S l x i Hx). simpl. rewrite IH by lia. reflexivity.
Qed.

Lemma page_texts_take (doc : list str) : page_texts doc = take max_pages doc.
Proof.
  unfold page_texts. rewrite omap_lookup_seq by lia. rewrite drop_0.
  destruct (Nat.min_spec (length doc) max_pages) as [[Hlt ->] | [Hge ->]];
    [|reflexivity].
  rewrite !take_ge by lia. reflexivity.
Qed.

Lemma chunks_of_pages_cap (doc : list str) (chunk_size overlap : Z) :
  chunks_of_pages doc chunk_size overlap
  = chunks_of_pages (take max_pages doc) chunk_size overlap.
Proof.
  unfold chunks_of_pages, text_pages. rewrite !page_texts_take, take_take.
  rewrite Nat.min_id. reflexivity.
Qed.


End ExtractionFacts.


(** ** What a computation may change

    [related Q I Mt s s'] says that [s'] comes from [s] by external calls
    that all satisfy [Q], with the index changed within [I] and the
    metadata within [Mt]; the configuration of the manager is the same.
    A computation [preserves] the relation when every run of it does. *)

Section Frames.
Import Py Manager.
Variable svc : Services.
Variable Q : Event -> Prop.
Variable I : gmap str Vector -> gmap str Vector -> Prop.
Variable Mt : gmap str (gmap str ChapterMeta) -> gmap str (gmap str ChapterMeta) -> Prop.
Hypothesis I_refl : forall ix, I ix ix.
Hypothesis I_trans : forall a b c, I a b -> I b c -> I a c.
Hypothesis Mt_refl : forall md, Mt md md.
Hypothesis Mt_trans : forall a b c, Mt a b -> Mt b c -> Mt a c.

Definition same_config (s s' : State) : Prop :=
  openai_client s' = openai_client s
  /\ pinecone_client s' = pinecone_client s
  /\ index_handle s' = index_handle s
  /\ firebase_initialized s' = firebase_initialized s
  /\ db s' = db s.

Definition related (s s' : State) : Prop :=
  same_config s s'
  /\ (exists new, history s' = new ++ history s /\ Forall Q new)
  /\ I (index s) (index s')
  /\ Mt (chapter_metadata s) (chapter_metadata s').

Definition preserves {A} (m : M A) : Prop :=
  forall s r s', m s = (r, s') -> related s s'.

Lemma related_refl (s : State) : related s s.
Proof using I_refl Mt_refl.
  repeat split; try reflexivity; [|apply I_refl | apply Mt_refl].
  exists []. split; [reflexivity | constructor].
Qed.

Lemma related_trans (a b c : State) : related a b -> related b c -> related a c.
Proof using I_trans Mt_trans.
  intros ((c1 & c2 & c3 & c4 & c5) & (n1 & Hh1 & Hq1) & Hi1 & Hm1)
         ((d1 & d2 & d3 & d4 & d5) & (n2 & Hh2 & Hq2) & Hi2 & Hm2).
  split; [repeat split; congruence|].
  split; [|split; [eapply I_trans | eapply Mt_trans]; eassumption].
  exists (n2 ++ n1). split.
  - rewrite Hh2, Hh1, app_assoc. reflexivity.
  - apply Forall_app. split; assumption.
Qed.

Lemma related_log (e : Event) (s : State) : Q e -> related s (log e s).
Proof using I_refl Mt_refl.
  intros He. repeat split; try reflexivity; [|apply I_refl | apply Mt_refl].
  exists [e]. split; [reflexivity | repeat constructor; exact He].
Qed.

Lemma related_set_index (ix : gmap str Vector) (s : State) :
  I (index s) ix -> related s (set_index ix s).
Proof using Mt_refl.
  intros Hix. repeat split; try reflexivity; [|exact Hix | apply Mt_refl].
  exists []. split; [reflexivity | constructor].
Qed.

Lemma related_set_metadata (md : gmap str (gmap str ChapterMeta)) (s : State) :
  Mt (chapter_metadata s) md -> related s (set_chapter_metadata md s).
Proof using I_refl.
  intros Hmd. repeat split; try reflexivity; [|apply I_refl | exact Hmd].
  exists []. split; [reflexivity | constructor].
Qed.

Lemma preserves_ret {A} (a : A) : preserves (ret a).
Proof using I_refl Mt_refl. intros s r s' [= <- <-]. apply related_refl. Qed.

Lemma preserves_raise {A} : preserves (@raise A).
Proof using I_refl Mt_refl. intros s r s' [= <- <-]. apply related_refl. Qed.

Lemma preserves_get : preserves get.
Proof using I_refl Mt_refl. intros s r s' [= <- <-]. apply related_refl. Qed.

Lemma preserves_bind {A B} (m : M A) (k : A -> M B) :
  preserves m -> (forall a, preserves (k a)) -> preserves (bind m k).
Proof using I_trans Mt_trans.
  intros Hm Hk s r s'. unfold bind.
  destruct (m s) as [[a|] s1] eqn:E; intros Hrun.
  - eapply related_trans; [eapply Hm, E | eapply Hk, Hrun].
  - injection Hrun as <- <-. eapply Hm, E.
Qed.

Lemma preserves_attempt {A} (m : M A) : preserves m -> preserves (attempt m).
Proof.
  intros Hm s r s'. unfold attempt.
  destruct (m s) as [[a|] s1] eqn:E; intros [= <- <-]; eapply Hm, E.
Qed.

Lemma preserves_modify (f : State -> State) :
  (forall s, related s (f s)) -> preserves (modify f).
Proof. intros Hf s r s' [= <- <-]. apply Hf. Qed.

Lemma preserves_log (e : Event) : Q e -> preserves (modify (log e)).
Proof using I_refl Mt_refl. intros He s r s' [= <- <-]. apply related_log, He. Qed.

Lemma preserves_call (okf : list Event -> bool) (e : bool -> Event) :
  (forall b, Q (e b)) -> preserves (call okf e).
Proof using I_refl Mt_refl.
  intros He s r s'. unfold call. intros [= <- <-]. apply related_log, He.
Qed.

Lemma preserves_utcnow : preserves (utcnow svc).
Proof using I_refl Mt_refl. intros s r s' [= <- <-]. apply related_refl. Qed.

Lemma preserves_embedding_create (i : nat) (input : str) :
  (forall b, Q (EmbeddingCreate i input b)) ->
  preserves (openai_embedding_create svc i input).
Proof using I_refl Mt_refl.
  intros He s r s'. unfold openai_embedding_create.
  destruct (embedding_create svc (history s) input); intros [= <- <-];
    apply related_log, He.
Qed.

Lemma preserves_index_query (top_k : nat) (flt : VecMeta -> bool) :
  (forall b, Q (IndexQuery top_k b)) -> preserves (index_query svc top_k flt).
Proof using I_refl Mt_refl.
  intros He s r s'. unfold index_query.
  destruct (index_handle s); simpl; [|intros [= <- <-]; apply related_refl].
  destruct (query_ok svc (history s)); intros [= <- <-]; apply related_log, He.
Qed.

Lemma preserves_index_delete (ids : list str) :
  (forall b, Q (IndexDelete ids b)) ->
  (forall ix, I ix (foldr delete ix ids)) ->
  preserves (index_delete svc ids).
Proof using I_refl I_trans Mt_refl Mt_trans.
  intros He Hix s r s'. unfold index_delete.
  destruct (index_handle s); simpl; [|intros [= <- <-]; apply related_refl].
  destruct (delete_ok svc (history s)); intros [= <- <-]; [|apply related_log, He].
  eapply related_trans; [apply related_set_index, Hix | apply related_log, He].
Qed.

Lemma preserves_index_upsert (vectors : list Vector) :
  (forall b, Q (IndexUpsert (map vec_id vectors) b)) ->
  (forall ix, I ix (foldl (fun ix v => <[vec_id v := v]> ix) ix vectors)) ->
  preserves (index_upsert svc vectors).
Proof using I_refl I_trans Mt_refl Mt_trans.
  intros He Hix s r s'. unfold index_upsert.
  destruct (index_handle s); simpl; [|intros [= <- <-]; apply related_refl].
  destruct (upsert_ok svc (history s)); intros [= <- <-]; [|apply related_log, He].
  eapply related_trans; [apply related_set_index, Hix | apply related_log, He].
Qed.

Lemma preserves_calculate_file_hash (file : list N) :
  (forall b, Q (HashRead b)) -> preserves (calculate_file_hash svc file).
Proof using I_refl Mt_refl.
  intros He s r s'. unfold calculate_file_hash.
  destruct (temp_readable svc (history s)); intros [= <- <-]; apply related_log, He.
Qed.

Lemma preserves_publish (path : str) :
  (forall o, Q (AdminUpload path o)) -> (forall b, Q (SignedUpload path b)) ->
  preserves (publish svc path).
Proof using I_refl I_trans Mt_refl Mt_trans.
  intros Ha Hs s r s'. unfold publish.
  destruct (admin_upload svc (history s) path) eqn:E;
    [intros [= <- <-]; apply related_log, Ha | | intros [= <- <-]; apply related_log, Ha].
  destruct (signed_upload svc _ path); intros [= <- <-];
    (eapply related_trans; [apply related_log, Ha | apply related_log, Hs]).
Qed.

Lemma preserves_firestore_write (doc_id : str) :
  (forall b, Q (FirestoreWrite doc_id b)) -> preserves (firestore_write svc doc_id).
Proof using I_refl Mt_refl.
  intros He s r s' [= <- <-]. apply related_log, He.
Qed.

Lemma preserves_local_file_exists (path : str) :
  (forall b, Q (PathExists b)) -> preserves (local_file_exists svc path).
Proof using I_refl Mt_refl.
  intros He s r s' [= <- <-]. apply related_log, He.
Qed.

Lemma preserves_store_metadata (key chapter_id : str) (m : ChapterMeta) :
  (forall md, Mt md (<[key := <[chapter_id := m]> (default ∅ (md !! key))]> md)) ->
  preserves (modify (store_metadata key chapter_id m)).
Proof using I_refl.
  intros Hmd s r s' [= <- <-]. apply related_set_metadata, Hmd.
Qed.

(** The same for the methods, by the shape of their code. *)

Ltac frame :=
  repeat first
    [ apply preserves_ret | apply preserves_raise | apply preserves_get
    | apply preserves_utcnow
    | apply preserves_attempt
    | apply preserves_bind; [| intros ?]
    | apply preserves_log; solve [auto]
    | apply preserves_call; solve [auto]
    | apply preserves_embedding_create; solve [auto]
    | apply preserves_index_query; solve [auto]
    | apply preserves_index_delete; solve [auto]
    | apply preserves_index_upsert; solve [auto]
    | apply preserves_calculate_file_hash; solve [auto]
    | apply preserves_publish; solve [auto]
    | apply preserves_firestore_write; solve [auto]
    | apply preserves_local_file_exists; solve [auto]
    | apply preserves_store_metadata; solve [auto]
    | match goal with
      | |- preserves (if ?b then _ else _) => destruct b
      | |- preserves (match ?x with _ => _ end) => destruct x
      | |- preserves (let _ := _ in _) => cbv zeta
      end ].

Section Compound.
Variable class_level : Z.
Variable chapter_id : str.

Hypothesis Q_embedding : forall i input b, Q (EmbeddingCreate i input b).
Hypothesis Q_upsert : forall ids b, Q (IndexUpsert ids b).
Hypothesis I_upsert :
  forall ix vectors, I ix (foldl (fun ix v => <[vec_id v := v]> ix) ix vectors).

Lemma preserves_embed_chunks (rest : list str) :
  forall i vectors, preserves (embed_chunks svc class_level chapter_id i rest vectors).
Proof using All.
  induction rest as [|chunk rest IH]; intros i vectors; cbn [embed_chunks]; frame; apply IH.
Qed.

Lemma preserves_create_embeddings (text_chunks : list str) :
  preserves (create_embeddings svc text_chunks class_level chapter_id).
Proof using All.
  unfold create_embeddings. frame. apply preserves_embed_chunks.
Qed.

End Compound.

Lemma preserves_extract_text_chunks (pdf : list N) :
  (forall b, Q (PdfOpen b)) -> preserves (extract_text_chunks svc pdf).
Proof using I_refl I_trans Mt_refl Mt_trans.
  intros HQ. unfold extract_text_chunks, extract_text_chunks_with. frame.
Qed.

Lemma preserves_check_chapter_exists (class_level : Z) (chapter_id : str) :
  (forall b, Q (IndexQuery 1 b)) ->
  preserves (check_chapter_exists_in_pinecone svc class_level chapter_id).
Proof using I_refl I_trans Mt_refl Mt_trans.
  intros HQ. unfold check_chapter_exists_in_pinecone. frame.
Qed.

Lemma preserves_delete_existing (class_level : Z) (chapter_id : str) :
  (forall b, Q (IndexQuery 100 b)) ->
  (forall ids b, Q (IndexDelete ids b)) ->
  (forall ix ids, I ix (foldr delete ix ids)) ->
  preserves (delete_existing_chapter_chunks svc class_level chapter_id).
Proof using I_refl I_trans Mt_refl Mt_trans.
  intros HQq HQd HI. unfold delete_existing_chapter_chunks.
  assert (Hloop : forall fuel all_ids,
            preserves (delete_batches svc fuel class_level chapter_id all_ids)).
  { induction fuel as [|fuel IH]; intros all_ids; cbn [delete_batches]; frame; apply IH. }
  frame; apply Hloop.
Qed.

Lemma preserves_skip_identical (class_level : Z) (chapter_id file_hash : str)
    (existing : option ChapterMeta) :
  (forall p b, Q (FileRemove p b)) -> (forall b, Q (PathExists b)) ->
  (forall p o, Q (AdminUpload p o)) -> (forall p b, Q (SignedUpload p b)) ->
  (forall d b, Q (FirestoreWrite d b)) -> Q MetadataSave ->
  (forall md url path m,
     existing = Some m ->
     Mt md (<[chapter_key_of class_level :=
                <[chapter_id := with_firebase url path m]>
                  (default ∅ (md !! chapter_key_of class_level))]> md)) ->
  preserves (skip_identical svc class_level chapter_id file_hash existing).
Proof using I_refl I_trans Mt_refl Mt_trans.
  intros H1 H2 H3 H4 H5 H6 HMt. unfold skip_identical, remove_file, save_metadata.
  destruct existing as [m|]; frame.
  all: apply preserves_store_metadata; intros md; apply HMt; reflexivity.
Qed.

End Frames.

Ltac side :=
  solve [ auto
        | intros; congruence
        | intros; match goal with
                  | H : forall e, _ -> ?Q e |- ?Q _ => apply H; exact Logic.I
                  end ].

Ltac changes :=
  repeat first
    [ simple apply preserves_extract_text_chunks; side
    | simple apply preserves_check_chapter_exists; side
    | simple apply preserves_delete_existing; side
    | simple apply preserves_create_embeddings; side
    | simple apply preserves_skip_identical; side
    | simple apply preserves_index_delete; side
    | simple apply preserves_index_query; side
    | simple apply preserves_index_upsert; side
    | simple apply preserves_embedding_create; side
    | simple apply preserves_calculate_file_hash; side
    | simple apply preserves_publish; side
    | simple apply preserves_firestore_write; side
    | simple apply preserves_local_file_exists; side
    | simple apply preserves_store_metadata; side
    | simple apply preserves_utcnow; side
    | simple apply preserves_log; side
    | simple apply preserves_call; side
    | simple apply preserves_ret; side
    | simple apply preserves_raise; side
    | simple apply preserves_get; side
    | simple apply preserves_attempt
    | simple apply preserves_bind; [side | side | | intros ?]
    | match goal with
      | |- preserves _ _ _ (if ?b then _ else _) => destruct b
      | |- preserves _ _ _ (match ?x with _ => _ end) => destruct x
      | |- preserves _ _ _ (let _ := _ in _) => cbv zeta
      end ].

(** ** Embedding and upsert of the chunks of a chapter *)

Section EmbeddingFacts.
Import Py Manager.
Variable svc : Services.
Variable class_level : Z.
Variable chapter_id : str.
Variable text_chunks : list str.
Variable s0 : State.

(** Chunk [j] was embedded successfully among the calls [new]. *)
Definition embedded (new : list Event) (j : nat) : Prop :=
  exists chunk, text_chunks !! j = Some chunk
    /\ EmbeddingCreate j (prefix chunk 1000) true ∈ new.

(** The vector of a chunk that was embedded successfully. *)
Definition vector_of_embedded (new : list Event) (v : Vector) : Prop :=
  exists j, embedded new j
    /\ vec_id v = chunk_id class_level chapter_id j
    /\ v_chunk_index (vec_metadata v) = j
    /\ v_class_level (vec_metadata v) = class_level
    /\ v_chapter_id (vec_metadata v) = chapter_id.

Definition embedding_event (e : Event) : Prop :=
  match e with
  | EmbeddingCreate _ _ _ | IndexUpsert _ _ => True
  | _ => False
  end.

(** What holds of a state reached while embedding, [new] being the calls
    made since [s0]. *)
Definition embedding_inv (s : State) (new : list Event) : Prop :=
  history s = new ++ history s0
  /\ same_config s0 s
  /\ chapter_metadata s = chapter_metadata s0
  /\ Forall embedding_event new
  /\ (forall ids b id, IndexUpsert ids b ∈ new -> id ∈ ids ->
        exists j, embedded new j /\ id = chunk_id class_level chapter_id j)
  /\ (forall k v, index s !! k = Some v ->
        index s0 !! k = Some v \/ (vec_id v = k /\ vector_of_embedded new v)).

Lemma embedded_mono (e : Event) (new : list Event) (j : nat) :
  embedded new j -> embedded (e :: new) j.
Proof. intros (chunk & Hj & Hin). exists chunk. split; [exact Hj | right; exact Hin]. Qed.

Lemma vector_of_embedded_mono (e : Event) (new : list Event) (v : Vector) :
  vector_of_embedded new v -> vector_of_embedded (e :: new) v.
Proof.
  intros (j & Hj & Hrest). exists j. split; [apply embedded_mono, Hj | exact Hrest].
Qed.

Lemma lookup_after_upsert (vectors : list Vector) (ix : gmap str Vector)
    (k : str) (v : Vector) :
  foldl (fun ix v => <[vec_id v := v]> ix) ix vectors !! k = Some v ->
  ix !! k = Some v \/ (v ∈ vectors /\ vec_id v = k).
Proof.
  revert ix. induction vectors as [|x vs IH]; intros ix; simpl; [left; assumption|].
  intros Hk. destruct (IH _ Hk) as [Hin | [Hin Hid]].
  - destruct (decide (vec_id x = k)) as [<- | Hne].
    + rewrite lookup_insert_eq in Hin. injection Hin as <-.
      right. split; [left | reflexivity].
    + rewrite lookup_insert_ne in Hin by exact Hne. left. exact Hin.
  - right. split; [right; exact Hin | exact Hid].
Qed.

(** A call that is not an upsert keeps the invariant. *)
Lemma embedding_inv_log (s : State) (new : list Event) (i : nat) (input : str) (b : bool) :
  embedding_inv s new ->
  embedding_inv (log (EmbeddingCreate i input b) s) (EmbeddingCreate i input b :: new).
Proof.
  intros (Hh & Hc & Hm & Hev & Hup & Hix). unfold embedding_inv. simpl.
  split; [rewrite Hh; reflexivity|]. split; [exact Hc|]. split; [exact Hm|].
  split; [constructor; [exact Logic.I | exact Hev]|]. split.
  - intros ids b' id Hin Hid. apply elem_of_cons in Hin as [Heq | Hin]; [discriminate|].
    destruct (Hup ids b' id Hin Hid) as (j & Hj & ->).
    exists j. split; [apply embedded_mono, Hj | reflexivity].
  - intros k v Hk. destruct (Hix k v Hk) as [Hold | [Hid Hv]]; [left; exact Hold|].
    right. split; [exact Hid | apply vector_of_embedded_mono, Hv].
Qed.

(** An upsert of vectors of embedded chunks keeps the invariant, whether
    it succeeds or raises. *)
Lemma embedding_inv_upsert (s : State) (new : list Event) (vectors : list Vector) :
  embedding_inv s new ->
  Forall (vector_of_embedded new) vectors ->
  exists r s', index_upsert svc vectors s = (r, s')
    /\ (s' = s \/ exists b, embedding_inv s' (IndexUpsert (map vec_id vectors) b :: new))
    /\ (r = Ok tt -> exists b, history s' = IndexUpsert (map vec_id vectors) b :: history s).
Proof.
  intros Hinv Hvs. pose proof Hinv as (Hh & Hc & Hm & Hev & Hup & Hix).
  unfold index_upsert. destruct (index_handle s); simpl.
  2:{ eexists _, _. split; [reflexivity|]. split; [left; reflexivity | discriminate]. }
  assert (Hupsert : forall b s',
            history s' = IndexUpsert (map vec_id vectors) b :: history s ->
            same_config s s' -> chapter_metadata s' = chapter_metadata s ->
            (forall k v, index s' !! k = Some v ->
                         index s !! k = Some v \/ (v ∈ vectors /\ vec_id v = k)) ->
            embedding_inv s' (IndexUpsert (map vec_id vectors) b :: new)).
  { intros b s' Hh' Hc' Hm' Hix'. unfold embedding_inv.
    split; [rewrite Hh', Hh; reflexivity|].
    split; [destruct Hc as (?&?&?&?&?), Hc' as (?&?&?&?&?); repeat split; congruence|].
    split; [congruence|].
    split; [constructor; [exact Logic.I | exact Hev]|]. split.
    - intros ids b' id Hin Hid. apply elem_of_cons in Hin as [Heq | Hin].
      + injection Heq as -> ->. apply list_elem_of_fmap in Hid as (v & -> & Hv).
        rewrite Forall_forall in Hvs. destruct (Hvs v Hv) as (j & Hj & Hvid & _).
        exists j. split; [apply embedded_mono, Hj | exact Hvid].
      + destruct (Hup ids b' id Hin Hid) as (j & Hj & ->).
        exists j. split; [apply embedded_mono, Hj | reflexivity].
    - intros k v Hk. destruct (Hix' k v Hk) as [Hold | [Hv Hid]].
      + destruct (Hix k v Hold) as [Hold0 | [Hid Hv]]; [left; exact Hold0|].
        right. split; [exact Hid | apply vector_of_embedded_mono, Hv].
      + right. split; [exact Hid|]. rewrite Forall_forall in Hvs.
        apply vector_of_embedded_mono, Hvs, Hv. }
  destruct (upsert_ok svc (history s)); eexists _, _; (split; [reflexivity|]).
  - split; [right; exists true | intros _; exists true; reflexivity].
    apply Hupsert; [reflexivity | repeat split | reflexivity |].
    simpl. intros k v. apply lookup_after_upsert.
  - split; [right; exists false | discriminate].
    apply Hupsert; [reflexivity | repeat split | reflexivity |].
    simpl. intros k v Hk. left. exact Hk.
Qed.

(** One round of the loop, spelled out. *)
Lemma embed_chunks_cons (i : nat) (chunk : str) (rest : list str)
    (vectors : list Vector) (s : State) :
  embed_chunks svc class_level chapter_id i (chunk :: rest) vectors s
  = match embedding_create svc (history s) (prefix chunk 1000) with
    | None =>
        embed_chunks svc class_level chapter_id (S i) rest vectors
          (log (EmbeddingCreate i (prefix chunk 1000) false) s)
    | Some embedding =>
        let s1 := log (EmbeddingCreate i (prefix chunk 1000) true) s in
        let vectors' :=
          vectors ++ [mkVector (chunk_id class_level chapter_id i) embedding
                        (chunk_metadata class_level chapter_id i chunk
                           (now_isoformat svc (history s1)))] in
        if (batch_size <=? length vectors')%nat then
          match index_upsert svc vectors' s1 with
          | (Ok _, s2) => embed_chunks svc class_level chapter_id (S i) rest [] s2
          | (Raise, s2) => embed_chunks svc class_level chapter_id (S i) rest vectors' s2
          end
        else embed_chunks svc class_level chapter_id (S i) rest vectors' s1
    end.
Proof.
  cbn [embed_chunks]. unfold bind at 1, attempt at 1, openai_embedding_create.
  destruct (embedding_create svc (history s) (prefix chunk 1000)) as [embedding|];
    [|reflexivity].
  unfold bind at 1, utcnow. cbv zeta.
  destruct (batch_size <=? _)%nat; [|reflexivity].
  unfold bind at 1, attempt at 1.
  destruct (index_upsert svc _ _) as [[[]|] s2]; reflexivity.
Qed.

Lemma embed_chunks_inv (rest : list str) :
  forall (i : nat) (vectors : list Vector) (s : State) (new : list Event),
    (forall k chunk, rest !! k = Some chunk -> text_chunks !! (i + k)%nat = Some chunk) ->
    embedding_inv s new ->
    Forall (vector_of_embedded new) vectors ->
    exists vs s' new',
      embed_chunks svc class_level chapter_id i rest vectors s = (Ok vs, s')
      /\ embedding_inv s' new'
      /\ Forall (vector_of_embedded new') vs.
Proof.
  induction rest as [|chunk rest IH]; intros i vectors s new Hat Hinv Hvs.
  { exists vectors, s, new. split; [reflexivity | split; assumption]. }
  assert (Hat' : forall k chunk', rest !! k = Some chunk' ->
                   text_chunks !! (S i + k)%nat = Some chunk').
  { intros k chunk' Hk. replace (S i + k)%nat with (i + S k)%nat by lia.
    apply Hat. exact Hk. }
  rewrite embed_chunks_cons.
  destruct (embedding_create svc (history s) (prefix chunk 1000)) as [embedding|].
  2:{ apply (IH (S i) vectors _ (EmbeddingCreate i (prefix chunk 1000) false :: new));
        [exact Hat' | apply embedding_inv_log, Hinv|].
      eapply Forall_impl; [exact Hvs | intros v; apply vector_of_embedded_mono]. }
  cbv zeta.
  set (s1 := log (EmbeddingCreate i (prefix chunk 1000) true) s).
  set (new1 := EmbeddingCreate i (prefix chunk 1000) true :: new).
  set (vectors' := vectors ++ [_]).
  assert (Hinv1 : embedding_inv s1 new1) by apply embedding_inv_log, Hinv.
  assert (Hvs1 : Forall (vector_of_embedded new1) vectors').
  { apply Forall_app. split.
    - eapply Forall_impl; [exact Hvs | intros v; apply vector_of_embedded_mono].
    - constructor; [|constructor]. exists i. split; [|repeat split].
      exists chunk. split; [|left].
      replace i with (i + 0)%nat by lia. apply Hat. reflexivity. }
  destruct (batch_size <=? length vectors')%nat;
    [|apply (IH (S i) vectors' s1 new1 Hat' Hinv1 Hvs1)].
  destruct (embedding_inv_upsert s1 new1 vectors' Hinv1 Hvs1)
    as (r & s2 & Hrun & Hcase & _).
  rewrite Hrun.
  destruct Hcase as [-> | [b Hinv2]].
  - destruct r as [[]|]; [apply (IH (S i) [] s1 new1 Hat' Hinv1); constructor|].
    apply (IH (S i) vectors' s1 new1 Hat' Hinv1 Hvs1).
  - assert (Hvs2 : Forall (vector_of_embedded
                             (IndexUpsert (map vec_id vectors') b :: new1)) vectors').
    { eapply Forall_impl; [exact Hvs1 | intros v; apply vector_of_embedded_mono]. }
    destruct r as [[]|]; [apply (IH (S i) [] s2 _ Hat' Hinv2); constructor|].
    apply (IH (S i) vectors' s2 _ Hat' Hinv2 Hvs2).
Qed.

(** [create_embeddings] never raises, and the invariant holds of the state
    it ends in. *)
Lemma create_embeddings_inv :
  exists b s' new,
    create_embeddings svc text_chunks class_level chapter_id s0 = (Ok b, s')
    /\ embedding_inv s' new.
Proof.
  assert (Hinv0 : embedding_inv s0 []).
  { unfold embedding_inv. split; [reflexivity|]. split; [repeat split|].
    split; [reflexivity|]. split; [constructor|]. split.
    - intros ids b id Hin. apply elem_of_nil in Hin. contradiction.
    - intros k v Hk. left. exact Hk. }
  unfold create_embeddings, bind at 1, get.
  destruct (negb (openai_client s0) || negb (pinecone_client s0)).
  { exists false, s0, []. split; [reflexivity | exact Hinv0]. }
  unfold bind at 1, attempt, bind at 1.
  destruct (embed_chunks_inv text_chunks 0 [] s0 [] ltac:(intros k chunk Hk; exact Hk)
              Hinv0 ltac:(constructor)) as (vs & s1 & new1 & Hrun & Hinv1 & Hvs1).
  rewrite Hrun. destruct vs as [|v vs].
  { eexists _, s1, new1. split; [reflexivity | exact Hinv1]. }
  destruct (embedding_inv_upsert s1 new1 (v :: vs) Hinv1 Hvs1)
    as (r & s2 & Hup & Hcase & _).
  rewrite Hup. destruct Hcase as [-> | [b Hinv2]].
  - destruct r as [[]|]; eexists _, s1, new1; (split; [reflexivity | exact Hinv1]).
  - destruct r as [[]|]; eexists _, s2, _; (split; [reflexivity | exact Hinv2]).
Qed.

End EmbeddingFacts.

(** ** Chunk ids *)

Section ChunkIdFacts.
Import Py Manager.
Variable svc : Services.

Lemma lookup_foldr_delete (ids : list str) (ix : gmap str Vector) (k : str) :
  k ∈ ids -> foldr delete ix ids !! k = None.
Proof.
  induction ids as [|x ids IH]; intros Hin; [apply elem_of_nil in Hin; contradiction|].
  simpl. destruct (decide (x = k)) as [-> | Hne]; [apply lookup_delete_eq|].
  rewrite lookup_delete_ne by exact Hne. apply IH.
  apply elem_of_cons in Hin as [-> | Hin]; [contradiction | exact Hin].
Qed.

Lemma chunk_id_in_delete_chapter_ids (class_level : Z) (chapter_id : str) (i : nat) :
  (i < 1000)%nat -> chunk_id class_level chapter_id i ∈ delete_chapter_ids class_level chapter_id.
Proof.
  intros Hi. unfold delete_chapter_ids. apply list_elem_of_fmap.
  exists i. split; [reflexivity|]. apply list_elem_of_In, in_seq. lia.
Qed.

Lemma index_delete_ok (ids : list str) (s s1 : State) :
  index_delete svc ids s = (Ok tt, s1) -> index s1 = foldr delete (index s) ids.
Proof.
  unfold index_delete. destruct (index_handle s); [|discriminate]. cbn [negb].
  destruct (delete_ok svc (history s)); [|discriminate].
  intros [= <-]. reflexivity.
Qed.

(** After the ids are deleted, the rest of [delete_chapter] leaves the
    index alone. *)
Lemma delete_chapter_index (class_level : Z) (chapter_id : str) (s s' : State) :
  pinecone_client s = true ->
  delete_chapter svc class_level chapter_id s = (Ok Deleted, s') ->
  index s' = foldr delete (index s) (delete_chapter_ids class_level chapter_id).
Proof.
  intros Hpc. unfold delete_chapter, bind at 1, attempt, bind at 1, get. rewrite Hpc.
  unfold bind at 1.
  destruct (index_delete svc _ s) as [[[]|] s1] eqn:Hdel; [|intros [= <-]; discriminate].
  assert (Hix1 : index s1 = foldr delete (index s) (delete_chapter_ids class_level chapter_id))
    by (eapply index_delete_ok, Hdel).
  match goal with
  | |- context [bind ?m ?k s1] =>
      assert (Hrest : preserves (fun _ => True) eq (fun _ _ => True) (bind m k))
  end.
  { apply preserves_bind; [intros; congruence | auto | |].
    - destruct (firebase_initialized s); [apply preserves_call | apply preserves_ret]; auto.
    - intros _. destruct (lookup_metadata s _ _); [|apply preserves_ret; auto].
      repeat (apply preserves_bind; [intros; congruence | auto | | intros ?]).
      + apply preserves_local_file_exists; auto.
      + destruct a; [apply preserves_call | apply preserves_ret]; auto.
      + apply preserves_modify. intros s2. apply related_set_metadata; auto.
      + apply preserves_log; auto. }
  match goal with
  | |- context [bind ?m ?k s1] => destruct (bind m k s1) as [r s2] eqn:Hrun
  end.
  apply Hrest in Hrun as (_ & _ & Hix & _).
  destruct r; intros [= <-]; congruence.
Qed.

(** C4.  The id written for chunk [i] is the string
    [{class_level}_{chapter_id}_chunk_{i}], a function of the class
    level, the chapter id and the index only: every id that
    [create_embeddings] upserts, and the key and id of every vector it
    adds to the index, is [chunk_id class_level chapter_id i] for the
    index [i] of a chunk.  [delete_chapter] enumerates the same function
    over [range(1000)], and when it succeeds no vector with such an id is
    left. *)
Theorem chunk_ids_deterministic (class_level : Z) (chapter_id : str)
    (text_chunks : list str) (s : State) :
  (forall i, chunk_id class_level chapter_id i
             = str_of_Z class_level ++ lit "_" ++ chapter_id ++ lit "_chunk_"
               ++ str_of_nat i)
  /\ (exists b s' new,
        create_embeddings svc text_chunks class_level chapter_id s = (Ok b, s')
        /\ history s' = new ++ history s
        /\ (forall ids ok id, IndexUpsert ids ok ∈ new -> id ∈ ids ->
              exists i, (i < length text_chunks)%nat
                        /\ id = chunk_id class_level chapter_id i)
        /\ (forall k v, index s' !! k = Some v ->
              index s !! k = Some v
              \/ exists i, (i < length text_chunks)%nat
                   /\ k = chunk_id class_level chapter_id i
                   /\ vec_id v = chunk_id class_level chapter_id i
                   /\ v_chunk_index (vec_metadata v) = i))
  /\ delete_chapter_ids class_level chapter_id
     = map (chunk_id class_level chapter_id) (seq 0 1000)
  /\ (forall sd sd' i,
        pinecone_client sd = true ->
        delete_chapter svc class_level chapter_id sd = (Ok Deleted, sd') ->
        (i < 1000)%nat ->
        index sd' !! chunk_id class_level chapter_id i = None).
Proof.
  split; [reflexivity|]. split; [|split; [reflexivity|]].
  - destruct (create_embeddings_inv svc class_level chapter_id text_chunks s)
      as (b & s' & new & Hrun & Hh & _ & _ & _ & Hup & Hix).
    exists b, s', new. split; [exact Hrun|]. split; [exact Hh|]. split.
    + intros ids ok id Hin Hid. destruct (Hup ids ok id Hin Hid) as (j & (chunk & Hj & _) & ->).
      exists j. split; [eapply lookup_lt_Some, Hj | reflexivity].
    + intros k v Hk. destruct (Hix k v Hk) as [Hold | [Hid (j & (chunk & Hj & _) & Hv & Hi & _)]];
        [left; exact Hold|].
      right. exists j. split; [eapply lookup_lt_Some, Hj|].
      split; [congruence|]. split; [exact Hv | exact Hi].
  - intros sd sd' i Hpc Hrun Hi.
    rewrite (delete_chapter_index class_level chapter_id sd sd' Hpc Hrun).
    apply lookup_foldr_delete, chunk_id_in_delete_chapter_ids, Hi.
Qed.

End ChunkIdFacts.

Example chunk_id_real_numbers_3 :
  Manager.chunk_id 9 (Py.lit "real_numbers") 3 = Py.lit "9_real_numbers_chunk_3".
Proof. vm_compute. reflexivity. Qed.

(** ** Runs of monadic code *)

Section MonadFacts.
Import Py Manager.
Variable svc : Services.

Lemma bind_inv {A B} (m : M A) (k : A -> M B) (s s' : State) (r : Res B) :
  bind m k s = (r, s') ->
  (exists a s1, m s = (Ok a, s1) /\ k a s1 = (r, s'))
  \/ (m s = (Raise, s') /\ r = Raise).
Proof.
  unfold bind. destruct (m s) as [[a|] s1]; intros Hrun.
  - left. exists a, s1. split; [reflexivity | exact Hrun].
  - right. injection Hrun as <- <-. split; reflexivity.
Qed.

Lemma bind_ok_inv {A B} (m : M A) (k : A -> M B) (s s' : State) (b : B) :
  bind m k s = (Ok b, s') ->
  exists a s1, m s = (Ok a, s1) /\ k a s1 = (Ok b, s').
Proof.
  intros Hrun. apply bind_inv in Hrun as [Hok | [_ Hr]]; [exact Hok | discriminate].
Qed.

Lemma attempt_inv {A} (m : M A) (s s' : State) (r : Res (option A)) :
  attempt m s = (r, s') ->
  (exists a, m s = (Ok a, s') /\ r = Ok (Some a)) \/ (m s = (Raise, s') /\ r = Ok None).
Proof.
  unfold attempt. destruct (m s) as [[a|] s1]; intros [= <- <-]; [left; eauto | right; eauto].
Qed.

(** [yields P m]: [m] never raises, and what it returns satisfies [P]. *)
Definition yields {A} (P : A -> Prop) (m : M A) : Prop :=
  forall s r s', m s = (r, s') -> exists a, r = Ok a /\ P a.

Lemma yields_ret {A} (P : A -> Prop) (a : A) : P a -> yields P (ret a).
Proof. intros Ha s r s' [= <- <-]. eauto. Qed.

Lemma yields_bind {A B} (P : B -> Prop) (m : M A) (k : A -> M B) :
  yields (fun _ => True) m -> (forall a, yields P (k a)) -> yields P (bind m k).
Proof.
  intros Hm Hk s r s' Hrun. apply bind_inv in Hrun as [(a & s1 & _ & Hk') | [Hraise _]].
  - eapply Hk, Hk'.
  - apply Hm in Hraise as (a & Ha & _). discriminate.
Qed.

Lemma yields_attempt {A} (m : M A) : yields (fun _ => True) (attempt m).
Proof.
  intros s r s' Hrun. apply attempt_inv in Hrun as [(a & _ & ->) | [_ ->]]; eauto.
Qed.

Lemma yields_get : yields (fun _ => True) get.
Proof. intros s r s' [= <- <-]. eauto. Qed.

Lemma yields_modify (f : State -> State) : yields (fun _ => True) (modify f).
Proof. intros s r s' [= <- <-]. eauto. Qed.

Lemma yields_utcnow : yields (fun _ => True) (utcnow svc).
Proof. intros s r s' [= <- <-]. eauto. Qed.

Lemma yields_publish (path : str) : yields (fun _ => True) (publish svc path).
Proof.
  intros s r s'. unfold publish.
  destruct (admin_upload svc (history s) path); [| destruct (signed_upload svc _ path) |];
    intros [= <- <-]; eauto.
Qed.

Lemma yields_firestore_write (doc_id : str) :
  yields (fun _ => True) (firestore_write svc doc_id).
Proof. intros s r s' [= <- <-]. eauto. Qed.

Lemma yields_local_file_exists (path : str) :
  yields (fun _ => True) (local_file_exists svc path).
Proof. intros s r s' [= <- <-]. eauto. Qed.

Lemma yields_calculate_file_hash (file : list N) :
  yields (fun _ => True) (calculate_file_hash svc file).
Proof.
  intros s r s'. unfold calculate_file_hash.
  destruct (temp_readable svc (history s)); intros [= <- <-]; eauto.
Qed.

Lemma yields_weaken {A} (P : A -> Prop) (m : M A) :
  yields P m -> yields (fun _ => True) m.
Proof. intros Hm s r s' Hrun. apply Hm in Hrun as (a & -> & _). eauto. Qed.

End MonadFacts.

Ltac total :=
  repeat first
    [ apply yields_ret; solve [eauto]
    | apply yields_attempt | apply yields_get | apply yields_modify
    | apply yields_utcnow | apply yields_publish | apply yields_firestore_write
    | apply yields_local_file_exists | apply yields_calculate_file_hash
    | apply yields_bind; [| intros ?]
    | match goal with
      | |- yields _ (if ?b then _ else _) => destruct b
      | |- yields _ (match ?x with _ => _ end) => destruct x
      | |- yields _ (let _ := _ in _) => cbv zeta
      end ].

(** ** Runs of [upload_chapter_pdf] *)

Section UploadFacts.
Import Py Manager.
Variable svc : Services.

Lemma lookup_metadata_log (e : Event) (s : State) (key chapter_id : str) :
  lookup_metadata (log e s) key chapter_id = lookup_metadata s key chapter_id.
Proof. reflexivity. Qed.

Lemma lookup_store_metadata (key chapter_id : str) (m : ChapterMeta) (s : State) :
  lookup_metadata (store_metadata key chapter_id m s) key chapter_id = Some m.
Proof.
  unfold lookup_metadata, store_metadata. simpl.
  rewrite lookup_insert_eq. apply lookup_insert_eq.
Qed.

(** The record of a chapter holds the fingerprint [h] and the count [n]. *)
Definition record_in (md : gmap str (gmap str ChapterMeta)) (class_level : Z)
    (chapter_id h : str) (n : Z) : Prop :=
  exists m, match md !! chapter_key_of class_level with
            | Some chapters => chapters !! chapter_id
            | None => None
            end = Some m
    /\ m_file_hash m = h /\ m_text_chunks_count m = n.

Definition recorded (s : State) (class_level : Z) (chapter_id h : str) (n : Z) : Prop :=
  record_in (chapter_metadata s) class_level chapter_id h n.

(** The chunks of the uploaded file, as [extract_text_chunks] returns them. *)
Definition chunks_of_file (file : list N) : list str :=
  match fitz_open svc file with
  | Some doc => chunks_of_pages doc 800 50
  | None => []
  end.

Lemma extract_text_chunks_run (file : list N) (s : State) :
  exists b, extract_text_chunks svc file s = (Ok (chunks_of_file file), log (PdfOpen b) s).
Proof.
  unfold extract_text_chunks, extract_text_chunks_with, chunks_of_file.
  destruct (fitz_open svc file); [exists true | exists false]; reflexivity.
Qed.

(** The end of [process_upload], once the embeddings are created. *)
Lemma process_upload_success (file : list N) (class_level : Z)
    (chapter_id file_hash : str) (replace : bool) (s s' : State) (r : UploadResult) :
  process_upload svc file class_level chapter_id file_hash replace s = (Ok r, s') ->
  success r = true ->
  chunks_created r = Some (Z.of_nat (length (chunks_of_file file)))
  /\ duplicate_detected r = false
  /\ recorded s' class_level chapter_id file_hash
       (Z.of_nat (length (chunks_of_file file))).
Proof.
  intros Hrun Hsucc. unfold process_upload in Hrun.
  apply bind_ok_inv in Hrun as (_ & sd & _ & Hrun).
  apply bind_ok_inv in Hrun as (moved & sm & _ & Hrun).
  apply bind_ok_inv in Hrun as (saved & sv & _ & Hrun).
  destruct saved; cbn [negb] in Hrun; [|injection Hrun as <- <-; discriminate].
  apply bind_ok_inv in Hrun as (text_chunks & se & Hext & Hrun).
  destruct (extract_text_chunks_run file sv) as (b & Hext').
  rewrite Hext' in Hext. injection Hext as <- <-.
  destruct (chunks_of_file file) as [|c0 cs] eqn:Hchunks;
    [injection Hrun as <- <-; discriminate|].
  apply bind_ok_inv in Hrun as (embedded & s1 & _ & Hrun).
  destruct embedded; cbn [negb] in Hrun; [|injection Hrun as <- <-; discriminate].
  apply bind_ok_inv in Hrun as (s1' & s2 & [= <- <-] & Hrun).
  apply bind_ok_inv in Hrun as (published & s3 & _ & Hrun).
  apply bind_ok_inv in Hrun as (now & s4 & _ & Hrun).
  destruct (dict_get NCTB_CHAPTERS chapter_id) as [info|]; [|discriminate].
  apply bind_ok_inv in Hrun as ([] & s5 & [= <-] & Hrun).
  apply bind_ok_inv in Hrun as ([] & s6 & [= <-] & Hrun).
  apply bind_ok_inv in Hrun as ([] & s7 & Hfs & Hrun).
  injection Hrun as <- <-.
  split; [reflexivity|]. split; [reflexivity|].
  assert (Hs7 : lookup_metadata s7 (chapter_key_of class_level) chapter_id
                = lookup_metadata (store_metadata (chapter_key_of class_level) chapter_id
                    (mkChapterMeta (filename_of class_level chapter_id)
                       (local_path_of (filename_of class_level chapter_id))
                       (fst published) (snd published) file_hash now
                       (Z.of_nat (length (c0 :: cs))) info class_level
                       (lit "Mathematics")) s4) (chapter_key_of class_level) chapter_id).
  { destruct (db s1 && _); [|injection Hfs as <-; reflexivity].
    unfold firestore_write in Hfs. injection Hfs as <-. reflexivity. }
  eexists. split; [exact (eq_trans Hs7 (lookup_store_metadata _ _ _ _)) | split; reflexivity].
Qed.

(** The identical-file branch raises when the temporary file cannot be
    removed, and reports the recorded count otherwise. *)
Lemma skip_identical_result (class_level : Z) (chapter_id file_hash : str)
    (existing : option ChapterMeta) (s s' : State) (r : Res UploadResult) :
  skip_identical svc class_level chapter_id file_hash existing s = (r, s') ->
  (remove_ok svc (history s) = false /\ r = Raise)
  \/ (remove_ok svc (history s) = true
      /\ exists url ready,
           r = Ok (SkippedIdentical file_hash
                     (from_option m_text_chunks_count 0 existing) url ready)).
Proof.
  unfold skip_identical, bind at 1, remove_file, call. cbv zeta.
  destruct (remove_ok svc (history s)); [|intros [= <- <-]; left; auto].
  intros Hrun. right. split; [reflexivity|].
  match type of Hrun with
  | ?m _ = _ =>
      assert (Hm : yields (fun r => exists url ready,
                             r = SkippedIdentical file_hash
                                   (from_option m_text_chunks_count 0 existing) url ready)
                     m)
        by (unfold save_metadata; destruct existing; total)
  end.
  apply Hm in Hrun as (a & -> & url & ready & ->). eauto.
Qed.

Lemma skip_identical_ok (class_level : Z) (chapter_id file_hash : str)
    (existing : option ChapterMeta) (s s' : State) (a : UploadResult) :
  skip_identical svc class_level chapter_id file_hash existing s = (Ok a, s') ->
  exists url ready,
    a = SkippedIdentical file_hash (from_option m_text_chunks_count 0 existing) url ready.
Proof.
  intros Hrun. apply skip_identical_result in Hrun as [[_ [=]] | [_ (url & ready & [= ->])]].
  eauto.
Qed.

Lemma check_chapter_exists_total (class_level : Z) (chapter_id : str) :
  yields (fun _ => True) (check_chapter_exists_in_pinecone svc class_level chapter_id).
Proof. unfold check_chapter_exists_in_pinecone. total. Qed.

Lemma delete_existing_total (class_level : Z) (chapter_id : str) :
  yields (fun _ => True) (delete_existing_chapter_chunks svc class_level chapter_id).
Proof. unfold delete_existing_chapter_chunks. total. Qed.

Lemma valid_class_level (class_level : Z) (chapter_id : str) :
  is_valid_chapter_for_class chapter_id class_level = true ->
  bool_decide (class_level ∈ [9; 10]) = true.
Proof.
  intros Hv. apply bool_decide_eq_true.
  destruct (decide (class_level = 9)) as [-> | H9]; [left|].
  destruct (decide (class_level = 10)) as [-> | H10]; [right; left|].
  unfold is_valid_chapter_for_class in Hv.
  rewrite (no_chapters_outside_9_10 class_level H9 H10) in Hv.
  apply bool_decide_eq_true in Hv. apply elem_of_nil in Hv. contradiction.
Qed.

(** The fingerprint check keeps the metadata. *)
Lemma check_chapter_exists_metadata (class_level : Z) (chapter_id : str)
    (s s' : State) (r : Res bool) :
  check_chapter_exists_in_pinecone svc class_level chapter_id s = (r, s') ->
  chapter_metadata s' = chapter_metadata s.
Proof.
  intros Hrun.
  apply (preserves_check_chapter_exists svc (fun _ => True) (fun _ _ => True)
           (fun a b => b = a)) in Hrun as (_ & _ & _ & Hm); auto; congruence.
Qed.

(** The identical-file branch keeps the fingerprint and the count of the
    record, whether or not it retries the publication. *)
Lemma skip_identical_recorded (class_level : Z) (chapter_id file_hash h : str)
    (m : ChapterMeta) (s s' : State) (r : Res UploadResult) :
  lookup_metadata s (chapter_key_of class_level) chapter_id = Some m ->
  m_file_hash m = h ->
  skip_identical svc class_level chapter_id file_hash (Some m) s = (r, s') ->
  recorded s' class_level chapter_id h (m_text_chunks_count m).
Proof.
  intros Hm Hh Hrun.
  apply (preserves_skip_identical svc (fun _ => True) (fun _ _ => True)
           (fun a b => record_in a class_level chapter_id h (m_text_chunks_count m) ->
                       record_in b class_level chapter_id h (m_text_chunks_count m)))
    in Hrun as (_ & _ & _ & HP); auto.
  - apply HP. exists m. split; [exact Hm | split; [exact Hh | reflexivity]].
  - intros md url path m' [= <-] _. exists (with_firebase url path m).
    split; [|split; [exact Hh | reflexivity]].
    rewrite lookup_insert_eq. apply lookup_insert_eq.
Qed.

(** The handler of [upload_chapter_pdf]: the removal of the temporary file
    is tried, and the result is the error whether or not it works. *)
Lemma cleanup_errored (class_level : Z) (chapter_id : str) :
  yields (fun x => x = Errored)
    (found <~ local_file_exists svc (temp_path_of (filename_of class_level chapter_id)) ;;
     (if found
      then attempt (remove_file svc (temp_path_of (filename_of class_level chapter_id)))
           >>; ret tt
      else ret tt) >>;
     ret Errored).
Proof. total. Qed.

(** A successful upload leaves a record with the fingerprint of the file
    and the count it reports. *)
Lemma upload_success_recorded (file : list N) (class_level : Z) (chapter_id : str)
    (force_reupload : bool) (s s' : State) (r : UploadResult) :
  upload_chapter_pdf svc file class_level chapter_id force_reupload s = (Ok r, s') ->
  success r = true ->
  is_valid_chapter_for_class chapter_id class_level = true
  /\ sha256_hexdigest svc file <> []
  /\ exists n, chunks_created r = Some n
       /\ recorded s' class_level chapter_id (sha256_hexdigest svc file) n.
Proof.
  intros Hrun Hsucc. unfold upload_chapter_pdf in Hrun.
  apply bind_ok_inv in Hrun as (a & s1 & Hbody & Hret).
  apply attempt_inv in Hbody as [(result & Hbody & [= ->]) | [_ [= ->]]].
  2:{ apply cleanup_errored in Hret as (x & [= <-] & ->). discriminate. }
  injection Hret as -> ->. unfold upload_body in Hbody.
  destruct (is_valid_chapter_for_class chapter_id class_level) eqn:Hv; cbn [negb] in Hbody;
    [|injection Hbody as <- <-; discriminate].
  rewrite (valid_class_level _ _ Hv) in Hbody. cbn [negb] in Hbody.
  apply bind_ok_inv in Hbody as ([] & sa & _ & Hbody).
  apply bind_ok_inv in Hbody as (h & sb & Hhash & Hbody).
  assert (Hh : h = Some (sha256_hexdigest svc file) \/ h = None).
  { unfold calculate_file_hash in Hhash.
    destruct (temp_readable svc (history sa)); injection Hhash as <- <-; auto. }
  assert (Hfail : forall st,
            (remove_file svc (temp_path_of (filename_of class_level chapter_id)) >>;
             ret HashFailed) st = (Ok r, s') -> False).
  { intros st Hst. apply bind_ok_inv in Hst as (? & ? & _ & [= <- <-]). discriminate. }
  destruct h as [[|c0 fh]|]; [destruct (Hfail _ Hbody) | | destruct (Hfail _ Hbody)].
  destruct Hh as [[= Hsha] | ?]; [|discriminate].
  split; [reflexivity|]. split; [rewrite <- Hsha; discriminate|].
  rewrite <- Hsha. set (file_hash := c0 :: fh) in *.
  apply bind_ok_inv in Hbody as (sg & sb' & [= <- <-] & Hbody).
  destruct (lookup_metadata sb (chapter_key_of class_level) chapter_id) as [m|] eqn:Hm.
  2:{ (* no record: the upload is processed *)
      cbn [fmap option_fmap option_map] in Hbody.
      rewrite bool_decide_eq_false_2 in Hbody by discriminate.
      cbn [andb negb truthy] in Hbody.
      apply bind_ok_inv in Hbody as (chapter_exists & sc & _ & Hbody).
      assert (Hproc : process_upload svc file class_level chapter_id file_hash
                        (chapter_exists || force_reupload) sc = (Ok r, s'))
        by (destruct (chapter_exists && negb force_reupload); exact Hbody).
      destruct (process_upload_success _ _ _ _ _ _ _ _ Hproc Hsucc) as (Hn & _ & Hrec).
      eexists. split; [exact Hn | exact Hrec]. }
  cbn [fmap option_fmap option_map] in Hbody.
  destruct (bool_decide (Some (m_file_hash m) = Some file_hash)) eqn:Hsame.
  - apply bool_decide_eq_true in Hsame. injection Hsame as Hsame.
    destruct force_reupload; cbn [andb negb] in Hbody.
    + apply bind_ok_inv in Hbody as (chapter_exists & sc & _ & Hbody).
      rewrite andb_false_r in Hbody.
      destruct (process_upload_success _ _ _ _ _ _ _ _ Hbody Hsucc) as (Hn & _ & Hrec).
      eexists. split; [exact Hn | exact Hrec].
    + pose proof (skip_identical_recorded _ _ _ _ _ _ _ _ Hm Hsame Hbody) as Hrec.
      apply skip_identical_ok in Hbody as (url & ready & ->).
      eexists. split; [reflexivity | exact Hrec].
  - cbn [andb negb] in Hbody.
    apply bind_ok_inv in Hbody as (chapter_exists & sc & _ & Hbody).
    assert (Hproc : process_upload svc file class_level chapter_id file_hash
                      (chapter_exists || force_reupload) sc = (Ok r, s')).
    { destruct (chapter_exists && negb force_reupload); [|exact Hbody].
      destruct (truthy (Some (m_file_hash m))); exact Hbody. }
    destruct (process_upload_success _ _ _ _ _ _ _ _ Hproc Hsucc) as (Hn & _ & Hrec).
    eexists. split; [exact Hn | exact Hrec].
Qed.

(** Calls that process content: extraction, embedding, and any request
    to the vector index, and the move of the file into place. *)
Definition no_processing (e : Event) : Prop :=
  match e with
  | EmbeddingCreate _ _ _ | IndexUpsert _ _ | IndexDelete _ _ | IndexQuery _ _
  | PdfOpen _ | FileMove _ | FileCopy _ => False
  | _ => True
  end.

(** An unforced upload of a file whose fingerprint is the recorded one
    takes the identical-file branch. *)
Lemma upload_identical_skips (file : list N) (class_level : Z) (chapter_id : str)
    (s : State) (n : Z) :
  is_valid_chapter_for_class chapter_id class_level = true ->
  sha256_hexdigest svc file <> [] ->
  recorded s class_level chapter_id (sha256_hexdigest svc file) n ->
  file_save_ok svc (history s) = true ->
  temp_readable svc (FileSave true :: history s) = true ->
  remove_ok svc (HashRead true :: FileSave true :: history s) = true ->
  exists url ready s',
    upload_chapter_pdf svc file class_level chapter_id false s
    = (Ok (SkippedIdentical (sha256_hexdigest svc file) n url ready), s')
    /\ related no_processing eq (fun _ _ => True) s s'
    /\ recorded s' class_level chapter_id (sha256_hexdigest svc file) n.
Proof.
  intros Hv Hne (m & Hm & Hh & Hn) Hsave Hread Hremove.
  set (s2 := log (HashRead true) (log (FileSave true) s)).
  assert (Hbody : upload_body svc file class_level chapter_id false s
                  = skip_identical svc class_level chapter_id
                      (sha256_hexdigest svc file) (Some m) s2).
  { unfold upload_body. rewrite Hv, (valid_class_level _ _ Hv). cbn [negb].
    unfold bind at 1, call. rewrite Hsave.
    unfold bind at 1, calculate_file_hash. cbn [history log]. rewrite Hread.
    destruct (sha256_hexdigest svc file) as [|c0 fh] eqn:Hsha; [contradiction|].
    unfold bind at 1, get.
    change (lookup_metadata (log (HashRead true) (log (FileSave true) s))
              (chapter_key_of class_level) chapter_id)
      with (lookup_metadata s (chapter_key_of class_level) chapter_id).
    unfold lookup_metadata. rewrite Hm. cbn [fmap option_fmap option_map].
    rewrite Hh, bool_decide_eq_true_2 by reflexivity. reflexivity. }
  unfold upload_chapter_pdf, bind at 1, attempt. rewrite Hbody.
  destruct (skip_identical svc class_level chapter_id (sha256_hexdigest svc file)
              (Some m) s2) as [r s'] eqn:Hskip.
  assert (Hrec : recorded s' class_level chapter_id (sha256_hexdigest svc file)
                   (m_text_chunks_count m))
    by (eapply (skip_identical_recorded _ _ _ _ m s2 s'); [exact Hm | exact Hh | exact Hskip]).
  pose proof Hskip as Hrel.
  apply (preserves_skip_identical svc no_processing eq (fun _ _ => True)) in Hrel;
    [| auto | intros; congruence | auto | auto | simpl; auto .. ].
  apply skip_identical_result in Hskip as [[Hno _] | [_ (url & ready & ->)]];
    [unfold s2 in Hno; cbn [history log] in Hno; congruence|].
  exists url, ready, s'. cbn [from_option] in *. rewrite Hn in *.
  split; [reflexivity|]. split; [|exact Hrec].
  destruct Hrel as (Hc & (new & Hh' & Hq) & Hix & _).
  split; [exact Hc|]. split; [|split; [exact Hix | exact Logic.I]].
  exists (new ++ [HashRead true; FileSave true]). split.
  - rewrite Hh', <- app_assoc. reflexivity.
  - apply Forall_app. split; [exact Hq | repeat constructor].
Qed.

(** C1.  After a successful upload, a second upload of the same bytes for
    the same class and chapter, not forced, finds the stored fingerprint
    equal to the SHA-256 of the file and returns success with
    [duplicate_detected], reporting as [chunks_created] and
    [existing_chunks] the count the first call returned and recorded.  It
    makes no embedding call, opens no PDF and sends nothing to the vector
    index, which is left as it was.  (The second call is assumed able to
    save the upload, to read it back and to remove the temporary file; a
    failure of one of these is reported as an error instead.) *)
Theorem identical_reupload_is_idempotent (file : list N) (class_level : Z)
    (chapter_id : str) (force_reupload : bool) (s0 : State) (r1 : UploadResult) :
  let s1 := snd (upload_chapter_pdf svc file class_level chapter_id force_reupload s0) in
  fst (upload_chapter_pdf svc file class_level chapter_id force_reupload s0) = Ok r1 ->
  success r1 = true ->
  file_save_ok svc (history s1) = true ->
  temp_readable svc (FileSave true :: history s1) = true ->
  remove_ok svc (HashRead true :: FileSave true :: history s1) = true ->
  exists n r2 s2,
    chunks_created r1 = Some n
    /\ recorded s1 class_level chapter_id (sha256_hexdigest svc file) n
    /\ upload_chapter_pdf svc file class_level chapter_id false s1 = (Ok r2, s2)
    /\ success r2 = true
    /\ duplicate_detected r2 = true
    /\ result_file_hash r2 = Some (sha256_hexdigest svc file)
    /\ chunks_created r2 = Some n
    /\ existing_chunks r2 = Some n
    /\ (exists new, history s2 = new ++ history s1 /\ Forall no_processing new)
    /\ index s2 = index s1.
Proof.
  intros s1 Hrun Hsucc Hsave Hread Hremove.
  assert (Hrun1 : upload_chapter_pdf svc file class_level chapter_id force_reupload s0
                  = (Ok r1, s1)).
  { subst s1. rewrite <- Hrun. apply surjective_pairing. }
  destruct (upload_success_recorded _ _ _ _ _ _ _ Hrun1 Hsucc) as (Hv & Hne & n & Hn & Hrec).
  destruct (upload_identical_skips file class_level chapter_id s1 n Hv Hne Hrec Hsave Hread
              Hremove)
    as (url & ready & s2 & Hrun2 & (_ & Hnew & Hix & _) & _).
  exists n, (SkippedIdentical (sha256_hexdigest svc file) n url ready), s2.
  repeat (split; [first [exact Hn | exact Hrec | exact Hrun2 | reflexivity | exact Hnew]|]).
  symmetry. exact Hix.
Qed.

End UploadFacts.

Lemma identical_reupload_witness :
  fst (Manager.upload_chapter_pdf Demo.reliable Demo.chapter_pdf 9
         (Py.lit "real_numbers") false Demo.fresh)
  = Manager.Ok (Manager.Processed 1 None None false)
  /\ exists r2 s2,
       Manager.upload_chapter_pdf Demo.reliable Demo.chapter_pdf 9
         (Py.lit "real_numbers") false
         (snd (Manager.upload_chapter_pdf Demo.reliable Demo.chapter_pdf 9
                 (Py.lit "real_numbers") false Demo.fresh))
       = (Manager.Ok r2, s2)
       /\ Manager.duplicate_detected r2 = true
       /\ Manager.chunks_created r2 = Some 1.
Proof.
  assert (Hfirst : fst (Manager.upload_chapter_pdf Demo.reliable Demo.chapter_pdf 9
                          (Py.lit "real_numbers") false Demo.fresh)
                   = Manager.Ok (Manager.Processed 1 None None false))
    by (vm_compute; reflexivity).
  split; [exact Hfirst|].
  destruct (identical_reupload_is_idempotent Demo.reliable Demo.chapter_pdf 9
              (Py.lit "real_numbers") false Demo.fresh
              (Manager.Processed 1 None None false)
              Hfirst eq_refl eq_refl eq_refl eq_refl)
    as (n & r2 & s2 & Hn & _ & Hrun & _ & Hdup & _ & Hcount & _).
  exists r2, s2. split; [exact Hrun|]. split; [exact Hdup|].
  rewrite Hcount, <- Hn. reflexivity.
Defined.

(** ** Runs that only add to the history *)

Section Extends.
Import Py Manager.
Variable svc : Services.

(** [extends s s']: [s'] is [s] after some calls, same configuration. *)
Definition extends (s s' : State) : Prop :=
  related (fun _ => True) (fun _ _ => True) (fun _ _ => True) s s'.

Definition anyrun {A} (m : M A) : Prop :=
  preserves (fun _ => True) (fun _ _ => True) (fun _ _ => True) m.

Lemma extends_history (s s' : State) :
  extends s s' -> exists new, history s' = new ++ history s.
Proof. intros (_ & (new & Hh & _) & _). exists new. exact Hh. Qed.

Lemma extends_config (s s' : State) : extends s s' -> same_config s s'.
Proof. intros (Hc & _). exact Hc. Qed.

Lemma extends_refl (s : State) : extends s s.
Proof. apply related_refl; auto. Qed.

Lemma extends_trans (a b c : State) : extends a b -> extends b c -> extends a c.
Proof. apply related_trans; auto. Qed.

Lemma extends_log (e : Event) (s : State) : extends s (log e s).
Proof. apply related_log; auto. Qed.

Lemma extends_in (e : Event) (a b : State) :
  extends a b -> e ∈ history a -> e ∈ history b.
Proof.
  intros Hab Hin. apply extends_history in Hab as (new & ->).
  apply elem_of_app. right. exact Hin.
Qed.

Lemma anyrun_ret {A} (a : A) : anyrun (ret a).
Proof. apply preserves_ret; auto. Qed.

Lemma anyrun_raise {A} : anyrun (@raise A).
Proof. apply preserves_raise; auto. Qed.

Lemma anyrun_get : anyrun get.
Proof. apply preserves_get; auto. Qed.

Lemma anyrun_bind {A B} (m : M A) (k : A -> M B) :
  anyrun m -> (forall a, anyrun (k a)) -> anyrun (bind m k).
Proof. apply preserves_bind; auto. Qed.

Lemma anyrun_attempt {A} (m : M A) : anyrun m -> anyrun (attempt m).
Proof. apply preserves_attempt. Qed.

Lemma anyrun_modify_log (e : Event) : anyrun (modify (log e)).
Proof. apply preserves_log; auto. Qed.

Lemma anyrun_store_metadata (key chapter_id : str) (m : ChapterMeta) :
  anyrun (modify (store_metadata key chapter_id m)).
Proof. apply preserves_store_metadata; auto. Qed.

Lemma anyrun_call (okf : list Event -> bool) (e : bool -> Event) : anyrun (call okf e).
Proof. apply preserves_call; auto. Qed.

Lemma anyrun_utcnow : anyrun (utcnow svc).
Proof. apply preserves_utcnow; auto. Qed.

Lemma anyrun_publish (path : str) : anyrun (publish svc path).
Proof. apply preserves_publish; auto. Qed.

Lemma anyrun_firestore_write (doc_id : str) : anyrun (firestore_write svc doc_id).
Proof. apply preserves_firestore_write; auto. Qed.

Lemma anyrun_local_file_exists (path : str) : anyrun (local_file_exists svc path).
Proof. apply preserves_local_file_exists; auto. Qed.

Lemma anyrun_calculate_file_hash (file : list N) : anyrun (calculate_file_hash svc file).
Proof. apply preserves_calculate_file_hash; auto. Qed.

Lemma anyrun_extract_text_chunks (file : list N) : anyrun (extract_text_chunks svc file).
Proof. apply preserves_extract_text_chunks; auto. Qed.

Lemma anyrun_check_chapter_exists (class_level : Z) (chapter_id : str) :
  anyrun (check_chapter_exists_in_pinecone svc class_level chapter_id).
Proof. apply preserves_check_chapter_exists; auto. Qed.

Lemma anyrun_delete_existing (class_level : Z) (chapter_id : str) :
  anyrun (delete_existing_chapter_chunks svc class_level chapter_id).
Proof. apply preserves_delete_existing; auto. Qed.

Lemma anyrun_create_embeddings (text_chunks : list str) (class_level : Z)
    (chapter_id : str) :
  anyrun (create_embeddings svc text_chunks class_level chapter_id).
Proof. apply preserves_create_embeddings; auto. Qed.

Lemma anyrun_skip_identical (class_level : Z) (chapter_id file_hash : str)
    (existing : option ChapterMeta) :
  anyrun (skip_identical svc class_level chapter_id file_hash existing).
Proof. apply preserves_skip_identical; auto. Qed.

End Extends.

Ltac anyrun :=
  repeat first
    [ apply anyrun_ret | apply anyrun_raise | apply anyrun_get | apply anyrun_utcnow
    | apply anyrun_modify_log | apply anyrun_store_metadata | apply anyrun_call
    | apply anyrun_publish | apply anyrun_firestore_write
    | apply anyrun_local_file_exists | apply anyrun_calculate_file_hash
    | apply anyrun_extract_text_chunks | apply anyrun_check_chapter_exists
    | apply anyrun_delete_existing | apply anyrun_create_embeddings
    | apply anyrun_skip_identical
    | apply anyrun_attempt
    | apply anyrun_bind; [| intros ?]
    | match goal with
      | |- anyrun (if ?b then _ else _) => destruct b
      | |- anyrun (match ?x with _ => _ end) => destruct x
      | |- anyrun (let _ := _ in _) => cbv zeta
      end ].

(** ** Embedding requests made for the chunks *)

Section EmbeddingCalls.
Import Py Manager.
Variable svc : Services.
Variable class_level : Z.
Variable chapter_id : str.

Lemma anyrun_index_upsert (vectors : list Vector) : anyrun (index_upsert svc vectors).
Proof. apply preserves_index_upsert; auto. Qed.

Lemma anyrun_embed_chunks (rest : list str) (i : nat) (vectors : list Vector) :
  anyrun (embed_chunks svc class_level chapter_id i rest vectors).
Proof. apply preserves_embed_chunks; auto. Qed.

(** Every chunk is sent to the embedding service, in order. *)
Lemma embed_chunks_calls (rest : list str) :
  forall (i : nat) (vectors : list Vector) (s : State),
  exists r s' new,
    embed_chunks svc class_level chapter_id i rest vectors s = (r, s')
    /\ history s' = new ++ history s
    /\ forall k chunk, rest !! k = Some chunk ->
         exists b, EmbeddingCreate (i + k) (prefix chunk 1000) b ∈ new.
Proof.
  induction rest as [|chunk rest IH]; intros i vectors s.
  { exists (Ok vectors), s, []. split; [reflexivity|]. split; [reflexivity|].
    intros k c Hk. rewrite lookup_nil in Hk. discriminate. }
  assert (Hstep : forall b vs s1,
            extends (log (EmbeddingCreate i (prefix chunk 1000) b) s) s1 ->
            exists r s' new,
              embed_chunks svc class_level chapter_id (S i) rest vs s1 = (r, s')
              /\ history s' = new ++ history s
              /\ forall k c, (chunk :: rest) !! k = Some c ->
                   exists b', EmbeddingCreate (i + k) (prefix c 1000) b' ∈ new).
  { intros b vs s1 Hext. destruct (IH (S i) vs s1) as (r & s' & new & Hrun & Hh & Hcalls).
    apply extends_history in Hext as (mid & Hmid). cbn [history log] in Hmid.
    exists r, s', (new ++ mid ++ [EmbeddingCreate i (prefix chunk 1000) b]).
    split; [exact Hrun|]. split.
    - rewrite Hh, Hmid, <- !app_assoc. reflexivity.
    - intros [|k] c Hk.
      + injection Hk as <-. exists b. rewrite Nat.add_0_r.
        apply elem_of_app. right. apply elem_of_app. right. left.
      + destruct (Hcalls k c Hk) as (b' & Hin). exists b'.
        replace (i + S k)%nat with (S i + k)%nat by lia.
        apply elem_of_app. left. exact Hin. }
  rewrite embed_chunks_cons.
  destruct (embedding_create svc (history s) (prefix chunk 1000)) as [embedding|];
    [|apply (Hstep false), extends_refl].
  cbv zeta. destruct (batch_size <=? _)%nat; [|apply (Hstep true), extends_refl].
  destruct (index_upsert svc _ _) as [[[]|] s2] eqn:Hup;
    apply (Hstep true); eapply anyrun_index_upsert, Hup.
Qed.

Lemma create_embeddings_calls (text_chunks : list str) (s : State) :
  openai_client s = true -> pinecone_client s = true ->
  exists r s' new,
    create_embeddings svc text_chunks class_level chapter_id s = (r, s')
    /\ history s' = new ++ history s
    /\ forall k chunk, text_chunks !! k = Some chunk ->
         exists b, EmbeddingCreate k (prefix chunk 1000) b ∈ new.
Proof.
  intros Ho Hp. unfold create_embeddings, bind at 1, get. rewrite Ho, Hp. cbn [negb orb].
  unfold bind at 1, attempt, bind at 1.
  destruct (embed_chunks_calls text_chunks 0 [] s) as (re & s1 & new & Hrun & Hh & Hcalls).
  rewrite Hrun. cbn [Nat.add] in Hcalls.
  destruct re as [[|v vs]|]; [exists (Ok true), s1, new; auto | | exists (Ok false), s1, new; auto].
  destruct (index_upsert svc (v :: vs) s1) as [ru s2] eqn:Hup.
  apply anyrun_index_upsert, extends_history in Hup as (nu & Hnu).
  exists (Ok (bool_decide (is_Some (match ru with Ok a => Some a | Raise => None end)))),
    s2, (nu ++ new).
  split; [destruct ru as [[]|]; reflexivity|].
  split; [rewrite Hnu, Hh, app_assoc; reflexivity|].
  intros k chunk Hk. destruct (Hcalls k chunk Hk) as (b & Hin).
  exists b. apply elem_of_app. right. exact Hin.
Qed.

(** When every embedding request fails, nothing is upserted and
    [create_embeddings] still returns [True]. *)
Definition failed_embedding (e : Event) : Prop :=
  match e with
  | EmbeddingCreate _ _ false => True
  | _ => False
  end.

Lemma embed_chunks_all_fail (rest : list str) :
  (forall h input, embedding_create svc h input = None) ->
  forall (i : nat) (vectors : list Vector) (s : State),
  exists s' new,
    embed_chunks svc class_level chapter_id i rest vectors s = (Ok vectors, s')
    /\ history s' = new ++ history s
    /\ Forall failed_embedding new
    /\ index s' = index s.
Proof.
  intros Hfail. induction rest as [|chunk rest IH]; intros i vectors s.
  { exists s, []. repeat split. constructor. }
  rewrite embed_chunks_cons, Hfail.
  destruct (IH (S i) vectors (log (EmbeddingCreate i (prefix chunk 1000) false) s))
    as (s' & new & Hrun & Hh & Hall & Hix).
  exists s', (new ++ [EmbeddingCreate i (prefix chunk 1000) false]).
  split; [exact Hrun|]. split; [rewrite Hh, <- app_assoc; reflexivity|].
  split; [|exact Hix]. apply Forall_app. split; [exact Hall | repeat constructor].
Qed.

Lemma create_embeddings_all_fail (text_chunks : list str) (s : State) :
  (forall h input, embedding_create svc h input = None) ->
  openai_client s = true -> pinecone_client s = true ->
  exists s' new,
    create_embeddings svc text_chunks class_level chapter_id s = (Ok true, s')
    /\ history s' = new ++ history s
    /\ Forall failed_embedding new
    /\ index s' = index s.
Proof.
  intros Hfail Ho Hp. unfold create_embeddings, bind at 1, get. rewrite Ho, Hp.
  cbn [negb orb]. unfold bind at 1, attempt, bind at 1.
  destruct (embed_chunks_all_fail text_chunks Hfail 0 [] s) as (s' & new & Hrun & Hrest).
  rewrite Hrun. exists s', new. split; [reflexivity | exact Hrest].
Qed.

End EmbeddingCalls.

(** ** The replacement path *)

Section ProcessFacts.
Import Py Manager.
Variable svc : Services.

(** [returns P m]: what [m] returns, when it does not raise, satisfies [P]. *)
Definition returns {A} (P : A -> Prop) (m : M A) : Prop :=
  forall s r s', m s = (r, s') -> r = Raise \/ exists a, r = Ok a /\ P a.

Lemma returns_ret {A} (P : A -> Prop) (a : A) : P a -> returns P (ret a).
Proof. intros Ha s r s' [= <- <-]. right. eauto. Qed.

Lemma returns_raise {A} (P : A -> Prop) : returns P raise.
Proof. intros s r s' [= <- <-]. left. reflexivity. Qed.

Lemma returns_bind {A B} (P : B -> Prop) (m : M A) (k : A -> M B) :
  (forall a, returns P (k a)) -> returns P (bind m k).
Proof.
  intros Hk s r s' Hrun. apply bind_inv in Hrun as [(a & s1 & _ & Hk') | [_ ->]].
  - eapply Hk, Hk'.
  - left. reflexivity.
Qed.

(** The calls made since [s0]. *)
Definition since (s0 s : State) (new : list Event) : Prop :=
  history s = new ++ history s0.

Lemma since_log (s0 s : State) (new : list Event) (e : Event) :
  since s0 s new -> since s0 (log e s) (e :: new).
Proof. unfold since. intros Hs. cbn [history log]. rewrite Hs. reflexivity. Qed.

Lemma since_extends (s0 a b : State) (na : list Event) :
  since s0 a na -> extends a b ->
  exists nb, since s0 b nb /\ forall e, e ∈ na -> e ∈ nb.
Proof.
  unfold since. intros Ha Hab. apply extends_history in Hab as (mid & Hb).
  exists (mid ++ na). split; [rewrite Hb, Ha, app_assoc; reflexivity|].
  intros e He. apply elem_of_app. right. exact He.
Qed.

Lemma anyrun_process_upload (file : list N) (class_level : Z)
    (chapter_id file_hash : str) (replace : bool) :
  anyrun (process_upload svc file class_level chapter_id file_hash replace).
Proof. unfold process_upload, remove_file, save_metadata. anyrun. Qed.

(** What the end of [process_upload] can return. *)
Definition is_processed (n : Z) (r : UploadResult) : Prop :=
  exists url path ready, r = Processed n url path ready.

(** The course of [process_upload]: the deletion, whatever its outcome,
    is followed by the move of the file; a saved file is opened and its
    chunks are sent for embedding; the result is decided by these later
    steps alone. *)
Lemma process_upload_run (file : list N) (class_level : Z)
    (chapter_id file_hash : str) (replace : bool) (s s' : State) (r : Res UploadResult) :
  process_upload svc file class_level chapter_id file_hash replace s = (r, s') ->
  exists new,
    history s' = new ++ history s
    /\ (exists b, FileMove b ∈ new)
    /\ (r = Ok SaveFailed
        \/ (exists b, PdfOpen b ∈ new)
           /\ (r = Ok ExtractFailed /\ chunks_of_file svc file = []
               \/ (openai_client s = true -> pinecone_client s = true ->
                   forall k chunk, chunks_of_file svc file !! k = Some chunk ->
                     exists b, EmbeddingCreate k (prefix chunk 1000) b ∈ new)
                  /\ exists se emb s2,
                       same_config s se
                       /\ create_embeddings svc (chunks_of_file svc file)
                            class_level chapter_id se = (Ok emb, s2)
                       /\ (emb = false /\ r = Ok EmbeddingsFailed
                           \/ emb = true
                              /\ (r = Raise
                                  \/ exists a, r = Ok a
                                       /\ is_processed
                                            (Z.of_nat (length (chunks_of_file svc file))) a)))).
Proof.
  intros Hrun. unfold process_upload in Hrun.
  (* the deletion *)
  apply bind_inv in Hrun as [(a & sd & Hdel & Hrun) | [Hraise _]].
  2:{ assert (Htot : yields (fun _ => True)
                       (if replace
                        then delete_existing_chapter_chunks svc class_level chapter_id >>; ret tt
                        else ret tt))
        by (destruct replace; total; apply delete_existing_total).
      apply Htot in Hraise as (x & Hx & _). discriminate. }
  assert (Hsd : extends s sd).
  { match type of Hdel with
    | ?m s = _ => assert (Hany : anyrun m) by (destruct replace; anyrun)
    end.
    exact (Hany _ _ _ Hdel). }
  destruct (since_extends s s sd [] eq_refl Hsd) as (nd & Hnd & _).
  (* the move *)
  set (b := move_ok svc (history sd)).
  assert (Hmove : attempt (call (move_ok svc) FileMove) sd
                  = (Ok (if b then Some tt else None), log (FileMove b) sd)).
  { unfold attempt, call. fold b. destruct b; reflexivity. }
  unfold bind at 1 in Hrun. rewrite Hmove in Hrun.
  pose proof (since_log s sd nd (FileMove b) Hnd) as Hnm.
  (* the copy, when the move failed *)
  apply bind_inv in Hrun as [(saved & sv & Hsave & Hrun) | [Hraise _]].
  2:{ assert (Htot : yields (fun _ => True)
                       (match (if b then Some tt else None) with
                        | Some _ => ret true
                        | None =>
                            copied <~ attempt (call (copy_ok svc) FileCopy >>;
                                               remove_file svc
                                                 (temp_path_of
                                                    (filename_of class_level chapter_id))) ;;
                            ret (bool_decide (is_Some copied))
                        end))
        by (destruct b; total).
      apply Htot in Hraise as (x & Hx & _). discriminate. }
  assert (Hsv : extends (log (FileMove b) sd) sv).
  { match type of Hsave with
    | ?m _ = _ => assert (Hany : anyrun m) by (unfold remove_file; destruct b; anyrun)
    end.
    exact (Hany _ _ _ Hsave). }
  destruct (since_extends s _ sv _ Hnm Hsv) as (nv & Hnv & Hmono_v).
  assert (Hfinal : forall sx nx, since s sx nx -> (forall e, e ∈ nv -> e ∈ nx) ->
                     exists bm, FileMove bm ∈ nx).
  { intros sx nx _ Hmono. exists b. apply Hmono, Hmono_v. left. }
  destruct saved; cbn [negb] in Hrun.
  2:{ injection Hrun as <- <-. exists nv. split; [exact Hnv|].
      split; [apply (Hfinal sv nv Hnv); auto | left; reflexivity]. }
  (* the extraction *)
  destruct (extract_text_chunks_run svc file sv) as (bo & Hext).
  unfold bind at 1 in Hrun. rewrite Hext in Hrun.
  pose proof (since_log s sv nv (PdfOpen bo) Hnv) as Hne.
  set (se := log (PdfOpen bo) sv) in *.
  assert (Hse : extends s se).
  { eapply extends_trans; [exact Hsd|]. eapply extends_trans; [apply extends_log|].
    eapply extends_trans; [exact Hsv | apply extends_log]. }
  destruct (chunks_of_file svc file) as [|c0 cs] eqn:Hchunks.
  { injection Hrun as <- <-. exists (PdfOpen bo :: nv). split; [exact Hne|].
    split; [apply (Hfinal se _ Hne); intros e He; right; exact He|].
    right. split; [exists bo; left | left; split; reflexivity]. }
  (* the embeddings *)
  destruct (create_embeddings_inv svc class_level chapter_id (c0 :: cs) se)
    as (emb & s2 & ne & Hemb & _).
  unfold bind at 1 in Hrun. rewrite Hemb in Hrun.
  assert (Hs2 : extends se s2) by (eapply anyrun_create_embeddings, Hemb).
  destruct (since_extends s se s2 _ Hne Hs2) as (n2 & Hn2 & Hmono_2).
  assert (Hcalls : forall sx nx, since s sx nx -> (forall e, e ∈ n2 -> e ∈ nx) ->
            openai_client s = true -> pinecone_client s = true ->
            forall k chunk, (c0 :: cs) !! k = Some chunk ->
              exists be, EmbeddingCreate k (prefix chunk 1000) be ∈ nx).
  { intros sx nx _ Hmono Ho Hp k chunk Hk.
    destruct (extends_config _ _ Hse) as (Ho' & Hp' & _).
    destruct (create_embeddings_calls svc class_level chapter_id (c0 :: cs) se
                ltac:(congruence) ltac:(congruence))
      as (r' & s2' & nc & Hrun' & Hhc & Hc).
    rewrite Hemb in Hrun'. injection Hrun' as <- <-.
    destruct (Hc k chunk Hk) as (be & Hin). exists be. apply Hmono.
    unfold since in Hn2, Hne. rewrite Hhc, Hne in Hn2.
    rewrite app_assoc in Hn2. apply app_inv_tail in Hn2. rewrite <- Hn2.
    apply elem_of_app. left. exact Hin. }
  assert (Hshape : forall sx nx, since s sx nx -> (forall e, e ∈ n2 -> e ∈ nx) ->
            (exists bm, FileMove bm ∈ nx) /\ (exists b', PdfOpen b' ∈ nx)).
  { intros sx nx Hsx Hmono. split.
    - apply (Hfinal sx nx Hsx). intros e He. apply Hmono, Hmono_2. right. exact He.
    - exists bo. apply Hmono, Hmono_2. left. }
  destruct emb; cbn [negb] in Hrun.
  2:{ injection Hrun as <- <-. exists n2. split; [exact Hn2|].
      destruct (Hshape s2 n2 Hn2 ltac:(auto)) as [Hm Ho]. split; [exact Hm|].
      right. split; [exact Ho|]. right. split; [apply (Hcalls s2 n2 Hn2); auto|].
      exists se, false, s2. split; [apply extends_config, Hse|].
      split; [exact Hemb | left; split; reflexivity]. }
  (* publication and record *)
  match type of Hrun with
  | ?tail s2 = _ =>
      assert (Htail : anyrun tail) by (unfold save_metadata; anyrun);
      assert (Hret : returns (is_processed (Z.of_nat (length (c0 :: cs)))) tail)
  end.
  { repeat first
      [ apply returns_raise
      | apply returns_ret; unfold is_processed; eauto
      | apply returns_bind; intros ?
      | match goal with |- returns _ (match ?x with _ => _ end) => destruct x end ]. }
  pose proof (Htail _ _ _ Hrun) as Hs'.
  destruct (since_extends s s2 s' _ Hn2 Hs') as (n' & Hn' & Hmono').
  exists n'. split; [exact Hn'|].
  destruct (Hshape s' n' Hn' Hmono') as [Hm Ho]. split; [exact Hm|].
  right. split; [exact Ho|]. right. split; [apply (Hcalls s' n' Hn' Hmono')|].
  exists se, true, s2. split; [apply extends_config, Hse|].
  split; [exact Hemb|]. right. split; [reflexivity|]. apply (Hret _ _ _ Hrun).
Qed.

End ProcessFacts.

(** ** The paths of an upload *)

Section UploadPaths.
Import Py Manager.
Variable svc : Services.

(** Calls other than those of the deletion loop: its delete requests and
    its paging queries ([top_k=100]). *)
Definition not_deletion (e : Event) : Prop :=
  match e with
  | IndexDelete _ _ => False
  | IndexQuery k _ => k <> 100%nat
  | _ => True
  end.

(** [quiet s s']: no call of the deletion loop was made between [s] and [s']. *)
Definition quiet (s s' : State) : Prop :=
  related not_deletion (fun _ _ => True) (fun _ _ => True) s s'.

Definition quietly {A} (m : M A) : Prop :=
  preserves not_deletion (fun _ _ => True) (fun _ _ => True) m.

(** The results returned before the replacement code is reached. *)
Definition unprocessed (r : UploadResult) : Prop :=
  match r with
  | InvalidChapter _ | InvalidClassLevel | HashFailed
  | SkippedIdentical _ _ _ _ | SkippedSameContent _ _ _ _ => True
  | _ => False
  end.

Lemma quiet_trans (a b c : State) : quiet a b -> quiet b c -> quiet a c.
Proof. apply related_trans; auto. Qed.

Lemma quiet_refl (s : State) : quiet s s.
Proof. apply related_refl; auto. Qed.

Lemma quiet_extends (a b : State) : quiet a b -> extends a b.
Proof.
  intros (Hc & (new & Hh & _) & _). split; [exact Hc|].
  split; [|split; exact Logic.I]. exists new. split; [exact Hh|].
  apply Forall_forall. intros; exact Logic.I.
Qed.

Lemma quietly_bind {A B} (m : M A) (k : A -> M B) :
  quietly m -> (forall a, quietly (k a)) -> quietly (bind m k).
Proof. apply preserves_bind; auto. Qed.

Lemma quietly_ret {A} (a : A) : quietly (ret a).
Proof. apply preserves_ret; auto. Qed.

Lemma quietly_remove_file (path : str) : quietly (remove_file svc path).
Proof. apply preserves_call; auto. intros b. exact Logic.I. Qed.

Lemma quietly_skip_identical (class_level : Z) (chapter_id file_hash : str)
    (existing : option ChapterMeta) :
  quietly (skip_identical svc class_level chapter_id file_hash existing).
Proof. apply preserves_skip_identical; simpl; auto. Qed.

Lemma quietly_check_chapter_exists (class_level : Z) (chapter_id : str) :
  quietly (check_chapter_exists_in_pinecone svc class_level chapter_id).
Proof. apply preserves_check_chapter_exists; simpl; auto. Qed.

(** The body of the [try] block either ends without reaching the
    replacement code, or runs [process_upload] from a state reached
    without any call of the deletion loop. *)
Lemma upload_body_paths (file : list N) (class_level : Z) (chapter_id : str)
    (force_reupload : bool) (s s1 : State) (rb : Res UploadResult) :
  upload_body svc file class_level chapter_id force_reupload s = (rb, s1) ->
  (quiet s s1 /\ (rb = Raise \/ exists a, rb = Ok a /\ unprocessed a))
  \/ exists sp file_hash replace,
       quiet s sp
       /\ process_upload svc file class_level chapter_id file_hash replace sp = (rb, s1).
Proof.
  intros Hrun. unfold upload_body in Hrun.
  assert (Hleaf : forall (m : M UploadResult) sx,
            m sx = (rb, s1) -> quiet s sx -> quietly m -> returns unprocessed m ->
            quiet s s1 /\ (rb = Raise \/ exists a, rb = Ok a /\ unprocessed a)).
  { intros m sx Hm Hsx Hq Hr. split; [eapply quiet_trans; [exact Hsx | eapply Hq, Hm]|].
    eapply Hr, Hm. }
  assert (Hhash : forall sx, quiet s sx ->
            (remove_file svc (temp_path_of (filename_of class_level chapter_id)) >>;
             ret HashFailed) sx = (rb, s1) ->
            quiet s s1 /\ (rb = Raise \/ exists a, rb = Ok a /\ unprocessed a)).
  { intros sx Hsx Hm. eapply Hleaf; [exact Hm | exact Hsx | |].
    - apply quietly_bind; [apply quietly_remove_file | intros ?; apply quietly_ret].
    - apply returns_bind; intros ?; apply returns_ret; exact Logic.I. }
  destruct (negb (is_valid_chapter_for_class chapter_id class_level)).
  { left. eapply Hleaf; [exact Hrun | apply quiet_refl | apply quietly_ret|].
    apply returns_ret; exact Logic.I. }
  destruct (negb (bool_decide (class_level ∈ [9; 10]))).
  { left. eapply Hleaf; [exact Hrun | apply quiet_refl | apply quietly_ret|].
    apply returns_ret; exact Logic.I. }
  apply bind_inv in Hrun as [([] & sa & Hsave & Hrun) | [Hraise ->]].
  2:{ left. split; [|left; reflexivity].
      revert Hraise. apply preserves_call; simpl; auto. }
  assert (Hsa : quiet s sa) by (revert Hsave; apply preserves_call; simpl; auto).
  apply bind_inv in Hrun as [(h & sb & Hh & Hrun) | [Hraise ->]].
  2:{ apply (yields_calculate_file_hash svc) in Hraise as (? & ? & _). discriminate. }
  assert (Hsb : quiet s sb).
  { eapply quiet_trans; [exact Hsa|]. revert Hh.
    apply preserves_calculate_file_hash; simpl; auto. }
  destruct h as [[|c0 fh]|]; [left; eapply Hhash; eauto | | left; eapply Hhash; eauto].
  set (file_hash := c0 :: fh) in *.
  unfold bind at 1, get in Hrun.
  set (existing := lookup_metadata sb (chapter_key_of class_level) chapter_id) in *.
  destruct (bool_decide (m_file_hash <$> existing = Some file_hash) && negb force_reupload).
  { left. eapply Hleaf; [exact Hrun | exact Hsb | apply quietly_skip_identical|].
    intros sx r sx' Hskip.
    apply skip_identical_result in Hskip as [[_ ->] | [_ (url & ready & ->)]];
      [left; reflexivity|].
    right. eexists. split; [reflexivity | exact Logic.I]. }
  apply bind_inv in Hrun as [(chapter_exists & sc & Hcheck & Hrun) | [Hraise ->]].
  2:{ apply (check_chapter_exists_total svc) in Hraise as (? & ? & _). discriminate. }
  assert (Hsc : quiet s sc).
  { eapply quiet_trans; [exact Hsb|]. eapply quietly_check_chapter_exists, Hcheck. }
  assert (Hproc : forall rp,
            process_upload svc file class_level chapter_id file_hash rp sc = (rb, s1) ->
            exists sp fh' replace,
              quiet s sp
              /\ process_upload svc file class_level chapter_id fh' replace sp = (rb, s1))
    by (intros rp Hp; exists sc, file_hash, rp; split; [exact Hsc | exact Hp]).
  destruct (chapter_exists && negb force_reupload); [|right; eapply Hproc, Hrun].
  destruct (truthy (m_file_hash <$> existing)
            && negb (bool_decide (m_file_hash <$> existing = Some file_hash)));
    [right; eapply Hproc, Hrun|].
  destruct (bool_decide (m_file_hash <$> existing = Some file_hash));
    [|right; eapply Hproc, Hrun].
  left. eapply Hleaf; [exact Hrun | exact Hsc | |].
  - apply quietly_bind; [apply quietly_remove_file | intros ?; apply quietly_ret].
  - apply returns_bind; intros ?; apply returns_ret. exact Logic.I.
Qed.

(** The calls made between two states of a run. *)
Definition new_events (s s' : State) : list Event :=
  take (length (history s') - length (history s)) (history s').

Lemma new_events_spec (s s' : State) (new : list Event) :
  history s' = new ++ history s -> new_events s s' = new.
Proof.
  intros Hh. unfold new_events. rewrite Hh, length_app.
  replace (length new + length (history s) - length (history s))%nat
    with (length new) by lia.
  apply take_app_length.
Qed.

Lemma new_events_extends (s s' : State) :
  extends s s' -> history s' = new_events s s' ++ history s.
Proof.
  intros Hext. apply extends_history in Hext as (new & Hh).
  rewrite (new_events_spec s s' new Hh). exact Hh.
Qed.

Lemma new_events_quiet (s s' : State) :
  quiet s s' -> Forall not_deletion (new_events s s').
Proof.
  intros (_ & (new & Hh & Hq) & _). rewrite (new_events_spec s s' new Hh). exact Hq.
Qed.

(** The calls of a part of a run are calls of the run. *)
Lemma new_events_mono (a b c d : State) (e : Event) :
  extends a b -> extends b c -> extends c d ->
  e ∈ new_events b c -> e ∈ new_events a d.
Proof.
  intros Hab Hbc Hcd Hin.
  pose proof (new_events_extends b c Hbc) as Hc.
  apply extends_history in Hab as (n1 & Hb). apply extends_history in Hcd as (n3 & Hd).
  rewrite (new_events_spec a d (n3 ++ new_events b c ++ n1)).
  - apply elem_of_app. right. apply elem_of_app. left. exact Hin.
  - rewrite Hd, Hc, Hb, <- !app_assoc. reflexivity.
Qed.

(** An upload either ends without reaching the replacement code, with no
    call of the deletion loop, or runs [process_upload] and returns what
    it returns ([Errored] when it raises). *)
Lemma upload_paths (file : list N) (class_level : Z) (chapter_id : str)
    (force_reupload : bool) (s s' : State) (r : Res UploadResult) :
  upload_chapter_pdf svc file class_level chapter_id force_reupload s = (r, s') ->
  (quiet s s' /\ exists a, r = Ok a /\ (unprocessed a \/ a = Errored))
  \/ exists sp file_hash replace rp s1,
       quiet s sp
       /\ process_upload svc file class_level chapter_id file_hash replace sp = (rp, s1)
       /\ quiet s1 s'
       /\ (rp = r /\ rp <> Raise \/ rp = Raise /\ r = Ok Errored).
Proof.
  intros Hrun. unfold upload_chapter_pdf in Hrun.
  apply bind_inv in Hrun as [(a & s1 & Hbody & Hret) | [Hraise _]].
  2:{ apply yields_attempt in Hraise as (? & ? & _). discriminate. }
  assert (Hclean : forall sx,
            (found <~ local_file_exists svc
                        (temp_path_of (filename_of class_level chapter_id)) ;;
             (if found
              then attempt (remove_file svc
                              (temp_path_of (filename_of class_level chapter_id)))
                   >>; ret tt
              else ret tt) >>; ret Errored) sx = (r, s') ->
            quiet sx s' /\ r = Ok Errored).
  { intros sx Hc. split.
    - revert Hc. apply quietly_bind; [apply preserves_local_file_exists; simpl; auto|].
      intros found. apply quietly_bind; [|intros ?; apply quietly_ret].
      destruct found; [|apply quietly_ret].
      apply quietly_bind; [|intros ?; apply quietly_ret].
      apply preserves_attempt, quietly_remove_file.
    - apply (cleanup_errored svc) in Hc as (x & -> & ->). reflexivity. }
  apply attempt_inv in Hbody as [(result & Hbody & [= ->]) | [Hbody [= ->]]].
  - injection Hret as <- <-.
    apply upload_body_paths in Hbody
      as [[Hq [Hr | (a & [= <-] & Ha)]] | (sp & fh & rp & Hq & Hp)]; [discriminate | |].
    + left. split; [exact Hq|]. exists result. auto.
    + right. exists sp, fh, rp, (Ok result), s1.
      split; [exact Hq|]. split; [exact Hp|]. split; [apply quiet_refl|].
      left. split; [reflexivity | discriminate].
  - destruct (Hclean _ Hret) as [Hq' ->].
    apply upload_body_paths in Hbody
      as [[Hq [_ | (a & [= ] & _)]] | (sp & fh & rp & Hq & Hp)].
    + left. split; [eapply quiet_trans; eassumption|]. exists Errored. auto.
    + right. exists sp, fh, rp, Raise, s1.
      split; [exact Hq|]. split; [exact Hp|]. split; [exact Hq'|].
      right. split; reflexivity.
Qed.

End UploadPaths.

(** ** Vectors that leave the index

    [tracked s s']: every vector of the index of [s] is still in the index
    of [s'], unchanged, unless a delete request that succeeded named its
    id or an upsert that succeeded wrote its id between [s] and [s']. *)

Section Tracking.
Import Py Manager.
Variable svc : Services.

Definition touched (new : list Event) (k : str) : Prop :=
  (exists ids, IndexDelete ids true ∈ new /\ k ∈ ids)
  \/ (exists ids, IndexUpsert ids true ∈ new /\ k ∈ ids).

Definition tracked (s s' : State) : Prop :=
  exists new,
    history s' = new ++ history s
    /\ forall k v, index s !! k = Some v -> index s' !! k = Some v \/ touched new k.

Definition tracks {A} (m : M A) : Prop :=
  forall s r s', m s = (r, s') -> tracked s s'.

Lemma touched_app (n1 n2 : list Event) (k : str) :
  touched n1 k \/ touched n2 k -> touched (n2 ++ n1) k.
Proof.
  intros [[(ids & Hin & Hk) | (ids & Hin & Hk)] | [(ids & Hin & Hk) | (ids & Hin & Hk)]];
    [left | right | left | right]; exists ids; (split; [|exact Hk]);
    apply elem_of_app; auto.
Qed.

Lemma tracked_refl (s : State) : tracked s s.
Proof. exists []. split; [reflexivity | intros k v Hk; left; exact Hk]. Qed.

Lemma tracked_trans (a b c : State) : tracked a b -> tracked b c -> tracked a c.
Proof.
  intros (n1 & Hh1 & H1) (n2 & Hh2 & H2). exists (n2 ++ n1). split.
  - rewrite Hh2, Hh1, app_assoc. reflexivity.
  - intros k v Hk. destruct (H1 k v Hk) as [Hb | Ht]; [|right; apply touched_app; auto].
    destruct (H2 k v Hb) as [Hc | Ht]; [left; exact Hc | right; apply touched_app; auto].
Qed.

(** A computation that leaves the index as it is tracks it. *)
Lemma tracks_same_index {A} (m : M A) :
  preserves (fun _ => True) eq (fun _ _ => True) m -> tracks m.
Proof.
  intros Hm s r s' Hrun. destruct (Hm _ _ _ Hrun) as (_ & (new & Hh & _) & Hix & _).
  exists new. split; [exact Hh|]. intros k v Hk. left. rewrite <- Hix. exact Hk.
Qed.

Lemma tracks_bind {A B} (m : M A) (k : A -> M B) :
  tracks m -> (forall a, tracks (k a)) -> tracks (bind m k).
Proof.
  intros Hm Hk s r s'. unfold bind.
  destruct (m s) as [[a|] s1] eqn:E; intros Hrun.
  - eapply tracked_trans; [eapply Hm, E | eapply Hk, Hrun].
  - injection Hrun as <- <-. eapply Hm, E.
Qed.

Lemma tracks_attempt {A} (m : M A) : tracks m -> tracks (attempt m).
Proof.
  intros Hm s r s'. unfold attempt.
  destruct (m s) as [[a|] s1] eqn:E; intros [= <- <-]; eapply Hm, E.
Qed.

Lemma lookup_foldr_delete_other (ids : list str) (ix : gmap str Vector) (k : str) :
  k ∉ ids -> foldr delete ix ids !! k = ix !! k.
Proof.
  induction ids as [|x ids IH]; intros Hk; [reflexivity|]. simpl.
  apply not_elem_of_cons in Hk as [Hne Hk].
  rewrite lookup_delete_ne by congruence. apply IH, Hk.
Qed.

Lemma lookup_upsert_other (vectors : list Vector) (ix : gmap str Vector) (k : str) :
  k ∉ map vec_id vectors ->
  foldl (fun ix v => <[vec_id v := v]> ix) ix vectors !! k = ix !! k.
Proof.
  revert ix. induction vectors as [|x vs IH]; intros ix Hk; [reflexivity|]. simpl in *.
  apply not_elem_of_cons in Hk as [Hne Hk].
  rewrite IH by exact Hk. apply lookup_insert_ne. congruence.
Qed.

Lemma tracks_index_delete (ids : list str) : tracks (index_delete svc ids).
Proof.
  intros s r s'. unfold index_delete.
  destruct (negb (index_handle s)); [intros [= <- <-]; apply tracked_refl|].
  destruct (delete_ok svc (history s)); intros [= <- <-].
  - exists [IndexDelete ids true]. split; [reflexivity|]. intros k v Hk.
    destruct (decide (k ∈ ids)) as [Hin | Hout].
    + right. left. exists ids. split; [left | exact Hin].
    + left. cbn [index log set_index]. rewrite lookup_foldr_delete_other; assumption.
  - exists [IndexDelete ids false]. split; [reflexivity|]. intros k v Hk. left. exact Hk.
Qed.

Lemma tracks_index_upsert (vectors : list Vector) : tracks (index_upsert svc vectors).
Proof.
  intros s r s'. unfold index_upsert.
  destruct (negb (index_handle s)); [intros [= <- <-]; apply tracked_refl|].
  destruct (upsert_ok svc (history s)); intros [= <- <-].
  - exists [IndexUpsert (map vec_id vectors) true]. split; [reflexivity|]. intros k v Hk.
    destruct (decide (k ∈ map vec_id vectors)) as [Hin | Hout].
    + right. right. exists (map vec_id vectors). split; [left | exact Hin].
    + left. cbn [index log set_index]. rewrite lookup_upsert_other; assumption.
  - exists [IndexUpsert (map vec_id vectors) false]. split; [reflexivity|].
    intros k v Hk. left. exact Hk.
Qed.

Ltac tracking :=
  repeat lazymatch goal with
  | |- tracks (bind _ _) => apply tracks_bind; [| intros ?]
  | |- tracks (attempt _) => apply tracks_attempt
  | |- tracks (if ?b then _ else _) => destruct b
  | |- tracks (match ?x with _ => _ end) => destruct x
  | |- tracks (let _ := _ in _) => cbv zeta
  | |- tracks (index_delete _ _) => apply tracks_index_delete
  | |- tracks (index_upsert _ _) => apply tracks_index_upsert
  | |- tracks _ => apply tracks_same_index; solve [changes]
  end.

Lemma tracks_delete_existing (class_level : Z) (chapter_id : str) :
  tracks (delete_existing_chapter_chunks svc class_level chapter_id).
Proof.
  unfold delete_existing_chapter_chunks.
  assert (Hloop : forall fuel all_ids,
            tracks (delete_batches svc fuel class_level chapter_id all_ids)).
  { induction fuel as [|fuel IH]; intros all_ids; cbn [delete_batches];
      [tracking|].
    apply tracks_bind; [tracking | intros matches].
    destruct matches; [tracking|].
    apply tracks_bind; [tracking | intros _; apply IH]. }
  apply tracks_bind; [apply tracks_attempt, Hloop | intros r].
  tracking.
Qed.

Lemma tracks_embed_chunks (class_level : Z) (chapter_id : str) (text_chunks : list str) :
  forall i vectors, tracks (embed_chunks svc class_level chapter_id i text_chunks vectors).
Proof.
  induction text_chunks as [|chunk rest IH]; intros i vectors; cbn [embed_chunks];
    [tracking|].
  apply tracks_bind; [tracking | intros r].
  destruct r as [embedding|]; [|apply IH].
  apply tracks_bind; [tracking | intros now]. cbv zeta.
  destruct (batch_size <=? _)%nat; [|apply IH].
  apply tracks_bind; [tracking | intros u]. destruct u; apply IH.
Qed.

Lemma tracks_create_embeddings (text_chunks : list str) (class_level : Z)
    (chapter_id : str) :
  tracks (create_embeddings svc text_chunks class_level chapter_id).
Proof.
  unfold create_embeddings. apply tracks_bind; [tracking | intros s0].
  destruct (negb (openai_client s0) || negb (pinecone_client s0)); [tracking|].
  apply tracks_bind; [|intros r; tracking].
  apply tracks_attempt, tracks_bind; [apply tracks_embed_chunks | intros vectors].
  tracking.
Qed.

Lemma tracks_process_upload (file : list N) (class_level : Z)
    (chapter_id file_hash : str) (replace : bool) :
  tracks (process_upload svc file class_level chapter_id file_hash replace).
Proof.
  unfold process_upload, remove_file, save_metadata.
  repeat first [ simple apply tracks_delete_existing
               | simple apply tracks_create_embeddings
               | progress tracking ].
Qed.

Lemma tracks_upload (file : list N) (class_level : Z) (chapter_id : str)
    (force_reupload : bool) :
  tracks (upload_chapter_pdf svc file class_level chapter_id force_reupload).
Proof.
  unfold upload_chapter_pdf, upload_body, remove_file.
  repeat first [ simple apply tracks_process_upload | progress tracking ].
Qed.

End Tracking.

(** ** Replacement, deletion failures and embedding failures *)

Section ReplacementFacts.
Import Py Manager.
Variable svc : Services.

(** A failed request of the deletion loop: a delete that raised, or a
    paging query ([top_k=100]) that raised. *)
Definition failed_deletion (e : Event) : bool :=
  match e with
  | IndexDelete _ ok => negb ok
  | IndexQuery k ok => (k =? 100)%nat && negb ok
  | _ => false
  end.

Lemma failed_deletion_not_quiet (new : list Event) :
  existsb failed_deletion new = true -> Forall not_deletion new -> False.
Proof.
  intros Hex Hall. apply existsb_exists in Hex as (e & Hin & He).
  rewrite Forall_forall in Hall. apply list_elem_of_In, Hall in Hin.
  destruct e; try discriminate; simpl in *; [|contradiction].
  apply andb_prop in He as [Hk _]. apply Nat.eqb_eq in Hk. contradiction.
Qed.

Lemma anyrun_upload (file : list N) (class_level : Z) (chapter_id : str)
    (force_reupload : bool) :
  anyrun (upload_chapter_pdf svc file class_level chapter_id force_reupload).
Proof.
  unfold upload_chapter_pdf, upload_body, remove_file. anyrun;
    apply anyrun_process_upload.
Qed.

(** The course of an upload in which a request of the deletion loop
    failed. *)
Lemma failed_delete_course (file : list N) (class_level : Z)
    (chapter_id : str) (force_reupload : bool) (s : State) :
  let r := fst (upload_chapter_pdf svc file class_level chapter_id force_reupload s) in
  let s' := snd (upload_chapter_pdf svc file class_level chapter_id force_reupload s) in
  let new := new_events s s' in
  existsb failed_deletion new = true ->
  (exists b, FileMove b ∈ new)
  /\ (r = Ok SaveFailed
      \/ (exists b, PdfOpen b ∈ new)
         /\ (r = Ok ExtractFailed /\ chunks_of_file svc file = []
             \/ (openai_client s = true -> pinecone_client s = true ->
                 forall k chunk, chunks_of_file svc file !! k = Some chunk ->
                   exists b, EmbeddingCreate k (prefix chunk 1000) b ∈ new)
                /\ (r = Ok EmbeddingsFailed \/ r = Ok Errored
                    \/ exists a, r = Ok a
                         /\ is_processed (Z.of_nat (length (chunks_of_file svc file))) a))).
Proof.
  destruct (upload_chapter_pdf svc file class_level chapter_id force_reupload s)
    as [r s'] eqn:Hrun. cbn [fst snd]. intros Hfail.
  apply upload_paths in Hrun
    as [[Hq _] | (sp & fh & rp & rpp & s1 & Hq & Hp & Hq' & Hr)].
  { destruct (failed_deletion_not_quiet _ Hfail (new_events_quiet s s' Hq)). }
  pose proof (anyrun_process_upload svc _ _ _ _ _ _ _ _ Hp) as Hext.
  assert (Hlift : forall e, e ∈ new_events sp s1 -> e ∈ new_events s s').
  { intros e. apply new_events_mono; [apply quiet_extends, Hq | exact Hext
                                     | apply quiet_extends, Hq']. }
  destruct (extends_config _ _ (quiet_extends _ _ Hq)) as (Ho & Hpc & _).
  apply process_upload_run in Hp as (newp & Hh & (b & Hmove) & Hcases).
  rewrite <- (new_events_spec sp s1 newp Hh) in *.
  split; [exists b; apply Hlift, Hmove|].
  destruct Hcases as [-> | [(bo & Hopen) Hcases]].
  { left. destruct Hr as [[<- _] | [[=] _]]. reflexivity. }
  right. split; [exists bo; apply Hlift, Hopen|].
  destruct Hcases as [[-> Hnone] | [Hcalls (se & emb & s2 & _ & _ & Hres)]].
  { left. destruct Hr as [[<- _] | [[=] _]]. split; [reflexivity | exact Hnone]. }
  right. split.
  - intros Ho' Hp' k chunk Hk.
    destruct (Hcalls ltac:(congruence) ltac:(congruence) k chunk Hk) as (be & Hin).
    exists be. apply Hlift, Hin.
  - destruct Hr as [[<- Hnr] | [-> ->]]; [|right; left; reflexivity].
    destruct Hres as [[_ ->] | [_ [-> | Hproc]]];
      [left; reflexivity | contradiction | right; right; exact Hproc].
Qed.

(** C5 (amended).  A failed deletion does not abort the replacement.  In
    every upload in which a request of the deletion loop failed, the file
    is still moved into place; unless saving it fails the PDF is opened;
    and unless no text is extracted, an embedding is requested for every
    chunk (both clients initialised) and the upload returns what a first
    ingestion returns: the failure of [create_embeddings], an error, or
    success with the full chunk count.  Every vector that was in the
    index before the call is still there afterwards, unchanged, unless a
    delete request that succeeded named its id or an upsert that
    succeeded wrote its id: the old vectors that were not deleted stay in
    the index beside the new ones, except where a new chunk took their
    id. *)
Theorem failed_delete_does_not_abort (file : list N) (class_level : Z)
    (chapter_id : str) (force_reupload : bool) (s : State) :
  let r := fst (upload_chapter_pdf svc file class_level chapter_id force_reupload s) in
  let s' := snd (upload_chapter_pdf svc file class_level chapter_id force_reupload s) in
  let new := new_events s s' in
  existsb failed_deletion new = true ->
  (exists b, FileMove b ∈ new)
  /\ (r = Ok SaveFailed
      \/ (exists b, PdfOpen b ∈ new)
         /\ (r = Ok ExtractFailed /\ chunks_of_file svc file = []
             \/ (openai_client s = true -> pinecone_client s = true ->
                 forall k chunk, chunks_of_file svc file !! k = Some chunk ->
                   exists b, EmbeddingCreate k (prefix chunk 1000) b ∈ new)
                /\ (r = Ok EmbeddingsFailed \/ r = Ok Errored
                    \/ exists a, r = Ok a
                         /\ is_processed (Z.of_nat (length (chunks_of_file svc file))) a)))
     /\ forall k v, index s !! k = Some v ->
          index s' !! k = Some v
          \/ (exists ids, IndexDelete ids true ∈ new /\ k ∈ ids)
          \/ (exists ids, IndexUpsert ids true ∈ new /\ k ∈ ids).
Proof.
  intros r s' new Hfail.
  destruct (failed_delete_course file class_level chapter_id force_reupload s Hfail)
    as [Hmove Hcourse].
  split; [exact Hmove|]. split; [exact Hcourse|].
  subst r s' new.
  destruct (upload_chapter_pdf svc file class_level chapter_id force_reupload s)
    as [r s'] eqn:Hrun. cbn [snd].
  destruct (tracks_upload svc _ _ _ _ _ _ _ Hrun) as (new & Hh & Hix).
  rewrite (new_events_spec s s' new Hh). exact Hix.
Qed.

(** X1.  An upload never answers that a confirmation is required. *)
Lemma upload_never_requires_confirmation (file : list N) (class_level : Z)
    (chapter_id : str) (force_reupload : bool) (s s' : State) (a : UploadResult) :
  upload_chapter_pdf svc file class_level chapter_id force_reupload s = (Ok a, s') ->
  requires_confirmation a = false.
Proof.
  intros Hrun. apply upload_paths in Hrun
    as [[_ (a' & [= <-] & [Ha | ->])] | (sp & fh & rp & rpp & s1 & _ & Hp & _ & Hr)].
  - destruct a; try contradiction; reflexivity.
  - reflexivity.
  - destruct Hr as [[-> _] | [_ [= ->]]]; [|reflexivity].
    apply process_upload_run in Hp as (? & ? & ? & Hcases).
    destruct Hcases
      as [Heq | [_ [[Heq _] | [_ (_ & _ & _ & _ & _
                                  & [[_ Heq] | [_ [Heq | (a' & Heq & (? & ? & ? & ->))]]])]]]];
      try discriminate; injection Heq as ->; reflexivity.
Qed.

(** X24.  Chunks whose embedding request failed are left out of every
    upsert: each id upserted by [create_embeddings], which never raises,
    is the id of a chunk whose request succeeded.  The result of a
    processed upload reports the total number of chunks extracted,
    whatever the number embedded.  When every embedding request fails,
    [create_embeddings] makes no upsert, leaves the index as it was and
    still returns [True], so that the upload never returns the
    embeddings error. *)
Theorem embedding_failures_are_skipped (file : list N) (class_level : Z)
    (chapter_id : str) (force_reupload : bool) (s : State) :
  let r := fst (upload_chapter_pdf svc file class_level chapter_id force_reupload s) in
  (forall text_chunks se,
     exists ok se',
       create_embeddings svc text_chunks class_level chapter_id se = (Ok ok, se')
       /\ forall ids b id,
            IndexUpsert ids b ∈ new_events se se' -> id ∈ ids ->
            exists j chunk,
              text_chunks !! j = Some chunk
              /\ id = chunk_id class_level chapter_id j
              /\ EmbeddingCreate j (prefix chunk 1000) true ∈ new_events se se')
  /\ (forall a, r = Ok a -> success a = true -> duplicate_detected a = false ->
        chunks_created a = Some (Z.of_nat (length (chunks_of_file svc file))))
  /\ ((forall h input, embedding_create svc h input = None) ->
      (forall text_chunks se,
         openai_client se = true -> pinecone_client se = true ->
         exists se',
           create_embeddings svc text_chunks class_level chapter_id se = (Ok true, se')
           /\ Forall failed_embedding (new_events se se')
           /\ index se' = index se)
      /\ (openai_client s = true -> pinecone_client s = true ->
          r <> Ok EmbeddingsFailed)).
Proof.
  cbv zeta. split; [|split].
  - intros text_chunks se.
    destruct (create_embeddings_inv svc class_level chapter_id text_chunks se)
      as (ok & se' & new & Hrun & Hh & _ & _ & _ & Hup & _).
    exists ok, se'. split; [exact Hrun|]. rewrite (new_events_spec se se' new Hh).
    intros ids b id Hin Hid. destruct (Hup ids b id Hin Hid) as (j & (chunk & Hj & Hev) & ->).
    exists j, chunk. auto.
  - destruct (upload_chapter_pdf svc file class_level chapter_id force_reupload s)
      as [r s'] eqn:Hrun. cbn [fst]. intros a -> Hsucc Hdup.
    apply upload_paths in Hrun
      as [[_ (a' & [= <-] & [Ha | ->])] | (sp & fh & rp & rpp & s1 & _ & Hp & _ & Hr)].
    + destruct a; try contradiction; discriminate.
    + discriminate.
    + destruct Hr as [[-> _] | [_ [= ->]]]; [|discriminate].
      apply (process_upload_success svc _ _ _ _ _ _ _ _ Hp Hsucc).
  - intros Hfail. split.
    + intros text_chunks se Ho Hp.
      destruct (create_embeddings_all_fail svc class_level chapter_id text_chunks se
                  Hfail Ho Hp) as (se' & new & Hrun & Hh & Hall & Hix).
      exists se'. rewrite (new_events_spec se se' new Hh). auto.
    + destruct (upload_chapter_pdf svc file class_level chapter_id force_reupload s)
        as [r s'] eqn:Hrun. cbn [fst]. intros Ho Hp ->.
      apply upload_paths in Hrun
        as [[_ (a' & [= <-] & [[] | [=]])] | (sp & fh & rp & rpp & s1 & Hq & Hpr & _ & Hr)].
      destruct Hr as [[-> _] | [_ [=]]].
      destruct (extends_config _ _ (quiet_extends _ _ Hq)) as (Ho' & Hp' & _).
      apply process_upload_run in Hpr as (? & ? & ? & [[=] | [_ Hcases]]).
      destruct Hcases as [[[=] _] | [_ (se & emb & s2 & Hc & Hemb & Hres)]].
      destruct Hres as [[-> _] | [_ [[=] | (a' & [= <-] & (? & ? & ? & [=]))]]].
      destruct Hc as (Ho'' & Hp'' & _).
      destruct (create_embeddings_all_fail svc class_level chapter_id
                  (chunks_of_file svc file) se Hfail
                  ltac:(congruence) ltac:(congruence)) as (? & ? & Hrun' & _).
      rewrite Hrun' in Hemb. discriminate.
Qed.

End ReplacementFacts.

(** ** Printed numbers and chunk ids *)

Section PrintedNumbers.
Import Py.

(** The code points of the decimal digits. *)
Definition digit (c : N) : Prop := (48 <= c <= 57)%N.

(** The characters of a printed integer: digits and the minus sign. *)
Definition numeric (c : N) : Prop := digit c \/ c = 45%N.

Lemma utf8_decode_ascii (l : list N) :
  Forall (fun c => (c < 128)%N) l -> utf8_decode l = l.
Proof.
  induction 1 as [|c l Hc _ IH]; [reflexivity|].
  cbn [utf8_decode]. apply N.ltb_lt in Hc. rewrite Hc, IH. reflexivity.
Qed.

Lemma digit_pretty_N_char (x : N) : digit (N_of_ascii (pretty_N_char x)).
Proof.
  unfold pretty_N_char.
  repeat (match goal with |- context [match ?p with _ => _ end] => destruct p end);
    split; vm_compute; congruence.
Qed.

(** The code points of a string of this file's alphabet. *)
Definition codes (s : string) : list N := map N_of_ascii (list_ascii_of_string s).

Lemma digits_pretty_N_go (x : N) :
  forall s, Forall digit (codes s) -> Forall digit (codes (pretty_N_go x s)).
Proof.
  induction (N.lt_wf_0 x) as [x _ IH]. intros s Hs.
  destruct (N.eq_dec x 0%N) as [-> | Hx]; [rewrite pretty_N_go_0; exact Hs|].
  rewrite pretty_N_go_step by lia. apply IH.
  - apply N.div_lt; lia.
  - unfold codes. cbn [list_ascii_of_string map].
    constructor; [apply digit_pretty_N_char | exact Hs].
Qed.

Lemma digits_pretty_N (x : N) : Forall digit (codes (pretty x)).
Proof.
  unfold pretty, pretty_N. destruct (decide (x = 0%N)).
  - repeat constructor; vm_compute; congruence.
  - apply digits_pretty_N_go. constructor.
Qed.

Lemma numeric_pretty_Z (z : Z) : Forall numeric (codes (pretty z)).
Proof.
  assert (Hd : forall x : N, Forall numeric (codes (pretty x))).
  { intros x. eapply Forall_impl; [apply digits_pretty_N|]. intros c Hc. left. exact Hc. }
  destruct z as [|p|p]; unfold pretty, pretty_Z.
  - repeat constructor; vm_compute; congruence.
  - apply (Hd (Npos p)).
  - unfold codes. cbn [String.append list_ascii_of_string map]. constructor.
    + right. reflexivity.
    + apply (Hd (Npos p)).
Qed.

Lemma lit_codes (s : string) :
  Forall (fun c => (c < 128)%N) (codes s) -> lit s = codes s.
Proof. apply utf8_decode_ascii. Qed.

Lemma digit_ascii (c : N) : digit c -> (c < 128)%N.
Proof. unfold digit. lia. Qed.

Lemma numeric_ascii (c : N) : numeric c -> (c < 128)%N.
Proof. unfold numeric, digit. lia. Qed.

Lemma codes_inj (a b : string) : codes a = codes b -> a = b.
Proof.
  unfold codes. intros Heq.
  assert (Hl : list_ascii_of_string a = list_ascii_of_string b).
  { revert Heq. generalize (list_ascii_of_string a) (list_ascii_of_string b).
    induction l as [|x l IH]; intros [|y l']; simpl; try discriminate; [reflexivity|].
    intros [= Hxy Hrest]. f_equal; [|apply IH, Hrest].
    rewrite <- (ascii_N_embedding x), <- (ascii_N_embedding y), Hxy. reflexivity. }
  rewrite <- (string_of_list_ascii_of_string a), <- (string_of_list_ascii_of_string b), Hl.
  reflexivity.
Qed.

Lemma str_of_nat_codes (n : nat) : str_of_nat n = codes (pretty n).
Proof.
  apply lit_codes. eapply Forall_impl; [apply (digits_pretty_N (N.of_nat n))|].
  apply digit_ascii.
Qed.

Lemma str_of_Z_codes (z : Z) : str_of_Z z = codes (pretty z).
Proof.
  apply lit_codes. eapply Forall_impl; [apply numeric_pretty_Z|]. apply numeric_ascii.
Qed.

Lemma str_of_nat_digits (n : nat) : Forall digit (str_of_nat n).
Proof. rewrite str_of_nat_codes. apply (digits_pretty_N (N.of_nat n)). Qed.

Lemma str_of_Z_numeric (z : Z) : Forall numeric (str_of_Z z).
Proof. rewrite str_of_Z_codes. apply numeric_pretty_Z. Qed.

Lemma str_of_nat_inj (i j : nat) : str_of_nat i = str_of_nat j -> i = j.
Proof.
  rewrite !str_of_nat_codes. intros Heq. apply codes_inj in Heq.
  apply (inj pretty) in Heq. exact Heq.
Qed.

Lemma str_of_Z_inj (a b : Z) : str_of_Z a = str_of_Z b -> a = b.
Proof.
  rewrite !str_of_Z_codes. intros Heq. apply codes_inj in Heq.
  apply (inj pretty) in Heq. exact Heq.
Qed.

(** Two equal strings whose heads do not hold the separator [u] are cut
    at the same place by their first [u]. *)
Lemma cut_at_first (u : N) (a a' r r' : str) :
  Forall (fun c => c <> u) a -> Forall (fun c => c <> u) a' ->
  a ++ u :: r = a' ++ u :: r' -> a = a' /\ r = r'.
Proof.
  intros Ha. revert a'. induction Ha as [|c a Hc _ IH]; intros a' Ha' Heq.
  - destruct Ha' as [|c' a' Hc' _]; simpl in Heq.
    + injection Heq as ->. split; reflexivity.
    + injection Heq as Hc'' _. congruence.
  - destruct Ha' as [|c' a' Hc' Ha']; simpl in Heq.
    + injection Heq as Hc'' _. congruence.
    + injection Heq as -> Heq. destruct (IH a' Ha' Heq) as [-> ->].
      split; reflexivity.
Qed.

Lemma cut_at_last (u : N) (a a' r r' : str) :
  Forall (fun c => c <> u) a -> Forall (fun c => c <> u) a' ->
  r ++ u :: a = r' ++ u :: a' -> a = a' /\ r = r'.
Proof.
  intros Ha Ha' Heq. apply (f_equal (@rev N)) in Heq.
  rewrite !rev_app_distr in Heq. cbn [rev] in Heq. rewrite <- !app_assoc in Heq.
  cbn [app] in Heq.
  apply cut_at_first in Heq as [H1 H2]; [|apply Forall_rev; assumption..].
  apply (f_equal (@rev N)) in H1, H2. rewrite !rev_involutive in H1, H2. auto.
Qed.

Lemma digits_without (u : N) (l : str) :
  ~ digit u -> Forall digit l -> Forall (fun c => c <> u) l.
Proof.
  intros Hu Hl. eapply Forall_impl; [exact Hl|]. intros c Hc ->. exact (Hu Hc).
Qed.

Lemma numeric_without (u : N) (l : str) :
  ~ numeric u -> Forall numeric l -> Forall (fun c => c <> u) l.
Proof.
  intros Hu Hl. eapply Forall_impl; [exact Hl|]. intros c Hc ->. exact (Hu Hc).
Qed.

End PrintedNumbers.

Section ChunkIdInjective.
Import Py Manager.

Lemma chunk_id_inj (class_level class_level' : Z) (chapter_id chapter_id' : str)
    (i j : nat) :
  chunk_id class_level chapter_id i = chunk_id class_level' chapter_id' j ->
  class_level = class_level' /\ chapter_id = chapter_id' /\ i = j.
Proof.
  assert (Hu : ~ numeric 95%N) by (unfold numeric, digit; lia).
  assert (Hd : ~ digit 95%N) by (unfold digit; lia).
  unfold chunk_id. change (lit "_") with [95%N].
  change (lit "_chunk_") with (lit "_chunk" ++ [95%N]).
  intros Heq. cbn [app] in Heq.
  apply cut_at_first in Heq as [Hcl Heq];
    [|apply (numeric_without _ _ Hu), str_of_Z_numeric..].
  apply str_of_Z_inj in Hcl. split; [exact Hcl|].
  rewrite !(app_assoc chapter_id), !(app_assoc chapter_id') in Heq.
  rewrite <- !(app_assoc _ [95%N]) in Heq. cbn [app] in Heq.
  apply cut_at_last in Heq as [Hi Hch];
    [|apply (digits_without _ _ Hd), str_of_nat_digits..].
  apply str_of_nat_inj in Hi. split; [|exact Hi].
  apply app_inv_tail in Hch. exact Hch.
Qed.

(** X2.  The vector id [{class_level}_{chapter_id}_chunk_{i}] that
    [create_embeddings] gives to a chunk determines the class level, the
    chapter id and the chunk index: two different triples never give the
    same id, so a chunk of one chapter can never overwrite the vector of
    another chapter or of another chunk. *)
Theorem chunk_ids_never_collide (class_level class_level' : Z)
    (chapter_id chapter_id' : str) (i j : nat) :
  (class_level, chapter_id, i) <> (class_level', chapter_id', j) ->
  chunk_id class_level chapter_id i <> chunk_id class_level' chapter_id' j.
Proof.
  intros Hne Heq. apply Hne. apply chunk_id_inj in Heq as (-> & -> & ->). reflexivity.
Qed.

End ChunkIdInjective.

Lemma chunk_ids_never_collide_witness :
  (9, Py.lit "real_numbers", 3%nat) <> (10, Py.lit "real_numbers", 3%nat)
  /\ Manager.chunk_id 9 (Py.lit "real_numbers") 3
     <> Manager.chunk_id 10 (Py.lit "real_numbers") 3.
Proof.
  assert (Hne : (9, Py.lit "real_numbers", 3%nat) <> (10, Py.lit "real_numbers", 3%nat))
    by discriminate.
  split; [exact Hne | exact (chunk_ids_never_collide _ _ _ _ _ _ Hne)].
Defined.

(** ** The chunks of a PDF *)

Section ExtractedChunks.
Import Py Manager.
Variable svc : Services.

(** A chunk worth keeping: more than 50 characters once stripped, and
    made of words of [W] joined by single spaces. *)
Definition kept (W : list str) (chunk : str) : Prop :=
  50 < strlen (strip chunk)
  /\ exists ws, chunk = join [SP] ws /\ Forall (fun w => w ∈ W) ws.

Lemma keep_chunk_kept (W : list str) (chunks current : list str) :
  Forall (kept W) chunks -> Forall (fun w => w ∈ W) current ->
  Forall (kept W) (keep_chunk chunks current).
Proof.
  intros Hc Hw. unfold keep_chunk.
  destruct (strlen (strip (join [SP] current)) >? 50) eqn:E; [|exact Hc].
  apply Forall_app. split; [exact Hc|]. constructor; [|constructor].
  split; [apply Z.gtb_lt in E; lia|]. exists current. split; [reflexivity | exact Hw].
Qed.

Lemma from_index_Forall {A} (P : A -> Prop) (l : list A) (k : Z) :
  Forall P l -> Forall P (from_index l k).
Proof. intros Hl. unfold from_index. destruct (k <? 0); apply Forall_drop, Hl. Qed.

Lemma pack_words_kept (W : list str) (chunk_size overlap : Z) (words : list str) :
  forall chunks current current_length,
    Forall (fun w => w ∈ W) words ->
    Forall (kept W) chunks -> Forall (fun w => w ∈ W) current ->
    Forall (kept W) (fst (pack_words chunk_size overlap words chunks current current_length))
    /\ Forall (fun w => w ∈ W)
         (snd (pack_words chunk_size overlap words chunks current current_length)).
Proof.
  induction words as [|word rest IH]; intros chunks current len Hws Hc Hcur;
    cbn [pack_words]; [split; assumption|].
  apply Forall_cons in Hws as [Hword Hrest].
  destruct ((len + strlen word >? chunk_size) && negb (bool_decide (current = []))).
  - set (current' := _ ++ [word]).
    assert (Hcur' : Forall (fun w => w ∈ W) current').
    { apply Forall_app. split; [|repeat constructor; exact Hword].
      destruct (Z.of_nat (length current) >? overlap / 10);
        [apply from_index_Forall, Hcur | constructor]. }
    pose proof (keep_chunk_kept W chunks current Hc Hcur) as Hc'.
    destruct (100 <=? length (keep_chunk chunks current))%nat;
      [split; assumption | apply IH; assumption].
  - assert (Hcur' : Forall (fun w => w ∈ W) (current ++ [word])).
    { apply Forall_app. split; [exact Hcur | repeat constructor; exact Hword]. }
    destruct (100 <=? length chunks)%nat; [split; assumption | apply IH; assumption].
Qed.

Lemma chunks_of_pages_kept (doc : list str) (chunk_size overlap : Z) :
  Forall (kept (split (join [NL] (text_pages doc))))
    (chunks_of_pages doc chunk_size overlap).
Proof.
  unfold chunks_of_pages. set (W := split _).
  destruct (pack_words_kept W chunk_size overlap W [] [] 0) as [Hc Hcur].
  { apply Forall_forall. auto. }
  { constructor. }
  { constructor. }
  destruct (pack_words chunk_size overlap W [] [] 0) as [chunks current].
  cbn [fst snd] in Hc, Hcur. apply Forall_take.
  destruct current; [exact Hc | apply keep_chunk_kept; assumption].
Qed.

(** X3.  [extract_text_chunks] never raises and makes one call, the
    opening of the PDF.  It returns at most 50 chunks, and none when the
    PDF cannot be opened; every chunk returned is longer than 50
    characters once stripped and is made of words of the text of the
    pages read, joined by single spaces. *)
Theorem extract_text_chunks_bounds (pdf : list N) (s : State) :
  exists chunks b,
    extract_text_chunks svc pdf s = (Ok chunks, log (PdfOpen b) s)
    /\ (length chunks <= 50)%nat
    /\ (fitz_open svc pdf = None -> chunks = [])
    /\ forall doc, fitz_open svc pdf = Some doc ->
         Forall (kept (split (join [NL] (text_pages doc)))) chunks.
Proof.
  unfold extract_text_chunks, extract_text_chunks_with.
  destruct (fitz_open svc pdf) as [doc|].
  - exists (chunks_of_pages doc 800 50), true. split; [reflexivity|].
    split; [unfold chunks_of_pages;
            destruct (pack_words _ _ _ _ _ _); rewrite length_take; lia|].
    split; [discriminate|]. intros doc' [= <-]. apply chunks_of_pages_kept.
  - exists [], false. split; [reflexivity|]. split; [simpl; lia|].
    split; [reflexivity | discriminate].
Qed.

End ExtractedChunks.

(** ** The vectors of a chapter in the index *)

Section ScopeFacts.
Import Py Manager.
Variable svc : Services.
Variable class_level : Z.
Variable chapter_id : str.

(** Every vector is stored under its own id. *)
Definition index_wf (ix : gmap str Vector) : Prop :=
  forall k v, ix !! k = Some v -> vec_id v = k.

Definition in_scope (v : Vector) : bool :=
  chapter_filter class_level chapter_id (vec_metadata v).

(** The vectors a query with the chapter filter can return. *)
Definition scope_vectors (ix : gmap str Vector) : list Vector :=
  List.filter in_scope (map snd (map_to_list ix)).

Lemma elem_of_scope_vectors (ix : gmap str Vector) (v : Vector) :
  v ∈ scope_vectors ix <-> in_scope v = true /\ exists k, ix !! k = Some v.
Proof.
  unfold scope_vectors. rewrite list_elem_of_In, filter_In, <- list_elem_of_In.
  rewrite list_elem_of_fmap. split.
  - intros [([k v'] & -> & Hin) Hs]. split; [exact Hs|]. exists k.
    apply elem_of_map_to_list, Hin.
  - intros [Hs (k & Hk)]. split; [|exact Hs]. exists (k, v).
    split; [reflexivity | apply elem_of_map_to_list, Hk].
Qed.

Lemma scope_vectors_nil (ix : gmap str Vector) :
  scope_vectors ix = [] <->
  forall k v, ix !! k = Some v -> in_scope v = false.
Proof.
  split.
  - intros Hnil k v Hk. destruct (in_scope v) eqn:E; [|reflexivity].
    assert (Hin : v ∈ scope_vectors ix) by (apply elem_of_scope_vectors; eauto).
    rewrite Hnil in Hin. inversion Hin.
  - intros Hall. destruct (scope_vectors ix) as [|v l] eqn:E; [reflexivity|].
    assert (Hin : v ∈ scope_vectors ix) by (rewrite E; left).
    apply elem_of_scope_vectors in Hin as [Hs (k & Hk)].
    rewrite (Hall k v Hk) in Hs. discriminate.
Qed.

Lemma index_query_run (top_k : nat) (s s' : State) (r : Res (list Vector)) :
  index_query svc top_k (chapter_filter class_level chapter_id) s = (r, s') ->
  index s' = index s /\ index_handle s' = index_handle s
  /\ (r = Raise \/ r = Ok (take top_k (scope_vectors (index s)))).
Proof.
  unfold index_query. destruct (index_handle s) eqn:Hh; simpl;
    [|intros [= <- <-]; auto].
  destruct (query_ok svc (history s)); intros [= <- <-];
    (split; [reflexivity|]; split; [exact Hh|]);
    [right; reflexivity | left; reflexivity].
Qed.

Lemma index_delete_run (ids : list str) (s s' : State) (r : Res unit) :
  index_delete svc ids s = (r, s') ->
  index_handle s' = index_handle s
  /\ (r = Raise /\ index s' = index s
      \/ r = Ok tt /\ index s' = foldr delete (index s) ids).
Proof.
  unfold index_delete. destruct (index_handle s) eqn:Hh; simpl;
    [|intros [= <- <-]; auto].
  destruct (delete_ok svc (history s)); intros [= <- <-];
    (split; [exact Hh|]); [right | left]; split; reflexivity.
Qed.

Lemma lookup_foldr_delete_Some (ids : list str) (ix : gmap str Vector)
    (k : str) (v : Vector) :
  foldr delete ix ids !! k = Some v <-> ix !! k = Some v /\ k ∉ ids.
Proof.
  induction ids as [|i ids IH]; simpl.
  - split; [intros H; split; [exact H | apply not_elem_of_nil] | intros [H _]; exact H].
  - rewrite lookup_delete_Some, IH, not_elem_of_cons. split.
    + intros (Hne & Hk & Hn). repeat split; auto.
    + intros (Hk & Hne & Hn). repeat split; auto.
Qed.

Lemma index_wf_delete (ids : list str) (ix : gmap str Vector) :
  index_wf ix -> index_wf (foldr delete ix ids).
Proof. intros Hwf k v Hk. apply lookup_foldr_delete_Some in Hk as [Hk _]. auto. Qed.

Lemma index_wf_upsert (vectors : list Vector) (ix : gmap str Vector) :
  index_wf ix -> index_wf (foldl (fun ix v => <[vec_id v := v]> ix) ix vectors).
Proof.
  intros Hwf k v Hk. apply lookup_after_upsert in Hk as [Hk | [_ Hid]]; auto.
Qed.

(** *** The existence check *)

(** X4.  [check_chapter_exists_in_pinecone] never raises and leaves
    the index as it is.  It answers [True] only when the index holds a
    vector with the class level and chapter id asked for; and when there
    is an index handle and the query does not fail, it answers [True]
    whenever the index holds such a vector.  (A missing handle or a failed
    query answers [False], whatever the index holds.) *)
Theorem check_chapter_exists_spec (s : State) :
  exists b s',
    check_chapter_exists_in_pinecone svc class_level chapter_id s = (Ok b, s')
    /\ index s' = index s
    /\ (b = true -> exists k v, index s !! k = Some v /\ in_scope v = true)
    /\ (index_handle s = true -> query_ok svc (history s) = true ->
        (exists k v, index s !! k = Some v /\ in_scope v = true) -> b = true).
Proof.
  unfold check_chapter_exists_in_pinecone, bind, attempt.
  destruct (index_query svc 1 _ s) as [r s'] eqn:E.
  pose proof (index_query_run _ _ _ _ E) as (Hix & _ & Hr).
  assert (Hne : forall l : list Vector, (0 <? length (take 1 l))%nat = true <-> l <> []).
  { intros [|x l]; split; try discriminate; try reflexivity.
    intros Hnil. destruct Hnil. reflexivity. }
  destruct r as [matches|].
  - destruct Hr as [[=] | [= ->]]. eexists _, s'. split; [reflexivity|].
    split; [exact Hix|]. split.
    + intros Hb. apply Hne in Hb. destruct (scope_vectors (index s)) as [|v l] eqn:El;
        [congruence|].
      assert (Hin : v ∈ scope_vectors (index s)) by (rewrite El; left).
      apply elem_of_scope_vectors in Hin as [Hs (k & Hk)]. eauto.
    + intros _ _ (k & v & Hk & Hs). apply Hne. intros Hnil.
      rewrite (proj1 (scope_vectors_nil _) Hnil k v Hk) in Hs. discriminate.
  - exists false, s'. split; [reflexivity|]. split; [exact Hix|].
    split; [discriminate|]. intros Hh Hq. exfalso. revert E. unfold index_query.
    rewrite Hh, Hq. discriminate.
Qed.

(** *** The deletion loop *)

Definition shrinks (ix ix' : gmap str Vector) : Prop :=
  (forall k v, ix' !! k = Some v -> ix !! k = Some v)
  /\ (forall k v, ix !! k = Some v -> in_scope v = false -> ix' !! k = Some v).

Lemma shrinks_refl (ix : gmap str Vector) : shrinks ix ix.
Proof. split; auto. Qed.

Lemma shrinks_trans (a b c : gmap str Vector) : shrinks a b -> shrinks b c -> shrinks a c.
Proof. intros [H1 H2] [H3 H4]. split; eauto. Qed.

Lemma shrinks_delete_matches (ix : gmap str Vector) (n : nat) :
  index_wf ix ->
  shrinks ix (foldr delete ix (map vec_id (take n (scope_vectors ix)))).
Proof.
  intros Hwf. split; intros k v Hk.
  - apply lookup_foldr_delete_Some in Hk as [Hk _]. exact Hk.
  - intros Hs. apply lookup_foldr_delete_Some. split; [exact Hk|].
    intros Hin. apply list_elem_of_fmap in Hin as (w & -> & Hw).
    apply elem_of_take in Hw as (i & Hw & _). apply list_elem_of_lookup_2 in Hw.
    apply elem_of_scope_vectors in Hw as [Hws (k' & Hk')].
    rewrite <- (Hwf _ _ Hk') in Hk'. rewrite Hk in Hk'. injection Hk' as ->. congruence.
Qed.

Lemma delete_batches_shrinks (fuel : nat) :
  forall all_ids s r s',
    delete_batches svc fuel class_level chapter_id all_ids s = (r, s') ->
    index_wf (index s) ->
    shrinks (index s) (index s') /\ index_wf (index s').
Proof.
  induction fuel as [|fuel IH]; intros all_ids s r s'; cbn [delete_batches].
  - intros [= <- <-] Hwf. split; [apply shrinks_refl | exact Hwf].
  - unfold bind at 1. destruct (index_query svc 100 _ s) as [rq s1] eqn:Eq.
    pose proof (index_query_run _ _ _ _ Eq) as (Hix & _ & Hr).
    destruct rq as [matches|].
    2:{ intros [= <- <-] Hwf. rewrite Hix. split; [apply shrinks_refl | exact Hwf]. }
    destruct Hr as [[=] | [= ->]].
    destruct (take 100 (scope_vectors (index s))) as [|m ms] eqn:Em.
    { intros [= <- <-] Hwf. rewrite Hix. split; [apply shrinks_refl | exact Hwf]. }
    rewrite <- Em. unfold bind.
    destruct (index_delete svc _ s1) as [rd s2] eqn:Ed.
    pose proof (index_delete_run _ _ _ _ Ed) as (_ & Hd).
    destruct Hd as [[-> Hix2] | [-> Hix2]].
    { intros [= <- <-] Hwf. rewrite Hix2, Hix. split; [apply shrinks_refl | exact Hwf]. }
    intros Hrun Hwf. rewrite Hix in Hix2.
    assert (Hwf2 : index_wf (index s2)) by (rewrite Hix2; apply index_wf_delete, Hwf).
    destruct (IH _ _ _ _ Hrun Hwf2) as [Hsh Hwf'].
    split; [|exact Hwf']. eapply shrinks_trans; [|exact Hsh].
    rewrite Hix2. apply shrinks_delete_matches, Hwf.
Qed.

(** X5.  On an index that stores every vector under its own id,
    [delete_existing_chapter_chunks] never raises, leaves the chapter
    records alone, and only removes vectors of the chapter it is called
    for: nothing is added or altered, and every vector of another chapter
    or class is still there afterwards. *)
Theorem delete_existing_only_removes_scope (s : State) :
  index_wf (index s) ->
  exists b s',
    delete_existing_chapter_chunks svc class_level chapter_id s = (Ok b, s')
    /\ chapter_metadata s' = chapter_metadata s
    /\ index_wf (index s')
    /\ (forall k v, index s' !! k = Some v -> index s !! k = Some v)
    /\ (forall k v, index s !! k = Some v -> in_scope v = false ->
          index s' !! k = Some v).
Proof.
  intros Hwf. unfold delete_existing_chapter_chunks, bind, attempt.
  destruct (delete_batches svc 10 class_level chapter_id [] s) as [r s'] eqn:E.
  destruct (delete_batches_shrinks _ _ _ _ _ E Hwf) as [[H1 H2] Hwf'].
  assert (Hmd : chapter_metadata s' = chapter_metadata s).
  { assert (Hp : preserves (fun _ => True) (fun _ _ => True) eq
                   (delete_existing_chapter_chunks svc class_level chapter_id)).
    { apply preserves_delete_existing; try (intros; exact Logic.I);
        try reflexivity; intros; congruence. }
    unfold preserves, delete_existing_chapter_chunks, bind, attempt in Hp.
    specialize (Hp s). rewrite E in Hp.
    destruct r as [[|i ids]|]; destruct (Hp _ _ eq_refl) as (_ & _ & _ & Hm);
      symmetry; exact Hm. }
  destruct r as [[|i ids]|]; eexists _, s'; (split; [reflexivity|]); auto.
Qed.

(** *** Counting the vectors of the chapter *)

Lemma filter_length_perm {A} (f : A -> bool) (l l' : list A) :
  l ≡ₚ l' -> length (List.filter f l) = length (List.filter f l').
Proof.
  induction 1 as [|x l l' _ IH|x y l|l l' l'' _ IH1 _ IH2]; simpl.
  - reflexivity.
  - destruct (f x); simpl; congruence.
  - destruct (f x), (f y); reflexivity.
  - congruence.
Qed.

Lemma scope_vectors_delete (ix : gmap str Vector) (k : str) (v : Vector) :
  ix !! k = Some v -> in_scope v = true ->
  length (scope_vectors ix) = S (length (scope_vectors (delete k ix))).
Proof.
  intros Hk Hs. unfold scope_vectors.
  rewrite <- (filter_length_perm _ (map snd ((k, v) :: map_to_list (delete k ix)))).
  - simpl. rewrite Hs. reflexivity.
  - apply fmap_Permutation, map_to_list_delete, Hk.
Qed.

Lemma scope_vectors_delete_list (ids : list str) (ix : gmap str Vector) :
  NoDup ids ->
  (forall k, k ∈ ids -> exists v, ix !! k = Some v /\ in_scope v = true) ->
  length (scope_vectors ix)
  = (length ids + length (scope_vectors (foldr delete ix ids)))%nat.
Proof.
  induction 1 as [|k ids Hk Hnd IH]; intros Hin; [reflexivity|]. simpl.
  rewrite IH by (intros k' Hk'; apply Hin; right; exact Hk').
  destruct (Hin k ltac:(left)) as (v & Hv & Hs).
  rewrite (scope_vectors_delete (foldr delete ix ids) k v); [lia | | exact Hs].
  apply lookup_foldr_delete_Some. auto.
Qed.

Lemma NoDup_scope_ids (l : list (str * Vector)) :
  (forall k v, (k, v) ∈ l -> vec_id v = k) -> NoDup (map fst l) ->
  NoDup (map vec_id (List.filter in_scope (map snd l))).
Proof.
  induction l as [|[k v] l IH]; intros Hl Hnd; [constructor|].
  cbn [map] in Hnd. apply NoDup_cons in Hnd as [Hk Hnd].
  assert (IHl : NoDup (map vec_id (List.filter in_scope (map snd l)))).
  { apply IH; [|exact Hnd]. intros k' v' Hin. apply Hl. right. exact Hin. }
  cbn [map List.filter snd]. destruct (in_scope v); [|exact IHl].
  cbn [map]. apply NoDup_cons. split; [|exact IHl].
  intros Hin. apply Hk.
  apply list_elem_of_fmap in Hin as (w & Hwv & Hw).
  apply list_elem_of_In, filter_In in Hw as [Hw _].
  apply list_elem_of_In, list_elem_of_fmap in Hw as ([k' w'] & Heq & Hw).
  cbn [snd] in Heq. subst w.
  pose proof (Hl k v ltac:(left)) as Hkv.
  pose proof (Hl k' w' ltac:(right; exact Hw)) as Hkw.
  apply list_elem_of_fmap. exists (k', w'). split; [cbn [fst]; congruence | exact Hw].
Qed.

Lemma scope_ids_NoDup (ix : gmap str Vector) (n : nat) :
  index_wf ix -> NoDup (map vec_id (take n (scope_vectors ix))).
Proof.
  intros Hwf.
  assert (Hall : NoDup (map vec_id (scope_vectors ix))).
  { apply NoDup_scope_ids; [|apply NoDup_fst_map_to_list].
    intros k v Hkv. apply elem_of_map_to_list in Hkv. apply Hwf, Hkv. }
  rewrite <- (take_drop n (scope_vectors ix)), fmap_app in Hall.
  apply NoDup_app in Hall as [Hall _]. exact Hall.
Qed.

Lemma scope_after_matches (ix : gmap str Vector) (n : nat) :
  index_wf ix ->
  length (scope_vectors ix)
  = (length (take n (scope_vectors ix))
     + length (scope_vectors
                 (foldr delete ix (map vec_id (take n (scope_vectors ix))))))%nat.
Proof.
  intros Hwf. rewrite <- (length_map vec_id (take n _)) at 1.
  apply scope_vectors_delete_list; [apply scope_ids_NoDup, Hwf|].
  intros k Hk. apply list_elem_of_fmap in Hk as (v & -> & Hv).
  apply elem_of_take in Hv as (i & Hv & _). apply list_elem_of_lookup_2 in Hv.
  apply elem_of_scope_vectors in Hv as [Hs (k & Hk)].
  exists v. rewrite (Hwf _ _ Hk). auto.
Qed.

Section Reliable.
Hypothesis query_works : forall h, query_ok svc h = true.
Hypothesis delete_works : forall h, delete_ok svc h = true.

Lemma index_query_works (top_k : nat) (s : State) :
  index_handle s = true ->
  index_query svc top_k (chapter_filter class_level chapter_id) s
  = (Ok (take top_k (scope_vectors (index s))), log (IndexQuery top_k true) s).
Proof using query_works.
  intros Hh. unfold index_query. rewrite Hh, query_works. reflexivity.
Qed.

Lemma index_delete_works (ids : list str) (s : State) :
  index_handle s = true ->
  index_delete svc ids s
  = (Ok tt, log (IndexDelete ids true) (set_index (foldr delete (index s) ids) s)).
Proof using delete_works.
  intros Hh. unfold index_delete. rewrite Hh, delete_works. reflexivity.
Qed.

Lemma delete_batches_clears (fuel : nat) :
  forall all_ids s,
    index_handle s = true -> index_wf (index s) ->
    (length (scope_vectors (index s)) <= 100 * fuel)%nat ->
    exists ids s',
      delete_batches svc fuel class_level chapter_id all_ids s = (Ok (all_ids ++ ids), s')
      /\ scope_vectors (index s') = []
      /\ length ids = length (scope_vectors (index s)).
Proof using query_works delete_works.
  induction fuel as [|fuel IH]; intros all_ids s Hh Hwf Hlen; cbn [delete_batches].
  - exists [], s. rewrite app_nil_r. split; [reflexivity|].
    destruct (scope_vectors (index s)); [auto | simpl in Hlen; lia].
  - unfold bind at 1. rewrite (index_query_works 100 s Hh).
    destruct (take 100 (scope_vectors (index s))) as [|m ms] eqn:Em.
    { exists [], (log (IndexQuery 100 true) s). rewrite app_nil_r.
      split; [reflexivity|]. cbn [index log].
      destruct (scope_vectors (index s)); [auto | discriminate]. }
    rewrite <- Em. unfold bind at 1.
    rewrite (index_delete_works _ (log (IndexQuery 100 true) s) Hh).
    set (ids := map vec_id (take 100 (scope_vectors (index s)))).
    set (s2 := log (IndexDelete ids true) _).
    pose proof (scope_after_matches (index s) 100 Hwf) as Hcount. fold ids in Hcount.
    destruct (IH (all_ids ++ ids) s2) as (ids' & s' & Hrun & Hnil & Hlen').
    + exact Hh.
    + apply index_wf_delete, Hwf.
    + cbn [index s2 log set_index]. rewrite length_take in Hcount. lia.
    + exists (ids ++ ids'), s'. rewrite app_assoc. split; [exact Hrun|].
      split; [exact Hnil|]. rewrite length_app, Hlen'. cbn [index s2 log set_index].
      unfold ids at 1. rewrite length_map. lia.
Qed.

(** X6.  When the queries and the deletions of the index do not
    fail, there is an index handle, and the chapter has at most 1000
    vectors (the [top_k] of the query), [delete_existing_chapter_chunks]
    leaves no vector of the chapter in the index, and it returns [True]
    exactly when the chapter had a vector. *)
Theorem delete_existing_clears_scope (s : State) :
  index_handle s = true ->
  index_wf (index s) ->
  (length (scope_vectors (index s)) <= 1000)%nat ->
  exists b s',
    delete_existing_chapter_chunks svc class_level chapter_id s = (Ok b, s')
    /\ (forall k v, index s' !! k = Some v -> in_scope v = false)
    /\ (b = true <-> exists k v, index s !! k = Some v /\ in_scope v = true).
Proof using query_works delete_works.
  intros Hh Hwf Hlen.
  destruct (delete_batches_clears 10 [] s Hh Hwf ltac:(lia)) as (ids & s' & Hrun & Hnil & Hl).
  unfold delete_existing_chapter_chunks, bind, attempt. rewrite Hrun. cbn [app].
  exists (match ids with [] => false | _ => true end), s'.
  split; [destruct ids; reflexivity|]. split; [exact (proj1 (scope_vectors_nil _) Hnil)|].
  split.
  - intros Hb. destruct ids as [|i ids]; [discriminate|].
    destruct (scope_vectors (index s)) as [|v l] eqn:El; [discriminate|].
    assert (Hin : v ∈ scope_vectors (index s)) by (rewrite El; left).
    apply elem_of_scope_vectors in Hin as [Hs (k & Hk)]. eauto.
  - intros (k & v & Hk & Hs). destruct ids; [|reflexivity].
    destruct (scope_vectors (index s)) as [|w l] eqn:El; [|discriminate].
    rewrite (proj1 (scope_vectors_nil _) El k v Hk) in Hs. discriminate.
Qed.

End Reliable.

End ScopeFacts.

(** ** Embedding with services that answer *)

Section EmbeddingComplete.
Import Py Manager.
Variable svc : Services.
Variable class_level : Z.
Variable chapter_id : str.
Variable text_chunks : list str.
Variable s0 : State.
Hypothesis embedding_works : forall h input, is_Some (embedding_create svc h input).
Hypothesis upsert_works : forall h, upsert_ok svc h = true.
Hypothesis has_index : index_handle s0 = true.

(** The vector written for chunk [j]. *)
Definition vector_of_chunk (j : nat) (chunk : str) (v : Vector) : Prop :=
  vec_id v = chunk_id class_level chapter_id j
  /\ v_chunk_index (vec_metadata v) = j
  /\ v_text (vec_metadata v) = prefix chunk 500
  /\ v_class_level (vec_metadata v) = class_level
  /\ v_chapter_id (vec_metadata v) = chapter_id.

Definition vector_of_some_chunk (v : Vector) : Prop :=
  exists j chunk, text_chunks !! j = Some chunk /\ vector_of_chunk j chunk v.

(** The chunks below [i] are in the index or in the batch being filled;
    keys that are no chunk id of the chapter are as they were. *)
Definition complete_inv (i : nat) (vectors : list Vector) (s : State) : Prop :=
  index_handle s = true
  /\ Forall vector_of_some_chunk vectors
  /\ (forall j chunk, (j < i)%nat -> text_chunks !! j = Some chunk ->
        (exists v, index s !! chunk_id class_level chapter_id j = Some v
                   /\ vector_of_chunk j chunk v)
        \/ exists v, v ∈ vectors /\ vec_id v = chunk_id class_level chapter_id j)
  /\ (forall k, (forall j, k <> chunk_id class_level chapter_id j) ->
        index s !! k = index s0 !! k).

Lemma vector_of_some_chunk_at (v : Vector) (j : nat) (chunk : str) :
  vector_of_some_chunk v -> vec_id v = chunk_id class_level chapter_id j ->
  text_chunks !! j = Some chunk -> vector_of_chunk j chunk v.
Proof.
  intros (j' & chunk' & Hj' & Hv) Hid Hj. pose proof Hv as (Hid' & _).
  rewrite Hid in Hid'. apply chunk_id_inj in Hid' as (_ & _ & ->).
  rewrite Hj in Hj'. injection Hj' as <-. exact Hv.
Qed.

Lemma lookup_upsert_ne (vectors : list Vector) (ix : gmap str Vector) (k : str) :
  (forall v, v ∈ vectors -> vec_id v <> k) ->
  foldl (fun ix v => <[vec_id v := v]> ix) ix vectors !! k = ix !! k.
Proof.
  revert ix. induction vectors as [|x vs IH]; intros ix Hne; [reflexivity|]. simpl.
  rewrite IH by (intros v Hv; apply Hne; right; exact Hv).
  apply lookup_insert_ne, Hne. left.
Qed.

Lemma lookup_upsert_cases (vectors : list Vector) (ix : gmap str Vector) (k : str) :
  (exists w, w ∈ vectors /\ vec_id w = k
             /\ foldl (fun ix v => <[vec_id v := v]> ix) ix vectors !! k = Some w)
  \/ ((forall w, w ∈ vectors -> vec_id w <> k)
      /\ foldl (fun ix v => <[vec_id v := v]> ix) ix vectors !! k = ix !! k).
Proof.
  revert ix. induction vectors as [|x vs IH]; intros ix.
  - right. split; [intros w Hw; inversion Hw | reflexivity].
  - simpl. destruct (IH (<[vec_id x := x]> ix)) as [(w & Hw & Hid & Hl) | [Hno Hl]].
    + left. exists w. split; [right; exact Hw | auto].
    + destruct (decide (vec_id x = k)) as [Hx | Hx].
      * left. exists x. split; [left|]. split; [exact Hx|].
        rewrite Hl, <- Hx. apply lookup_insert_eq.
      * right. split.
        -- intros w Hw. apply elem_of_cons in Hw as [-> | Hw]; [exact Hx | apply Hno, Hw].
        -- rewrite Hl. apply lookup_insert_ne, Hx.
Qed.

Lemma complete_inv_upsert (i : nat) (vectors : list Vector) (s : State) (e : Event) :
  complete_inv i vectors s ->
  complete_inv i []
    (log e (set_index (foldl (fun ix v => <[vec_id v := v]> ix) (index s) vectors) s)).
Proof.
  intros (Hh & Hvs & Hdone & Hframe). rewrite Forall_forall in Hvs.
  split; [exact Hh|]. split; [constructor|]. split.
  - intros j chunk Hj Hchunk. left. cbn [index log set_index].
    destruct (lookup_upsert_cases vectors (index s) (chunk_id class_level chapter_id j))
      as [(w & Hw & Hid & Hl) | [Hno Hl]].
    + exists w. split; [exact Hl|].
      apply (vector_of_some_chunk_at w j chunk); auto.
    + destruct (Hdone j chunk Hj Hchunk) as [(v & Hv & Hgood) | (v & Hv & Hid)].
      * exists v. split; [rewrite Hl; exact Hv | exact Hgood].
      * destruct (Hno v Hv Hid).
  - intros k Hk. cbn [index log set_index]. rewrite lookup_upsert_ne; [apply Hframe, Hk|].
    intros v Hv Hid. destruct (Hvs v Hv) as (j & chunk & _ & Hvid & _).
    apply (Hk j). congruence.
Qed.

Lemma complete_inv_log (i : nat) (vectors : list Vector) (s : State) (e : Event) :
  complete_inv i vectors s -> complete_inv i vectors (log e s).
Proof. intros H. exact H. Qed.

Lemma complete_inv_next (i : nat) (vectors : list Vector) (s : State)
    (chunk : str) (v : Vector) :
  text_chunks !! i = Some chunk -> vector_of_chunk i chunk v ->
  complete_inv i vectors s -> complete_inv (S i) (vectors ++ [v]) s.
Proof.
  intros Hi Hv (Hh & Hvs & Hdone & Hframe).
  split; [exact Hh|]. split.
  { apply Forall_app. split; [exact Hvs|]. repeat constructor. exists i, chunk. auto. }
  split; [|exact Hframe].
  intros j chunk' Hj Hchunk'. destruct (decide (j = i)) as [-> | Hne].
  - right. exists v. split; [apply elem_of_app; right; left | apply Hv].
  - destruct (Hdone j chunk' ltac:(lia) Hchunk') as [H | (w & Hw & Hid)]; [left; exact H|].
    right. exists w. split; [apply elem_of_app; left; exact Hw | exact Hid].
Qed.

Lemma embed_chunks_complete (rest : list str) :
  forall (i : nat) (vectors : list Vector) (s : State),
    (forall k chunk, rest !! k = Some chunk -> text_chunks !! (i + k)%nat = Some chunk) ->
    complete_inv i vectors s ->
    exists vs s',
      embed_chunks svc class_level chapter_id i rest vectors s = (Ok vs, s')
      /\ complete_inv (i + length rest) vs s'.
Proof using embedding_works upsert_works.
  induction rest as [|chunk rest IH]; intros i vectors s Hrest Hinv.
  - exists vectors, s. split; [reflexivity|]. rewrite Nat.add_0_r. exact Hinv.
  - rewrite embed_chunks_cons.
    destruct (embedding_works (history s) (prefix chunk 1000)) as [embedding ->].
    cbv zeta. set (s1 := log _ s). set (v := mkVector _ _ _).
    assert (Hi : text_chunks !! i = Some chunk).
    { rewrite <- (Nat.add_0_r i). apply Hrest. reflexivity. }
    assert (Hv : vector_of_chunk i chunk v) by (repeat split).
    assert (Hrest' : forall k c, rest !! k = Some c ->
                       text_chunks !! (S i + k)%nat = Some c).
    { intros k c Hk. replace (S i + k)%nat with (i + S k)%nat by lia.
      apply Hrest. exact Hk. }
    pose proof (complete_inv_next i vectors s1 chunk v Hi Hv Hinv) as Hinv'.
    cbn [length]. replace (i + S (length rest))%nat with (S i + length rest)%nat by lia.
    destruct (batch_size <=? length (vectors ++ [v]))%nat; [|apply IH; assumption].
    unfold index_upsert. destruct Hinv' as (Hh & Hrest2).
    rewrite Hh, upsert_works. cbn [negb]. apply IH; [exact Hrest'|].
    apply complete_inv_upsert. split; assumption.
Qed.

(** X7.  When both clients are initialised, there is an index
    handle and neither the embedding requests nor the upserts fail,
    [create_embeddings] returns [True] and every chunk [j] of the list has
    its vector in the index, under the id of chunk [j], with the chunk
    index [j], the first 500 characters of the chunk as text, and the
    class level and chapter id of the call; entries of the index under any
    other key are unchanged. *)
Theorem create_embeddings_stores_every_chunk :
  openai_client s0 = true -> pinecone_client s0 = true ->
  exists s',
    create_embeddings svc text_chunks class_level chapter_id s0 = (Ok true, s')
    /\ (forall j chunk, text_chunks !! j = Some chunk ->
          exists v, index s' !! chunk_id class_level chapter_id j = Some v
                    /\ vector_of_chunk j chunk v)
    /\ (forall k, (forall j, k <> chunk_id class_level chapter_id j) ->
          index s' !! k = index s0 !! k).
Proof using embedding_works upsert_works has_index.
  intros Ho Hp. unfold create_embeddings, bind at 1, get. rewrite Ho, Hp. cbn [negb orb].
  destruct (embed_chunks_complete text_chunks 0 [] s0) as (vs & s1 & Hrun & Hinv).
  { intros k chunk Hk. exact Hk. }
  { split; [exact has_index|]. split; [constructor|]. split; [intros; lia | reflexivity]. }
  unfold bind, attempt. rewrite Hrun. cbn [Nat.add] in Hinv.
  assert (Hfinal : exists s',
            match vs with [] => ret tt | _ => index_upsert svc vs end s1 = (Ok tt, s')
            /\ complete_inv (length text_chunks) [] s').
  { destruct vs as [|v vs'].
    - exists s1. split; [reflexivity | exact Hinv].
    - unfold index_upsert. destruct Hinv as (Hh & Hrest). rewrite Hh, upsert_works.
      eexists. split; [reflexivity|]. apply complete_inv_upsert. split; assumption. }
  destruct Hfinal as (s' & Hup & (_ & _ & Hdone & Hframe)). rewrite Hup.
  exists s'. split; [reflexivity|]. split; [|exact Hframe].
  intros j chunk Hj. destruct (Hdone j chunk) as [H | (v & Hv & _)];
    [apply lookup_lt_Some in Hj; exact Hj | exact Hj | exact H | inversion Hv].
Qed.

End EmbeddingComplete.

(** ** What an upload and a deletion may change *)

Section UploadFrame.
Import Py Manager.
Variable svc : Services.
Variable Q : Event -> Prop.
Variable I : gmap str Vector -> gmap str Vector -> Prop.
Variable Mt : gmap str (gmap str ChapterMeta) -> gmap str (gmap str ChapterMeta) -> Prop.
Variable class_level : Z.
Variable chapter_id : str.

Hypothesis Q_other :
  forall e, match e with
            | AdminUpload _ _ | SignedUpload _ _ | BlobDelete _ _ => False
            | _ => True
            end -> Q e.
Hypothesis Q_admin : forall o, Q (AdminUpload (firebase_path_of class_level chapter_id) o).
Hypothesis Q_signed : forall b, Q (SignedUpload (firebase_path_of class_level chapter_id) b).
Hypothesis Q_blob :
  forall b, Q (BlobDelete (lit "chapters/" ++ filename_of class_level chapter_id) b).
Hypothesis I_refl : forall ix, I ix ix.
Hypothesis I_trans : forall a b c, I a b -> I b c -> I a c.
Hypothesis Mt_refl : forall md, Mt md md.
Hypothesis Mt_trans : forall a b c, Mt a b -> Mt b c -> Mt a c.
Hypothesis I_upsert :
  forall ix vectors, I ix (foldl (fun ix v => <[vec_id v := v]> ix) ix vectors).
Hypothesis I_delete : forall ix ids, I ix (foldr delete ix ids).
Hypothesis Mt_store :
  forall md m, Mt md (<[chapter_key_of class_level :=
                          <[chapter_id := m]>
                            (default ∅ (md !! chapter_key_of class_level))]> md).
Hypothesis Mt_drop :
  forall md, Mt md (alter (delete chapter_id) (chapter_key_of class_level) md).

Lemma changes_skip_identical (file_hash : str) (existing : option ChapterMeta) :
  preserves Q I Mt (skip_identical svc class_level chapter_id file_hash existing).
Proof using Q_other Q_admin Q_signed I_refl I_trans Mt_refl Mt_trans Mt_store.
  unfold skip_identical, remove_file, save_metadata. destruct existing as [m|]; changes.
Qed.

Lemma changes_process_upload (file : list N) (file_hash : str) (replace : bool) :
  preserves Q I Mt (process_upload svc file class_level chapter_id file_hash replace).
Proof using Q_other Q_admin Q_signed I_refl I_trans Mt_refl Mt_trans
  I_upsert I_delete Mt_store.
  unfold process_upload, remove_file, save_metadata. changes.
Qed.

Lemma changes_upload (file : list N) (force_reupload : bool) :
  preserves Q I Mt (upload_chapter_pdf svc file class_level chapter_id force_reupload).
Proof using Q_other Q_admin Q_signed I_refl I_trans Mt_refl Mt_trans
  I_upsert I_delete Mt_store.
  unfold upload_chapter_pdf, upload_body, remove_file. changes;
    first [apply changes_process_upload | apply changes_skip_identical].
Qed.

Lemma changes_delete_chapter :
  preserves Q I Mt (delete_chapter svc class_level chapter_id).
Proof using Q_other Q_blob I_refl I_trans Mt_refl Mt_trans I_delete Mt_drop.
  unfold delete_chapter, remove_file, save_metadata. changes.
  apply preserves_modify. intros s. apply related_set_metadata; auto.
Qed.

End UploadFrame.

Section UploadEffects.
Import Py Manager.
Variable svc : Services.
Variable class_level : Z.
Variable chapter_id : str.

(** [md] and [md'] hold the same record everywhere but at the chapter. *)
Definition same_elsewhere (md md' : gmap str (gmap str ChapterMeta)) : Prop :=
  forall key c, (key, c) <> (chapter_key_of class_level, chapter_id) ->
    (md' !! key) ≫= (fun chapters => chapters !! c)
    = (md !! key) ≫= (fun chapters => chapters !! c).

Lemma same_elsewhere_refl md : same_elsewhere md md.
Proof. intros key c _. reflexivity. Qed.

Lemma same_elsewhere_trans a b c :
  same_elsewhere a b -> same_elsewhere b c -> same_elsewhere a c.
Proof. intros H1 H2 key ch Hne. rewrite (H2 key ch Hne). apply H1, Hne. Qed.

Lemma same_elsewhere_store md m :
  same_elsewhere md
    (<[chapter_key_of class_level :=
         <[chapter_id := m]> (default ∅ (md !! chapter_key_of class_level))]> md).
Proof.
  intros key c Hne. destruct (decide (key = chapter_key_of class_level)) as [-> | Hk].
  - rewrite lookup_insert_eq. cbn [mbind option_bind].
    rewrite lookup_insert_ne by congruence.
    destruct (md !! chapter_key_of class_level); [reflexivity | apply lookup_empty].
  - rewrite lookup_insert_ne by congruence. reflexivity.
Qed.

Lemma same_elsewhere_drop md :
  same_elsewhere md (alter (delete chapter_id) (chapter_key_of class_level) md).
Proof.
  intros key c Hne. destruct (decide (key = chapter_key_of class_level)) as [-> | Hk].
  - rewrite lookup_alter_eq. destruct (md !! chapter_key_of class_level); [|reflexivity].
    cbn. apply lookup_delete_ne. congruence.
  - rewrite lookup_alter_ne by congruence. reflexivity.
Qed.

Lemma lookup_metadata_bind (s : State) (key c : str) :
  lookup_metadata s key c = (chapter_metadata s !! key) ≫= (fun chapters => chapters !! c).
Proof. unfold lookup_metadata. destruct (chapter_metadata s !! key); reflexivity. Qed.

(** *** Metadata is written on success only *)

Definition keeps_metadata {A} (m : M A) : Prop :=
  preserves (fun _ => True) (fun _ _ => True) eq m.

(** The metadata is as it was, unless the result is a success. *)
Definition guarded (m : M UploadResult) : Prop :=
  forall s r s', m s = (r, s') ->
    chapter_metadata s' = chapter_metadata s \/ exists a, r = Ok a /\ success a = true.

Lemma guarded_keeps (m : M UploadResult) : keeps_metadata m -> guarded m.
Proof. intros Hm s r s' Hrun. left. symmetry. apply (Hm _ _ _ Hrun). Qed.

Lemma guarded_yields (m : M UploadResult) :
  yields (fun a => success a = true) m -> guarded m.
Proof. intros Hm s r s' Hrun. right. apply (Hm _ _ _ Hrun). Qed.

Lemma guarded_bind {A} (m : M A) (k : A -> M UploadResult) :
  keeps_metadata m -> (forall a, guarded (k a)) -> guarded (bind m k).
Proof.
  intros Hm Hk s r s'. unfold bind. destruct (m s) as [[a|] s1] eqn:E; intros Hrun.
  - destruct (Hm _ _ _ E) as (_ & _ & _ & Hmd).
    destruct (Hk a _ _ _ Hrun) as [Heq | Hok]; [left; congruence | right; exact Hok].
  - injection Hrun as <- <-. left. symmetry. apply (Hm _ _ _ E).
Qed.

Ltac guarding_step :=
  lazymatch goal with
  | |- guarded (if ?b then _ else _) => destruct b
  | |- guarded (match ?x with _ => _ end) => destruct x
  | |- guarded (let _ := _ in _) => cbv zeta
  | |- guarded (bind _ _) =>
      first [ simple apply guarded_bind;
              [solve [unfold keeps_metadata; changes] | intros ?]
            | simple apply guarded_yields; solve [total] ]
  | |- guarded _ =>
      first [ simple apply guarded_keeps; solve [unfold keeps_metadata; changes]
            | simple apply guarded_yields; solve [total] ]
  end.

Ltac guarding := repeat guarding_step.

Lemma guarded_process_upload (file : list N) (file_hash : str) (replace : bool) :
  guarded (process_upload svc file class_level chapter_id file_hash replace).
Proof. unfold process_upload, remove_file, save_metadata. guarding. Qed.

Lemma guarded_skip_identical (file_hash : str) (existing : option ChapterMeta) :
  guarded (skip_identical svc class_level chapter_id file_hash existing).
Proof. unfold skip_identical, remove_file, save_metadata. guarding. Qed.

Lemma guarded_upload_body (file : list N) (force_reupload : bool) :
  guarded (upload_body svc file class_level chapter_id force_reupload).
Proof.
  unfold upload_body, remove_file.
  repeat first [ simple apply guarded_process_upload
               | simple apply guarded_skip_identical
               | guarding_step ].
Qed.

(** X8.  [upload_chapter_pdf] touches no chapter record but the one
    of the class level and chapter id it is called for; and when it
    returns a result without success, the chapter records are all as they
    were before the call. *)
Theorem upload_writes_one_record_on_success (file : list N) (force_reupload : bool)
    (s : State) :
  let r := fst (upload_chapter_pdf svc file class_level chapter_id force_reupload s) in
  let s' := snd (upload_chapter_pdf svc file class_level chapter_id force_reupload s) in
  (forall key c, (key, c) <> (chapter_key_of class_level, chapter_id) ->
     lookup_metadata s' key c = lookup_metadata s key c)
  /\ (forall a, r = Ok a -> success a = false ->
        chapter_metadata s' = chapter_metadata s).
Proof.
  destruct (upload_chapter_pdf svc file class_level chapter_id force_reupload s)
    as [r s'] eqn:Hrun. cbn [fst snd]. split.
  - intros key c Hne. rewrite !lookup_metadata_bind.
    assert (Hp : preserves (fun _ => True) (fun _ _ => True) same_elsewhere
                   (upload_chapter_pdf svc file class_level chapter_id force_reupload)).
    { apply changes_upload; auto using same_elsewhere_refl, same_elsewhere_store.
      apply same_elsewhere_trans. }
    destruct (Hp _ _ _ Hrun) as (_ & _ & _ & Hmd). apply Hmd, Hne.
  - intros a -> Hfail. revert Hrun. unfold upload_chapter_pdf, bind, attempt.
    destruct (upload_body svc file class_level chapter_id force_reupload s)
      as [rb s1] eqn:Hbody.
    destruct (guarded_upload_body file force_reupload _ _ _ Hbody)
      as [Hmd | (a' & -> & Hok)].
    + destruct rb as [a'|]; unfold ret, local_file_exists, remove_file, call.
      * intros [= <- <-]. exact Hmd.
      * destruct (path_exists svc _ _); [destruct (remove_ok svc _)|];
          intros [= <- <-]; exact Hmd.
    + intros [= <- <-]. congruence.
Qed.

(** *** Deleting a chapter *)

Lemma index_delete_keeps_metadata (ids : list str) (s0 : State) (r0 : Res unit)
    (s1 : State) :
  index_delete svc ids s0 = (r0, s1) -> chapter_metadata s1 = chapter_metadata s0.
Proof.
  unfold index_delete.
  destruct (negb (index_handle s0)); [intros [= <- <-]; reflexivity|].
  destruct (delete_ok svc (history s0)); intros [= <- <-]; reflexivity.
Qed.

Lemma delete_chapter_run (s : State) :
  exists r s',
    delete_chapter svc class_level chapter_id s = (Ok r, s')
    /\ (forall key c, (key, c) <> (chapter_key_of class_level, chapter_id) ->
          lookup_metadata s' key c = lookup_metadata s key c)
    /\ match r with
       | Deleted => lookup_metadata s' (chapter_key_of class_level) chapter_id = None
       | DeleteErrored => chapter_metadata s' = chapter_metadata s
       end.
Proof.
  destruct (delete_chapter svc class_level chapter_id s) as [r s'] eqn:Hrun.
  assert (Hp : preserves (fun _ => True) (fun _ _ => True) same_elsewhere
                 (delete_chapter svc class_level chapter_id)).
  { apply changes_delete_chapter; auto using same_elsewhere_refl, same_elsewhere_drop.
    apply same_elsewhere_trans. }
  destruct (Hp _ _ _ Hrun) as (_ & _ & _ & Hmd).
  revert Hrun. unfold delete_chapter. unfold bind at 1, attempt.
  match goal with
  | |- context [match ?b s with _ => _ end] => destruct (b s) as [rb sb] eqn:Hbody
  end.
  destruct rb as [[]|]; intros [= <- <-]; eexists _, sb; (split; [reflexivity|]);
    (split; [intros key c Hne; rewrite !lookup_metadata_bind; apply Hmd, Hne|]).
  - (* every step worked *)
    revert Hbody. unfold bind at 1, get.
    set (K := chapter_key_of class_level).
    unfold bind at 1.
    destruct ((if pinecone_client s
               then index_delete svc (delete_chapter_ids class_level chapter_id)
               else ret tt) s) as [r1 s1] eqn:E1.
    assert (Hm1 : chapter_metadata s1 = chapter_metadata s).
    { destruct (pinecone_client s); [apply (index_delete_keeps_metadata _ _ _ _ E1)|].
      injection E1 as <- <-. reflexivity. }
    destruct r1 as [[]|]; [|discriminate]. unfold bind at 1.
    destruct ((if firebase_initialized s then _ else ret tt) s1) as [r2 s2] eqn:E2.
    assert (Hm2 : chapter_metadata s2 = chapter_metadata s).
    { destruct (firebase_initialized s).
      - revert E2. unfold call. intros [= <- <-]. exact Hm1.
      - injection E2 as <- <-. exact Hm1. }
    destruct r2 as [[]|]; [|discriminate].
    unfold lookup_metadata at 1. fold K.
    destruct (chapter_metadata s !! K) as [chapters|] eqn:EK.
    2:{ intros [= <-]. unfold lookup_metadata. fold K. rewrite Hm2, EK. reflexivity. }
    destruct (chapters !! chapter_id) as [m|] eqn:Em.
    2:{ intros [= <-]. unfold lookup_metadata. fold K. rewrite Hm2, EK. exact Em. }
    unfold bind, local_file_exists, remove_file, call, modify, save_metadata.
    destruct (path_exists svc (history s2) (m_local_path m));
      [destruct (remove_ok svc _); [|discriminate]|]; intros [= <-];
      unfold lookup_metadata; cbn [chapter_metadata log set_chapter_metadata]; fold K;
      rewrite lookup_alter_eq, Hm2, EK; cbn; apply lookup_delete_eq.
  - (* a step raised *)
    revert Hbody. unfold bind at 1, get. unfold bind at 1.
    destruct ((if pinecone_client s
               then index_delete svc (delete_chapter_ids class_level chapter_id)
               else ret tt) s) as [r1 s1] eqn:E1.
    assert (Hm1 : chapter_metadata s1 = chapter_metadata s).
    { destruct (pinecone_client s); [|injection E1 as <- <-; reflexivity].
      apply (index_delete_keeps_metadata _ _ _ _ E1). }
    destruct r1 as [[]|]; [|intros [= <-]; exact Hm1]. unfold bind at 1.
    destruct ((if firebase_initialized s then _ else ret tt) s1) as [r2 s2] eqn:E2.
    assert (Hm2 : chapter_metadata s2 = chapter_metadata s).
    { destruct (firebase_initialized s).
      - revert E2. unfold call. intros [= <- <-]. exact Hm1.
      - injection E2 as <- <-. exact Hm1. }
    destruct r2 as [[]|]; [|intros [= <-]; exact Hm2].
    destruct (lookup_metadata s _ chapter_id) as [m|]; [|discriminate].
    unfold bind, local_file_exists, remove_file, call, modify, save_metadata.
    destruct (path_exists svc (history s2) (m_local_path m)); [|discriminate].
    destruct (remove_ok svc _); [discriminate | intros [= <-]; exact Hm2].
Qed.

(** X10.  [delete_chapter] never raises and touches no chapter record
    but the one of the class level and chapter id it is called for.  When
    it returns [True] that record is gone; when it returns [False] because
    of an exception, the chapter records are all as they were. *)
Theorem delete_chapter_record (s : State) :
  let r := fst (delete_chapter svc class_level chapter_id s) in
  let s' := snd (delete_chapter svc class_level chapter_id s) in
  r <> Raise
  /\ (forall key c, (key, c) <> (chapter_key_of class_level, chapter_id) ->
        lookup_metadata s' key c = lookup_metadata s key c)
  /\ (r = Ok Deleted ->
      lookup_metadata s' (chapter_key_of class_level) chapter_id = None)
  /\ (r = Ok DeleteErrored -> chapter_metadata s' = chapter_metadata s).
Proof.
  destruct (delete_chapter_run s) as (r & s' & Hrun & Hframe & Hrec).
  rewrite Hrun. cbn [fst snd]. split; [discriminate|]. split; [exact Hframe|].
  split; intros [= ->]; exact Hrec.
Qed.

End UploadEffects.

(** ** When an upload is reported as a duplicate *)

Section DuplicateFacts.
Import Py Manager.
Variable svc : Services.
Variable class_level : Z.
Variable chapter_id : str.

Lemma process_upload_no_duplicate (file : list N) (file_hash : str) (replace : bool)
    (s s' : State) (a : UploadResult) :
  process_upload svc file class_level chapter_id file_hash replace s = (Ok a, s') ->
  duplicate_detected a = false.
Proof.
  intros Hrun. apply process_upload_run in Hrun as (new & _ & _ & Hcases).
  destruct Hcases as [[= ->] | [_ [[[= ->] _] | [_ (se & emb & s2 & _ & _ & Hres)]]]];
    try reflexivity.
  destruct Hres as [[_ [= ->]] | [_ [[=] | (a' & [= <-] & (? & ? & ? & ->))]]];
    reflexivity.
Qed.

Lemma index_kept {A} (m : M A) (s s' : State) (r : Res A) :
  preserves (fun _ => True) eq (fun _ _ => True) m -> m s = (r, s') -> index s' = index s.
Proof. intros Hm Hrun. destruct (Hm _ _ _ Hrun) as (_ & _ & Hix & _). auto. Qed.

(** A duplicate comes from a record with the fingerprint of the file. *)
Lemma upload_body_duplicate (file : list N) (force_reupload : bool)
    (s s' : State) (a : UploadResult) :
  upload_body svc file class_level chapter_id force_reupload s = (Ok a, s') ->
  duplicate_detected a = true ->
  force_reupload = false
  /\ index s' = index s
  /\ exists m,
       lookup_metadata s (chapter_key_of class_level) chapter_id = Some m
       /\ m_file_hash m = sha256_hexdigest svc file
       /\ chunks_created a = Some (m_text_chunks_count m)
       /\ existing_chunks a = Some (m_text_chunks_count m)
       /\ result_file_hash a = Some (sha256_hexdigest svc file).
Proof.
  unfold upload_body.
  destruct (negb (is_valid_chapter_for_class chapter_id class_level));
    [intros [= <- <-]; discriminate|].
  destruct (negb (bool_decide (class_level ∈ [9; 10])));
    [intros [= <- <-]; discriminate|].
  unfold bind at 1, call.
  destruct (file_save_ok svc (history s)); [|discriminate].
  unfold bind at 1, calculate_file_hash. cbn [history log].
  destruct (temp_readable svc (FileSave true :: history s));
    [|unfold bind, remove_file, call, ret; destruct (remove_ok svc _);
      [intros [= <- <-]; discriminate | discriminate]].
  destruct (sha256_hexdigest svc file) as [|c0 h0] eqn:Hhash;
    [unfold bind, remove_file, call, ret; destruct (remove_ok svc _);
     [intros [= <- <-]; discriminate | discriminate]|].
  unfold bind at 1, get. cbv zeta.
  set (s2 := log (HashRead true) (log (FileSave true) s)).
  change (lookup_metadata s2 (chapter_key_of class_level) chapter_id)
    with (lookup_metadata s (chapter_key_of class_level) chapter_id).
  destruct (lookup_metadata s (chapter_key_of class_level) chapter_id) as [m|] eqn:Hm;
    cbn [fmap option_fmap option_map].
  2:{ rewrite (bool_decide_eq_false_2 (None = Some (c0 :: h0))) by discriminate.
      cbn [andb truthy]. unfold bind at 1.
      destruct (check_chapter_exists_in_pinecone svc class_level chapter_id s2)
        as [[b|] s3]; [|discriminate].
      intros Hrun Hdup.
      assert (Hp : process_upload svc file class_level chapter_id (c0 :: h0)
                     (b || force_reupload) s3 = (Ok a, s')).
      { destruct (b && negb force_reupload); exact Hrun. }
      rewrite (process_upload_no_duplicate _ _ _ _ _ _ Hp) in Hdup. discriminate. }
  destruct (bool_decide (Some (m_file_hash m) = Some (c0 :: h0))) eqn:Hsame.
  - apply bool_decide_eq_true in Hsame. injection Hsame as Hsame.
    destruct force_reupload; cbn [negb andb].
    + unfold bind at 1.
      destruct (check_chapter_exists_in_pinecone svc class_level chapter_id s2)
        as [[b|] s3]; [|discriminate].
      rewrite andb_false_r. intros Hp Hdup.
      rewrite (process_upload_no_duplicate _ _ _ _ _ _ Hp) in Hdup. discriminate.
    + intros Hrun _. split; [reflexivity|].
      assert (Hix : index s' = index s).
      { apply (index_kept (skip_identical svc class_level chapter_id (c0 :: h0) (Some m))
                 s2 s' (Ok a)); [|exact Hrun].
        apply preserves_skip_identical; auto; intros; congruence. }
      split; [exact Hix|]. exists m. split; [reflexivity|]. split; [exact Hsame|].
      destruct (skip_identical_ok svc class_level chapter_id (c0 :: h0) (Some m)
                  _ _ _ Hrun) as (url & ready & ->).
      repeat split; reflexivity.
  - cbn [andb]. unfold bind at 1.
    destruct (check_chapter_exists_in_pinecone svc class_level chapter_id s2)
      as [[b|] s3]; [|discriminate].
    intros Hrun Hdup.
    assert (Hp : process_upload svc file class_level chapter_id (c0 :: h0)
                   (b || force_reupload) s3 = (Ok a, s')).
    { destruct (b && negb force_reupload); [|exact Hrun].
      destruct (truthy (Some (m_file_hash m)) && negb false); exact Hrun. }
    rewrite (process_upload_no_duplicate _ _ _ _ _ _ Hp) in Hdup. discriminate.
Qed.

Lemma upload_duplicate_inv (file : list N) (force_reupload : bool)
    (s s' : State) (a : UploadResult) :
  upload_chapter_pdf svc file class_level chapter_id force_reupload s = (Ok a, s') ->
  duplicate_detected a = true ->
  force_reupload = false
  /\ index s' = index s
  /\ exists m,
       lookup_metadata s (chapter_key_of class_level) chapter_id = Some m
       /\ m_file_hash m = sha256_hexdigest svc file
       /\ chunks_created a = Some (m_text_chunks_count m)
       /\ existing_chunks a = Some (m_text_chunks_count m)
       /\ result_file_hash a = Some (sha256_hexdigest svc file).
Proof.
  unfold upload_chapter_pdf, bind, attempt.
  destruct (upload_body svc file class_level chapter_id force_reupload s)
    as [[a'|] s1] eqn:Hbody.
  - intros [= <- <-]. apply (upload_body_duplicate _ _ _ _ _ Hbody).
  - unfold local_file_exists, remove_file, call, ret.
    destruct (path_exists svc _ _); [destruct (remove_ok svc _)|];
      intros [= <- <-]; discriminate.
Qed.

(** X11.  [upload_chapter_pdf] reports a duplicate only for an upload
    that is not forced, when the chapter has a record whose hash is the
    hash of the uploaded file; the chunk counts of the result are the
    count of that record, the hash of the result is the hash of the file,
    and the index is left as it was. *)
Theorem duplicate_needs_matching_record (file : list N) (force_reupload : bool)
    (s s' : State) (a : UploadResult) :
  upload_chapter_pdf svc file class_level chapter_id force_reupload s = (Ok a, s') ->
  duplicate_detected a = true ->
  force_reupload = false
  /\ index s' = index s
  /\ exists n,
       recorded s class_level chapter_id (sha256_hexdigest svc file) n
       /\ chunks_created a = Some n
       /\ existing_chunks a = Some n
       /\ result_file_hash a = Some (sha256_hexdigest svc file).
Proof.
  intros Hrun Hdup.
  destruct (upload_duplicate_inv _ _ _ _ _ Hrun Hdup)
    as (Hf & Hix & m & Hm & Hh & Hc & He & Hr).
  split; [exact Hf|]. split; [exact Hix|]. exists (m_text_chunks_count m).
  split; [|auto]. exists m. split; [exact Hm | auto].
Qed.

(** X12.  After [delete_chapter] has returned [True], an upload of
    the same chapter is never reported as a duplicate, whatever the file:
    the record that the duplicate check compares with is gone. *)
Theorem upload_after_delete_is_processed_again (file : list N) (force_reupload : bool)
    (s s1 s2 : State) (a : UploadResult) :
  delete_chapter svc class_level chapter_id s = (Ok Deleted, s1) ->
  upload_chapter_pdf svc file class_level chapter_id force_reupload s1 = (Ok a, s2) ->
  duplicate_detected a = false.
Proof.
  intros Hdel Hup. destruct (delete_chapter_run svc class_level chapter_id s)
    as (r & s1' & Hrun & _ & Hrec).
  rewrite Hdel in Hrun. injection Hrun as <- <-.
  destruct (duplicate_detected a) eqn:Hdup; [|reflexivity].
  destruct (upload_duplicate_inv _ _ _ _ _ Hup Hdup) as (_ & _ & m & Hm & _).
  rewrite Hrec in Hm. discriminate.
Qed.

(** X13.  When the OpenAI client or the Pinecone client is not
    initialised, the only successful outcome of [upload_chapter_pdf] is
    the duplicate of an unchanged file: every other upload fails. *)
Theorem no_client_no_processing (file : list N) (force_reupload : bool)
    (s s' : State) (a : UploadResult) :
  openai_client s = false \/ pinecone_client s = false ->
  upload_chapter_pdf svc file class_level chapter_id force_reupload s = (Ok a, s') ->
  success a = true -> duplicate_detected a = true.
Proof.
  intros Hno Hrun Hok. apply upload_paths in Hrun
    as [[_ (a' & [= <-] & [Ha | ->])] | (sp & fh & rp & rpp & s1 & Hq & Hp & _ & Hr)].
  - destruct a; try contradiction; try discriminate; reflexivity.
  - discriminate.
  - destruct Hr as [[-> _] | [_ [= ->]]]; [|discriminate].
    destruct (extends_config _ _ (quiet_extends _ _ Hq)) as (Ho & Hpc & _).
    apply process_upload_run in Hp as (new & _ & _ & Hcases).
    destruct Hcases as [[= ->] | [_ [[[= ->] _] | [_ (se & emb & s2 & Hc & Hemb & Hres)]]]];
      try discriminate.
    destruct Hc as (Ho' & Hp' & _).
    assert (Hfalse : emb = false).
    { revert Hemb. unfold create_embeddings, bind, get.
      replace (negb (openai_client se) || negb (pinecone_client se)) with true.
      - intros [= <- _]. reflexivity.
      - symmetry. apply orb_true_iff.
        destruct Hno as [Hno | Hno]; [left | right]; apply negb_true_iff; congruence. }
    destruct Hres as [[_ [= ->]] | [-> _]]; discriminate.
Qed.

End DuplicateFacts.

(** ** Objects of the storage bucket *)

Section BlobPaths.
Import Py Manager.
Variable svc : Services.
Variable class_level : Z.
Variable chapter_id : str.

(** The object an upload publishes, and the object a deletion removes. *)
Definition published_path : str := firebase_path_of class_level chapter_id.
Definition deleted_path : str := lit "chapters/" ++ filename_of class_level chapter_id.

Definition blob_paths (e : Event) : Prop :=
  match e with
  | AdminUpload path _ | SignedUpload path _ => path = published_path
  | BlobDelete path _ => path = deleted_path
  | _ => True
  end.

Lemma paths_differ : deleted_path <> published_path.
Proof.
  unfold deleted_path, published_path, filename_of, firebase_path_of.
  change (lit "chapters/class_") with (lit "chapters/" ++ lit "class_").
  rewrite <- !app_assoc. intros Heq. do 3 apply app_inv_head in Heq.
  change (lit "_") with [95%N] in Heq. change (lit "/") with [47%N] in Heq.
  cbn [app] in Heq. discriminate.
Qed.

(** X14.  Every object that [upload_chapter_pdf] publishes to the
    storage bucket has the path [chapters/class_{class_level}/{chapter_id}.pdf],
    and an upload deletes no object; the only object that [delete_chapter]
    asks the bucket to delete has the path
    [chapters/class_{class_level}_{chapter_id}.pdf], which is a different
    path: the published object is not the one deleted. *)
Theorem delete_chapter_misses_published_object (file : list N) (force_reupload : bool)
    (s : State) :
  let up := new_events s (snd (upload_chapter_pdf svc file class_level chapter_id
                                 force_reupload s)) in
  let del := new_events s (snd (delete_chapter svc class_level chapter_id s)) in
  (forall path o, AdminUpload path o ∈ up -> path = published_path)
  /\ (forall path b, SignedUpload path b ∈ up -> path = published_path)
  /\ (forall path b, BlobDelete path b ∈ up -> False)
  /\ (forall path b, BlobDelete path b ∈ del -> path = deleted_path)
  /\ deleted_path <> published_path.
Proof.
  cbv zeta.
  assert (Hup : preserves (fun e => blob_paths e /\ match e with
                                                     | BlobDelete _ _ => False
                                                     | _ => True
                                                     end)
                  (fun _ _ => True) (fun _ _ => True)
                  (upload_chapter_pdf svc file class_level chapter_id force_reupload)).
  { apply changes_upload; auto.
    - intros e He. destruct e; try contradiction; split; exact Logic.I.
    - intros o. split; [reflexivity | exact Logic.I].
    - intros b. split; [reflexivity | exact Logic.I]. }
  assert (Hdel : preserves blob_paths (fun _ _ => True) (fun _ _ => True)
                   (delete_chapter svc class_level chapter_id)).
  { apply changes_delete_chapter; auto.
    - intros e He. destruct e; try contradiction; exact Logic.I.
    - intros b. reflexivity. }
  destruct (upload_chapter_pdf svc file class_level chapter_id force_reupload s)
    as [r1 s1] eqn:E1.
  destruct (delete_chapter svc class_level chapter_id s) as [r2 s2] eqn:E2.
  cbn [snd].
  destruct (Hup _ _ _ E1) as (_ & (new1 & Hh1 & Hq1) & _).
  destruct (Hdel _ _ _ E2) as (_ & (new2 & Hh2 & Hq2) & _).
  rewrite (new_events_spec _ _ _ Hh1), (new_events_spec _ _ _ Hh2).
  rewrite Forall_forall in Hq1, Hq2.
  split; [intros path o Hin; apply (Hq1 _ Hin)|].
  split; [intros path b Hin; apply (Hq1 _ Hin)|].
  split; [intros path b Hin; apply (Hq1 _ Hin)|].
  split; [intros path b Hin; apply (Hq2 _ Hin) | apply paths_differ].
Qed.

End BlobPaths.

(** ** The status of a chapter *)

Section StatusFacts.
Import Py Manager Routes.
Variable svc : Services.
Variable class_level : Z.
Variable chapter_id : str.

Lemma get_chapter_status_run (s : State) :
  exists response s',
    get_chapter_status svc class_level chapter_id s = (Ok response, s')
    /\ chapter_metadata s' = chapter_metadata s
    /\ index s' = index s
    /\ match lookup_metadata s (chapter_key_of class_level) chapter_id with
       | None => response = StatusNotFound
       | Some m =>
           exists has_embeddings local_path_exists,
             response = StatusOk (m_file_hash m) (m_upload_date m)
                          (m_text_chunks_count m) has_embeddings (m_firebase_url m)
                          local_path_exists (m_chapter_info m)
       end.
Proof.
  unfold get_chapter_status. unfold bind at 1, attempt, bind at 1, get.
  destruct (lookup_metadata s (chapter_key_of class_level) chapter_id) as [m|].
  - destruct (check_chapter_exists_in_pinecone svc class_level chapter_id s)
      as [rb s1] eqn:Hrun.
    destruct (check_chapter_exists_total svc class_level chapter_id _ _ _ Hrun)
      as (b & -> & _).
    pose proof (check_chapter_exists_metadata svc _ _ _ _ _ Hrun) as Hmd.
    assert (Hix : index s1 = index s).
    { eapply index_kept; [|exact Hrun].
      apply preserves_check_chapter_exists; auto; intros; congruence. }
    unfold bind at 1. rewrite Hrun. unfold bind at 1, local_file_exists, ret.
    eexists _, _. split; [reflexivity|]. cbn [chapter_metadata index log].
    split; [exact Hmd|]. split; [exact Hix|]. eauto.
  - eexists _, _. split; [reflexivity|]. split; [reflexivity|].
    split; reflexivity.
Qed.

(** X15.  The status route never raises and never answers 500.
    After a successful upload it answers with the status of the chapter,
    where the hash is the hash of the uploaded file and the chunk count is
    the [chunks_created] of the upload; after a [delete_chapter] that
    returned [True] it answers 404. *)
Theorem status_follows_upload_and_delete (file : list N) (force_reupload : bool)
    (s : State) :
  (forall a s1,
     upload_chapter_pdf svc file class_level chapter_id force_reupload s = (Ok a, s1) ->
     success a = true ->
     exists n date has_embeddings url local_path_exists info,
       chunks_created a = Some n
       /\ fst (get_chapter_status svc class_level chapter_id s1)
          = Ok (StatusOk (sha256_hexdigest svc file) date n has_embeddings url
                  local_path_exists info))
  /\ (forall s1,
        delete_chapter svc class_level chapter_id s = (Ok Deleted, s1) ->
        fst (get_chapter_status svc class_level chapter_id s1) = Ok StatusNotFound)
  /\ fst (get_chapter_status svc class_level chapter_id s) <> Ok StatusError
  /\ fst (get_chapter_status svc class_level chapter_id s) <> Raise.
Proof.
  split; [|split].
  - intros a s1 Hrun Hok.
    destruct (upload_success_recorded svc _ _ _ _ _ _ _ Hrun Hok)
      as (_ & _ & n & Hn & (m & Hm & Hh & Hc)).
    destruct (get_chapter_status_run s1) as (resp & s2 & Hst & _ & _ & Hresp).
    fold (lookup_metadata s1 (chapter_key_of class_level) chapter_id) in Hm.
    rewrite Hm in Hresp. destruct Hresp as (he & le & ->).
    exists n, (m_upload_date m), he, (m_firebase_url m), le, (m_chapter_info m).
    split; [exact Hn|]. rewrite Hst. cbn [fst]. rewrite Hh, Hc. reflexivity.
  - intros s1 Hdel.
    destruct (delete_chapter_run svc class_level chapter_id s)
      as (r & s1' & Hrun & _ & Hrec).
    rewrite Hdel in Hrun. injection Hrun as <- <-.
    destruct (get_chapter_status_run s1) as (resp & s2 & Hst & _ & _ & Hresp).
    rewrite Hrec in Hresp. rewrite Hst, Hresp. reflexivity.
  - destruct (get_chapter_status_run s) as (resp & s2 & Hst & _ & _ & Hresp).
    rewrite Hst. cbn [fst]. split; [|discriminate].
    destruct (lookup_metadata s _ chapter_id); [destruct Hresp as (? & ? & ->) | subst];
      discriminate.
Qed.

End StatusFacts.

(** ** The words of the chunks *)

Section ChunkWords.
Import Py Rag.
Variable sent_tokenize : str -> list str.

Lemma split_from_app_space_words (a b cur : str) :
  split_from cur (a ++ SP :: b) = split_from cur a ++ split_from [] b.
Proof.
  revert cur. induction a as [|c a IH]; intros cur; simpl.
  - destruct cur; reflexivity.
  - destruct (isspace c); [|apply IH].
    destruct cur; rewrite IH; reflexivity.
Qed.

Lemma split_app_space (a b : str) : split (a ++ [SP] ++ b) = split a ++ split b.
Proof. apply split_from_app_space_words. Qed.

Lemma split_strip (s : str) : split (strip s) = split s.
Proof. unfold strip. rewrite split_rstrip, split_lstrip. reflexivity. Qed.

(** The words of a list of strings, in order. *)
Definition words_of (l : list str) : list str := concat (map split l).

Lemma words_of_snoc (l : list str) (x : str) : words_of (l ++ [x]) = words_of l ++ split x.
Proof. unfold words_of. rewrite map_app, concat_app. simpl. rewrite app_nil_r. reflexivity. Qed.

Lemma split_potential_chunk (current sentence : str) :
  split (potential_chunk current sentence) = split current ++ split sentence.
Proof.
  unfold potential_chunk. destruct current as [|c cur]; [reflexivity|].
  apply split_app_space.
Qed.

Lemma pack_sentences_words (mn mx : Z) (sentences : list str) :
  forall chunks current,
    words_of (fst (pack_sentences mn mx sentences chunks current))
    ++ split (snd (pack_sentences mn mx sentences chunks current))
    = words_of chunks ++ split current ++ words_of sentences.
Proof.
  induction sentences as [|sentence rest IH]; intros chunks current; cbn [pack_sentences].
  - cbn [fst snd]. unfold words_of at 2. simpl. rewrite app_nil_r. reflexivity.
  - cbv zeta. change (words_of (sentence :: rest)) with (split sentence ++ words_of rest).
    destruct (word_count (potential_chunk current sentence) <=? mx).
    { rewrite IH, split_potential_chunk, <- !app_assoc. reflexivity. }
    destruct (mn <=? word_count current).
    { rewrite IH, words_of_snoc, split_strip, <- !app_assoc. reflexivity. }
    destruct (2 * word_count (potential_chunk current sentence) >? 3 * mx).
    { rewrite IH, words_of_snoc, split_strip, split_potential_chunk, <- !app_assoc.
      reflexivity. }
    rewrite IH, split_potential_chunk, <- !app_assoc. reflexivity.
Qed.

Lemma words_of_append_to_last (chunks : list str) (current : str) :
  chunks <> [] ->
  words_of (append_to_last chunks current) = words_of chunks ++ split current.
Proof.
  induction chunks as [|c chunks IH]; [congruence|]. intros _.
  destruct chunks as [|c' chunks].
  - unfold words_of. cbn [append_to_last map concat].
    rewrite split_app_space, !app_nil_r. reflexivity.
  - change (append_to_last (c :: c' :: chunks) current)
      with (c :: append_to_last (c' :: chunks) current).
    change (words_of (c :: ?l)) with (split c ++ words_of l).
    rewrite IH by discriminate. rewrite app_assoc. reflexivity.
Qed.

(** X16.  [chunk_text] loses no word and adds none: when it returns
    chunks, their words, in order, are the words of the sentences of the
    text, in order.  It returns no chunk only when the text has no word,
    or fewer than [min_chunk_size] words. *)
Theorem chunk_text_keeps_words (text : str) (min_chunk_size max_chunk_size : Z) :
  let chunks := chunk_text sent_tokenize text min_chunk_size max_chunk_size in
  (chunks <> [] -> words_of chunks = words_of (sent_tokenize text))
  /\ (chunks = [] ->
      words_of (sent_tokenize text) = []
      \/ Z.of_nat (length (words_of (sent_tokenize text))) < min_chunk_size).
Proof.
  unfold chunk_text.
  pose proof (pack_sentences_words min_chunk_size max_chunk_size
                (sent_tokenize text) [] []) as Hw.
  destruct (pack_sentences min_chunk_size max_chunk_size (sent_tokenize text) [] [])
    as [chunks current]. cbn [fst snd] in Hw. cbn [words_of map concat split app] in Hw.
  change (split []) with (@nil str) in Hw. cbn [app] in Hw.
  destruct current as [|c cur].
  - change (split []) with (@nil str) in Hw. rewrite app_nil_r in Hw. cbv zeta. split.
    + intros _. exact Hw.
    + intros ->. left. symmetry. exact Hw.
  - destruct (min_chunk_size <=? word_count (c :: cur)) eqn:E; cbv zeta.
    + split.
      * intros _. rewrite words_of_snoc, split_strip. exact Hw.
      * intros Hnil. destruct chunks; discriminate.
    + destruct chunks as [|k ks].
      * split; [congruence|]. intros _. right. rewrite <- Hw.
        apply Z.leb_gt in E. exact E.
      * split.
        -- intros _. rewrite words_of_append_to_last by discriminate. exact Hw.
        -- intros Hnil. exfalso. revert Hnil. destruct ks; discriminate.
Qed.

End ChunkWords.

(** ** Headings found twice *)

Section DuplicateHeadings.
Import Py Rag.
Variable finditer : Pattern -> str -> list (nat * nat).

Definition starts_at (a : nat) (h : Heading) : bool := (h_start h =? a)%nat.

Lemma count_flat_map_two {A B} (f : B -> bool) (g : A -> list B) (l : list A) (p q : A) :
  NoDup l -> p ∈ l -> q ∈ l -> p <> q ->
  List.filter f (g p) <> [] -> List.filter f (g q) <> [] ->
  (2 <= length (List.filter f (flat_map g l)))%nat.
Proof.
  assert (Hone : forall l x, x ∈ l -> List.filter f (g x) <> [] ->
                   (1 <= length (List.filter f (flat_map g l)))%nat).
  { induction l0 as [|y l0 IH]; intros x Hx Hf; [inversion Hx|].
    cbn [flat_map]. rewrite List.filter_app, length_app.
    apply elem_of_cons in Hx as [-> | Hx].
    - destruct (List.filter f (g y)); [congruence | simpl; lia].
    - pose proof (IH x Hx Hf). lia. }
  induction 1 as [|y l Hy Hnd IH]; intros Hp Hq Hne Hfp Hfq; [inversion Hp|].
  cbn [flat_map]. rewrite List.filter_app, length_app.
  apply elem_of_cons in Hp as [-> | Hp]; apply elem_of_cons in Hq as [-> | Hq].
  - congruence.
  - pose proof (Hone l q Hq Hfq). destruct (List.filter f (g y)); [congruence | simpl; lia].
  - pose proof (Hone l p Hp Hfp). destruct (List.filter f (g y)); [congruence | simpl; lia].
  - pose proof (IH Hp Hq Hne Hfp Hfq). lia.
Qed.

(** In a list sorted by start, two headings with the same start have a
    pair of neighbours with that start. *)
Lemma sorted_neighbours (a : nat) (l : list Heading) :
  StronglySorted starts_le l ->
  (2 <= length (List.filter (starts_at a) l))%nat ->
  exists i m next,
    l !! i = Some m /\ l !! S i = Some next /\ h_start m = a /\ h_start next = a.
Proof.
  induction 1 as [|x l Hs IH Hall]; [simpl; lia|]. cbn [List.filter].
  destruct (starts_at a x) eqn:Ex.
  - cbn [length]. intros Hlen. apply Nat.eqb_eq in Ex.
    destruct l as [|y l]; [simpl in Hlen; lia|].
    destruct (starts_at a y) eqn:Ey.
    + apply Nat.eqb_eq in Ey. exists 0%nat, x, y. auto.
    + (* y starts later, hence everything does *)
      exfalso. apply Nat.eqb_neq in Ey.
      assert (Hlt : (a < h_start y)%nat).
      { apply Forall_inv in Hall. unfold starts_le in Hall. lia. }
      apply StronglySorted_inv in Hs as [_ Hy].
      assert (Hnone : List.filter (starts_at a) (y :: l) = []).
      { apply Forall_cons in Hall as [_ Hall].
        cbn [List.filter]. replace (starts_at a y) with false
          by (symmetry; apply Nat.eqb_neq; lia).
        clear -Hy Hlt. induction l as [|z l IHl]; [reflexivity|].
        apply Forall_cons in Hy as [Hz Hy]. cbn [List.filter].
        replace (starts_at a z) with false; [apply IHl, Hy|].
        symmetry. apply Nat.eqb_neq. unfold starts_le in Hz. lia. }
      rewrite Hnone in Hlen. simpl in Hlen. lia.
  - intros Hlen. destruct (IH Hlen) as (i & m & next & H1 & H2 & H3 & H4).
    exists (S i), m, next. auto.
Qed.

(** X17.  When two of the heading patterns of [detect_chapters]
    match at the same offset of the text, the result holds a chapter that
    starts and ends at that offset and has empty content. *)
Theorem heading_found_twice_gives_empty_chapter (text : str) (subject : option str)
    (p q : Pattern) (a e1 e2 : nat) :
  p <> q -> (a, e1) ∈ finditer p text -> (a, e2) ∈ finditer q text ->
  exists c, c ∈ detect_chapters finditer text subject
    /\ start_pos c = a /\ end_pos c = a /\ content c = [].
Proof.
  intros Hpq Hp Hq.
  assert (Hfound : forall r e, (a, e) ∈ finditer r text ->
            List.filter (starts_at a) (map (heading_of text) (finditer r text)) <> []).
  { intros r e Hin Hnil.
    assert (Hh : In (heading_of text (a, e))
                   (List.filter (starts_at a) (map (heading_of text) (finditer r text)))).
    { apply filter_In. split; [|apply Nat.eqb_refl].
      apply in_map, list_elem_of_In, Hin. }
    rewrite Hnil in Hh. exact Hh. }
  assert (Hall : forall r : Pattern, r ∈ all_patterns)
    by (intros []; apply list_elem_of_In; simpl; tauto).
  assert (Hnd : NoDup all_patterns).
  { apply NoDup_ListNoDup. unfold all_patterns, bengali_patterns, english_patterns.
    cbn [app]. repeat (constructor; [simpl; intuition discriminate|]). constructor. }
  pose proof (count_flat_map_two (starts_at a)
                (fun pattern => map (heading_of text) (finditer pattern text))
                all_patterns p q Hnd (Hall p) (Hall q) Hpq
                (Hfound p e1 Hp) (Hfound q e2 Hq)) as Hcount.
  fold (find_headings finditer text) in Hcount.
  rewrite (filter_length_perm _ _ (sort_by_start (find_headings finditer text)))
    in Hcount by (symmetry; apply sort_by_start_perm).
  destruct (sorted_neighbours a _ (sort_by_start_sorted _) Hcount)
    as (i & m & next & Hm & Hnext & Hma & Hna).
  unfold detect_chapters.
  destruct (sort_by_start (find_headings finditer text)) as [|m0 ms] eqn:E;
    [discriminate|]. rewrite <- E in *. clear E.
  eexists. split.
  - apply list_elem_of_lookup. exists i. unfold chapters_of.
    rewrite list_lookup_imap, Hm. reflexivity.
  - cbn [start_pos end_pos content]. rewrite Hnext, Hma, Hna.
    split; [reflexivity|]. split; [reflexivity|].
    unfold slice. rewrite Nat.sub_diag. reflexivity.
Qed.

End DuplicateHeadings.

(** ** Failures of an answer *)

Section AnswerOutcomes.
Import Py Rag.
Variable client : Clients.
Variable float_sum : list Q -> Q.
Variable float_div : Q -> nat -> Q.

(** X18.  [generate_rag_response] turns the failures of its services
    into answers.  A failed embedding request or a failed index query
    gives the "not covered" answer with no source and confidence [0.0],
    and no call is made after the failed one; a failed generation request
    gives the apology with no source and confidence [0.0]. *)
Theorem rag_failures_are_answers (query class_level : str) (subject chapter : option str) :
  let flt := mkFilter class_level (nonempty subject) (nonempty chapter) in
  let response := fst (generate_rag_response client float_sum float_div query class_level subject chapter) in
  let calls := snd (generate_rag_response client float_sum float_div query class_level subject chapter) in
  (embeddings_create client query = None ->
     response = mkResponse (not_covered_answer class_level subject) [] 0%Q None
     /\ calls = [EmbeddingCall query])
  /\ (forall e, embeddings_create client query = Some e ->
        index_query client e 5 flt = None ->
        response = mkResponse (not_covered_answer class_level subject) [] 0%Q None
        /\ calls = [EmbeddingCall query; QueryCall 5 flt])
  /\ (forall e matches, embeddings_create client query = Some e ->
        index_query client e 5 flt = Some matches -> matches <> [] ->
        chat_completions_create client
          (system_prompt_of class_level subject (join [NL; NL] (map text matches)))
          query = None ->
        response = mkResponse error_answer [] 0%Q None).
Proof.
  cbv zeta. unfold generate_rag_response, search_relevant_chunks.
  split; [|split].
  - intros ->. split; reflexivity.
  - intros e -> ->. split; reflexivity.
  - intros e matches -> -> Hne Hchat. destruct matches as [|m ms]; [congruence|].
    cbv zeta. rewrite Hchat. reflexivity.
Qed.

End AnswerOutcomes.

(** ** Pages of a textbook and the page of a position *)

Section PageFacts.
Import Py Ingest.
Variable re_sub : CleanPattern -> str -> str -> str.

(** What a page adds to [full_text]. *)
Definition page_block (p : PageInfo) : str := p_text p ++ [NL; NL].

(** The offset in [full_text] of the text of page [k] of [page_info]. *)
Definition offset_of (page_info : list PageInfo) (k : nat) : nat :=
  length (concat (map page_block (take k page_info))).

(** A page of [page_info] comes from a page of the document. *)
Definition page_of_doc (doc : list str) (p : PageInfo) : Prop :=
  (1 <= p_number p)%nat
  /\ (exists text, doc !! (p_number p - 1)%nat = Some text
                   /\ p_text p = _clean_text re_sub text)
  /\ strip (p_text p) <> []
  /\ p_word_count p = Py.word_count (p_text p).

Definition numbers_increase (page_info : list PageInfo) : Prop :=
  StronglySorted lt (map p_number page_info).

Lemma extract_pages_spec (pages : list str) :
  forall page_num full_text page_info,
  exists new,
    extract_pages re_sub page_num pages full_text page_info
    = (full_text ++ concat (map page_block new), page_info ++ new)
    /\ numbers_increase new
    /\ Forall (fun p => (page_num < p_number p)%nat
                        /\ (exists text, pages !! (p_number p - 1 - page_num)%nat = Some text
                                         /\ p_text p = _clean_text re_sub text)
                        /\ strip (p_text p) <> []
                        /\ p_word_count p = Py.word_count (p_text p)) new.
Proof.
  induction pages as [|text rest IH]; intros page_num full_text page_info.
  - exists []. cbn [extract_pages map concat]. rewrite !app_nil_r.
    split; [reflexivity|]. split; constructor.
  - cbn [extract_pages]. cbv zeta.
    assert (Hshift : forall new,
              Forall (fun p => (S page_num < p_number p)%nat
                        /\ (exists t, rest !! (p_number p - 1 - S page_num)%nat = Some t
                                      /\ p_text p = _clean_text re_sub t)
                        /\ strip (p_text p) <> []
                        /\ p_word_count p = Py.word_count (p_text p)) new ->
              Forall (fun p => (page_num < p_number p)%nat
                        /\ (exists t, (text :: rest) !! (p_number p - 1 - page_num)%nat
                                      = Some t
                                      /\ p_text p = _clean_text re_sub t)
                        /\ strip (p_text p) <> []
                        /\ p_word_count p = Py.word_count (p_text p)) new).
    { intros new Hnew. eapply Forall_impl; [exact Hnew|].
      intros p (Hn & (t & Ht & Hc) & Hs & Hw).
      split; [lia|]. split; [|auto]. exists t. split; [|exact Hc].
      replace (p_number p - 1 - page_num)%nat with (S (p_number p - 1 - S page_num))
        by lia. exact Ht. }
    destruct (strip (_clean_text re_sub text)) as [|c0 cs] eqn:Es.
    + destruct (IH (S page_num) full_text page_info) as (new & Hrun & Hinc & Hall).
      exists new. split; [exact Hrun|]. split; [exact Hinc | apply Hshift, Hall].
    + set (p := mkPageInfo (page_num + 1) (_clean_text re_sub text)
                  (Py.word_count (_clean_text re_sub text))).
      destruct (IH (S page_num) (full_text ++ _clean_text re_sub text ++ [NL; NL])
                  (page_info ++ [p])) as (new & Hrun & Hinc & Hall).
      exists (p :: new). rewrite Hrun. cbn [map concat]. unfold page_block at 2.
      cbn [p_text p]. rewrite <- !app_assoc. split; [reflexivity|]. split.
      * unfold numbers_increase. cbn [map]. constructor; [exact Hinc|].
        rewrite Forall_fmap. eapply Forall_impl; [exact Hall|].
        intros q (Hq & _). cbn [p_number p]. simpl. lia.
      * constructor; [|apply Hshift, Hall]. cbn [p_number p_text p_word_count p].
        split; [lia|]. split; [|split; [rewrite Es; discriminate | reflexivity]].
        exists text. replace (page_num + 1 - 1 - page_num)%nat with 0%nat by lia.
        split; reflexivity.
Qed.

(** *** The estimate *)

Lemma estimate_from_elem (page_info : list PageInfo) :
  forall c q n, estimate_from c q page_info = Some n ->
    exists p, p ∈ page_info /\ p_number p = n.
Proof.
  induction page_info as [|p rest IH]; intros c q n; cbn [estimate_from];
    [discriminate|]. cbv zeta.
  destruct (q <=? c + length (p_text p))%nat.
  - intros [= <-]. exists p. split; [left | reflexivity].
  - intros H. destruct (IH _ _ _ H) as (p' & Hp' & Hn). exists p'.
    split; [right; exact Hp' | exact Hn].
Qed.

Lemma numbers_increase_le (page_info : list PageInfo) (k : nat) (p p' : PageInfo) :
  numbers_increase page_info -> page_info !! k = Some p -> p' ∈ drop k page_info ->
  (p_number p <= p_number p')%nat.
Proof.
  revert k. induction page_info as [|x rest IH]; intros k Hinc Hk Hin; [discriminate|].
  unfold numbers_increase in Hinc. cbn [map] in Hinc.
  apply StronglySorted_inv in Hinc as [Hrest Hx]. destruct k as [|k].
  - injection Hk as <-. cbn [drop] in Hin. apply elem_of_cons in Hin as [-> | Hin]; [lia|].
    rewrite Forall_fmap, Forall_forall in Hx. pose proof (Hx p' Hin). simpl in *. lia.
  - exact (IH k Hrest Hk Hin).
Qed.

Lemma estimate_from_not_before (page_info : list PageInfo) :
  forall k c q n,
    (c + length (concat (map p_text (take k page_info))) < q \/ k = 0)%nat ->
    estimate_from c q page_info = Some n ->
    exists p', p' ∈ drop k page_info /\ p_number p' = n.
Proof.
  induction page_info as [|p rest IH]; intros k c q n Hbefore; cbn [estimate_from];
    [discriminate|]. cbv zeta. destruct k as [|k].
  - intros H. cbn [drop].
    apply (estimate_from_elem (p :: rest) c q n). exact H.
  - destruct Hbefore as [Hbefore | [=]]. cbn [take map concat] in Hbefore.
    rewrite length_app in Hbefore.
    destruct (Nat.leb_spec q (c + length (p_text p))) as [Hle | Hgt]; [lia|].
    intros Hrun. cbn [drop]. apply (IH k (c + length (p_text p))%nat q n); [|exact Hrun].
    destruct k; [right; reflexivity | left; lia].
Qed.

Lemma offset_of_chars (page_info : list PageInfo) (k : nat) :
  (k <= length page_info)%nat ->
  offset_of page_info k
  = (length (concat (map p_text (take k page_info))) + 2 * k)%nat.
Proof.
  unfold offset_of. revert k. induction page_info as [|p rest IH]; intros k Hk.
  - destruct k; [reflexivity | simpl in Hk; lia].
  - destruct k as [|k]; [reflexivity|]. cbn [take map concat].
    rewrite !length_app, IH by (simpl in Hk; lia). unfold page_block.
    rewrite length_app. simpl. lia.
Qed.

(** X20.  When [extract_text_from_pdf] returns, the full text is the
    texts of the pages kept, each followed by a blank line; the pages kept
    have increasing page numbers, come from the pages of the document with
    that number, cleaned, and are not blank.  For a position inside the
    block of a kept page, [_estimate_page_number] returns the number of a
    kept page, never one before the page that holds the position. *)
Theorem page_estimate_is_not_early (doc : Document) (full_text : str)
    (page_info : list PageInfo) :
  extract_text_from_pdf re_sub (Some doc) = Some (full_text, page_info) ->
  full_text = concat (map page_block page_info)
  /\ numbers_increase page_info
  /\ Forall (page_of_doc (page_texts doc)) page_info
  /\ forall k p q,
       page_info !! k = Some p ->
       (offset_of page_info k <= q < offset_of page_info (S k))%nat ->
       (p_number p <= _estimate_page_number q page_info)%nat
       /\ exists p', p' ∈ page_info
                     /\ p_number p' = _estimate_page_number q page_info.
Proof.
  unfold extract_text_from_pdf. cbv zeta.
  destruct (len_after_close doc); [|discriminate]. intros [= Hrun].
  destruct (extract_pages_spec (page_texts doc) 0 [] []) as (new & Hspec & Hinc & Hall).
  rewrite Hrun in Hspec. cbn [app] in Hspec. injection Hspec as -> ->.
  split; [reflexivity|]. split; [exact Hinc|]. split.
  { eapply Forall_impl; [exact Hall|]. intros p (Hn & (t & Ht & Hc) & Hs & Hw).
    split; [lia|]. split; [|auto]. exists t. rewrite Nat.sub_0_r in Ht. auto. }
  intros k p q Hk [Hq _].
  assert (Hlen : (k <= length new)%nat) by (apply lookup_lt_Some in Hk; lia).
  rewrite (offset_of_chars new k Hlen) in Hq.
  unfold _estimate_page_number.
  destruct (estimate_from 0 q new) as [n|] eqn:E.
  - destruct (estimate_from_not_before new k 0 q n) as (p' & Hp' & Hn); [|exact E|].
    { destruct k; [right; reflexivity | left; lia]. }
    split.
    + rewrite <- Hn. apply (numbers_increase_le new k p p' Hinc Hk Hp').
    + exists p'. split; [|exact Hn].
      rewrite <- (take_drop k new). apply elem_of_app. right. exact Hp'.
  - destruct (last new) as [pl|] eqn:El.
    + assert (Hin : pl ∈ drop k new).
      { rewrite last_lookup in El. apply list_elem_of_lookup.
        exists (pred (length new) - k)%nat. rewrite lookup_drop.
        replace (k + (pred (length new) - k))%nat with (pred (length new)); [exact El|].
        apply lookup_lt_Some in Hk. lia. }
      split; [apply (numbers_increase_le new k p pl Hinc Hk Hin)|].
      exists pl. split; [|reflexivity].
      rewrite <- (take_drop k new). apply elem_of_app. right. exact Hin.
    + apply last_None in El. subst new. discriminate.
Qed.

End PageFacts.

(** ** Batches written to the index *)

Section StoreFacts.
Import Py Ingest.
Variable upsert_ok : list (list StoredVector) -> list StoredVector -> bool.

Lemma concat_batches_take (vectors : list StoredVector) (m : nat) :
  concat (map (fun k => take batch_size (drop (batch_size * k) vectors)) (seq 0 m))
  = take (batch_size * m) vectors.
Proof.
  induction m as [|m IH]; [rewrite Nat.mul_0_r; reflexivity|].
  rewrite seq_S, map_app, concat_app, IH. cbn [map concat Nat.add].
  rewrite app_nil_r, take_take_drop. f_equal. lia.
Qed.

Lemma batches_count (vectors : list StoredVector) :
  (batch_size * length (batches vectors) < length vectors + batch_size)%nat
  /\ (length vectors <= batch_size * length (batches vectors))%nat.
Proof.
  unfold batches. rewrite length_map, length_seq. unfold batch_size.
  pose proof (Nat.div_mod_eq (length vectors + (100 - 1)) 100) as Hdiv.
  pose proof (Nat.mod_upper_bound (length vectors + (100 - 1)) 100 ltac:(lia)) as Hmod.
  lia.
Qed.

Lemma concat_batches (vectors : list StoredVector) : concat (batches vectors) = vectors.
Proof.
  unfold batches. rewrite concat_batches_take. apply take_ge.
  pose proof (batches_count vectors) as [_ H]. unfold batches in H.
  rewrite length_map, length_seq in H. exact H.
Qed.

Lemma batches_sizes (vectors : list StoredVector) :
  Forall (fun batch => (1 <= length batch <= batch_size)%nat) (batches vectors).
Proof.
  pose proof (batches_count vectors) as [Hup _]. unfold batches in *.
  rewrite length_map, length_seq in Hup. rewrite Forall_fmap, Forall_forall.
  intros k Hk. apply elem_of_seq in Hk. cbn [Nat.add] in Hk. unfold compose.
  rewrite length_take, length_drop. unfold batch_size in *. lia.
Qed.

Lemma upsert_batches_run (todo : list (list StoredVector)) :
  forall done,
    let r := upsert_batches upsert_ok todo done in
    exists written rest,
      todo = written ++ rest
      /\ snd r = done ++ written
      /\ (fst r = true -> rest = [])
      /\ (fst r = false ->
          exists batch rest', rest = batch :: rest'
                              /\ upsert_ok (done ++ written) batch = false).
Proof.
  induction todo as [|batch todo IH]; intros done; cbv zeta; cbn [upsert_batches].
  - exists [], []. rewrite !app_nil_r. cbn [fst snd].
    split; [reflexivity|]. split; [reflexivity|]. split; [reflexivity | discriminate].
  - destruct (upsert_ok done batch) eqn:E.
    + destruct (IH (done ++ [batch])) as (written & rest & -> & Hs & Ht & Hf).
      exists (batch :: written), rest. cbv zeta in *.
      rewrite Hs, <- app_assoc. split; [reflexivity|]. split; [reflexivity|].
      split; [exact Ht|].
      intros Hfalse. destruct (Hf Hfalse) as (b & r' & -> & Hb).
      exists b, r'. rewrite <- app_assoc in Hb. auto.
    + exists [], (batch :: todo). rewrite !app_nil_r. cbn [fst snd app].
      split; [reflexivity|]. split; [reflexivity|]. split; [discriminate|].
      intros _. exists batch, todo. auto.
Qed.

(** X21.  [store_chunks_in_pinecone] cuts the vectors of the chunks
    into batches of 1 to 100 vectors that together are the vectors, in
    order.  The batches that reach the index are a prefix of them: all of
    them when it returns [True], and those before the first failed upsert
    when it returns [False].  With no chunk it returns [True] without any
    upsert. *)
Theorem store_chunks_in_batches (chunks : list TextChunk) :
  let ok := fst (store_chunks_in_pinecone upsert_ok chunks) in
  let written := snd (store_chunks_in_pinecone upsert_ok chunks) in
  concat (batches (map vector_of chunks)) = map vector_of chunks
  /\ Forall (fun batch => (1 <= length batch <= 100)%nat) (batches (map vector_of chunks))
  /\ (exists rest, batches (map vector_of chunks) = written ++ rest
        /\ (ok = true -> rest = [])
        /\ (ok = false -> exists batch rest',
              rest = batch :: rest' /\ upsert_ok written batch = false))
  /\ (ok = true -> concat written = map vector_of chunks)
  /\ (chunks = [] -> ok = true /\ written = []).
Proof.
  cbv zeta. unfold store_chunks_in_pinecone.
  destruct (upsert_batches_run (batches (map vector_of chunks)) [])
    as (written & rest & Hsplit & Hs & Ht & Hf). cbv zeta in *. cbn [app] in *.
  split; [apply concat_batches|]. split; [apply batches_sizes|]. split; [|split].
  - exists rest. rewrite Hs. auto.
  - intros Hok. rewrite Hs. rewrite (Ht Hok), app_nil_r in Hsplit.
    rewrite <- Hsplit. apply concat_batches.
  - intros ->. split; reflexivity.
Qed.

End StoreFacts.

(** ** Chunks of a processed textbook *)

Section TextbookFacts.
Import Py Ingest.
Variable re_sub : CleanPattern -> str -> str -> str.
Variable finditer : Rag.Pattern -> str -> list (nat * nat).
Variable sent_tokenize : str -> list str.
Variable lower : str -> str.
Variable embeddings_create : str -> option (list Q).
Variable now : nat -> nat -> str.

(** The chunk made of [chunk_text], the chunk [chunk_idx] of chapter
    [chapter_idx]. *)
Definition chunk_of (class_level subject : str) (page_info : list PageInfo)
    (chapter_idx : nat) (chapter : Rag.Chapter) (chunk_idx : nat) (chunk_text : str)
    (c : TextChunk) : Prop :=
  text c = chunk_text
  /\ embedding c = embeddings_create chunk_text
  /\ embedding c <> None
  /\ chunk_id (metadata c) = make_chunk_id lower class_level subject chapter_idx chunk_idx
  /\ Ingest.chapter (metadata c) = Rag.title chapter
  /\ chapter_number (metadata c) = (chapter_idx + 1)%nat
  /\ page_number (metadata c) = _estimate_page_number (Rag.start_pos chapter) page_info
  /\ Ingest.word_count (metadata c) = Py.word_count chunk_text.

(** [new] holds one chunk per text of [chunks], numbered from [chunk_idx]. *)
Definition chunks_of_chapter (class_level subject : str) (page_info : list PageInfo)
    (chapter_idx : nat) (chapter : Rag.Chapter) (chunk_idx : nat) (chunks : list str)
    (new : list TextChunk) : Prop :=
  length new = length chunks
  /\ forall i t, chunks !! i = Some t ->
       exists c, new !! i = Some c
                 /\ chunk_of class_level subject page_info chapter_idx chapter
                      (chunk_idx + i) t c.

Lemma process_chunks_spec (class_level subject : str) (page_info : list PageInfo)
    (chapter_idx : nat) (chapter : Rag.Chapter) (chunks : list str) :
  forall chunk_idx all_chunks,
    (Forall (fun t => embeddings_create t <> None) chunks ->
     exists new,
       process_chunks lower embeddings_create now class_level subject page_info
         chapter_idx chapter chunk_idx chunks all_chunks = Some (all_chunks ++ new)
       /\ chunks_of_chapter class_level subject page_info chapter_idx chapter
            chunk_idx chunks new)
    /\ (Exists (fun t => embeddings_create t = None) chunks ->
        process_chunks lower embeddings_create now class_level subject page_info
          chapter_idx chapter chunk_idx chunks all_chunks = None).
Proof.
  induction chunks as [|t rest IH]; intros chunk_idx all_chunks.
  - split.
    + intros _. exists []. rewrite app_nil_r. split; [reflexivity|].
      split; [reflexivity | intros i t' Hi; discriminate].
    + intros H. inversion H.
  - cbn [process_chunks]. cbv zeta. split.
    + intros Hall. apply Forall_cons in Hall as [Ht Hrest].
      destruct (embeddings_create t) as [e|] eqn:Ee; [|congruence].
      match goal with
      | |- context [process_chunks _ _ _ _ _ _ _ _ _ _ (all_chunks ++ [?c])] =>
          set (chunk := c)
      end.
      destruct (IH (S chunk_idx) (all_chunks ++ [chunk])) as [IHok _].
      destruct (IHok Hrest) as (new & Hrun & Hlen & Hnew).
      exists (chunk :: new). rewrite Hrun, <- app_assoc. split; [reflexivity|].
      split; [cbn [length]; congruence|]. intros [|i] t' Hi.
      * injection Hi as <-. exists chunk. split; [reflexivity|]. rewrite Nat.add_0_r.
        unfold chunk_of, chunk.
        cbn [text embedding metadata chunk_id Ingest.chapter
             chapter_number page_number Ingest.word_count].
        rewrite Ee. repeat split; try reflexivity. discriminate.
      * destruct (Hnew i t' Hi) as (c & Hc & Hof). exists c. split; [exact Hc|].
        replace (chunk_idx + S i)%nat with (S chunk_idx + i)%nat by lia. exact Hof.
    + intros Hex. apply Exists_cons in Hex as [Ht | Hrest]; [rewrite Ht; reflexivity|].
      destruct (embeddings_create t); [|reflexivity]. apply IH, Hrest.
Qed.

(** The chapters from [chapter_idx] on give [new], chapter by chapter. *)
Fixpoint chunks_of_chapters (class_level subject : str) (page_info : list PageInfo)
    (chapter_idx : nat) (chapters : list Rag.Chapter) (new : list TextChunk) : Prop :=
  match chapters with
  | [] => new = []
  | chapter :: rest =>
      exists here later,
        new = here ++ later
        /\ chunks_of_chapter class_level subject page_info chapter_idx chapter 0
             (Rag.chunk_text sent_tokenize (Rag.content chapter) 300 800) here
        /\ chunks_of_chapters class_level subject page_info (S chapter_idx) rest later
  end.

Definition all_texts (chapters : list Rag.Chapter) : list str :=
  flat_map (fun chapter => Rag.chunk_text sent_tokenize (Rag.content chapter) 300 800)
    chapters.

Lemma process_chapters_spec (class_level subject : str) (page_info : list PageInfo)
    (chapters : list Rag.Chapter) :
  forall chapter_idx all_chunks,
    (Forall (fun t => embeddings_create t <> None) (all_texts chapters) ->
     exists new,
       process_chapters sent_tokenize lower embeddings_create now class_level subject
         page_info chapter_idx chapters all_chunks = Some (all_chunks ++ new)
       /\ chunks_of_chapters class_level subject page_info chapter_idx chapters new)
    /\ (Exists (fun t => embeddings_create t = None) (all_texts chapters) ->
        process_chapters sent_tokenize lower embeddings_create now class_level subject
          page_info chapter_idx chapters all_chunks = None).
Proof.
  induction chapters as [|chapter rest IH]; intros chapter_idx all_chunks.
  - split.
    + intros _. exists []. rewrite app_nil_r. split; reflexivity.
    + intros H. inversion H.
  - cbn [process_chapters all_texts flat_map]. cbv zeta.
    fold (all_texts rest).
    destruct (process_chunks_spec class_level subject page_info chapter_idx chapter
                (Rag.chunk_text sent_tokenize (Rag.content chapter) 300 800)
                0 all_chunks) as [Hok Hfail].
    split.
    + intros Hall. apply Forall_app in Hall as [Hhere Hlater].
      destruct (Hok Hhere) as (here & -> & Hspec).
      destruct (IH (S chapter_idx) (all_chunks ++ here)) as [IHok _].
      destruct (IHok Hlater) as (later & -> & Hlater').
      exists (here ++ later). rewrite app_assoc. split; [reflexivity|].
      exists here, later. auto.
    + intros Hex. apply Exists_app in Hex as [Hhere | Hlater].
      * rewrite (Hfail Hhere). reflexivity.
      * destruct (process_chunks _ _ _ _ _ _ _ _ _ _ _); [|reflexivity].
        apply IH, Hlater.
Qed.

Lemma chunks_of_chapters_texts (class_level subject : str) (page_info : list PageInfo)
    (chapters : list Rag.Chapter) :
  forall chapter_idx new,
    chunks_of_chapters class_level subject page_info chapter_idx chapters new ->
    map text new = all_texts chapters.
Proof.
  induction chapters as [|chapter rest IH]; intros chapter_idx new; cbn [chunks_of_chapters].
  - intros ->. reflexivity.
  - intros (here & later & -> & (Hlen & Hhere) & Hlater).
    cbn [all_texts flat_map]. rewrite map_app, (IH _ _ Hlater). f_equal.
    apply list_eq. intros i. rewrite list_lookup_fmap.
    destruct (Rag.chunk_text sent_tokenize (Rag.content chapter) 300 800 !! i)
      as [t|] eqn:Et.
    + destruct (Hhere i t Et) as (c & -> & Hc & _). simpl. congruence.
    + apply lookup_ge_None in Et. rewrite <- Hlen in Et.
      apply lookup_ge_None in Et. rewrite Et. reflexivity.
Qed.

(** The chapters [process_textbook] works on. *)
Definition chapters_of_text (full_text subject : str) (chapter_name : option str)
    : list Rag.Chapter :=
  match chapter_name with
  | Some ((_ :: _) as chapter_name) =>
      [Rag.mkChapter chapter_name 0 (length full_text) full_text]
  | _ => Rag.detect_chapters finditer full_text (Some subject)
  end.

Lemma all_or_some_fail (texts : list str) :
  Forall (fun t => embeddings_create t <> None) texts
  \/ Exists (fun t => embeddings_create t = None) texts.
Proof.
  induction texts as [|t texts [IH | IH]]; [left; constructor | |right; right; exact IH].
  destruct (embeddings_create t) eqn:E.
  - left. constructor; [congruence | exact IH].
  - right. left. exact E.
Qed.

(** The chunks returned are those of the chapters. *)
Lemma process_textbook_chunks (doc : Document) (class_level subject : str)
    (chapter_name : option str) (all_chunks : list TextChunk) :
  process_textbook re_sub finditer sent_tokenize lower embeddings_create now
    (Some doc) class_level subject chapter_name = Some all_chunks ->
  chunks_of_chapters class_level subject
    (snd (extract_pages re_sub 0 (page_texts doc) [] [])) 0
    (chapters_of_text (fst (extract_pages re_sub 0 (page_texts doc) [] [])) subject
       chapter_name)
    all_chunks.
Proof.
  unfold process_textbook, extract_text_from_pdf. cbv zeta.
  destruct (len_after_close doc); [|discriminate].
  destruct (extract_pages re_sub 0 (page_texts doc) [] []) as [full_text page_info].
  cbn [fst snd].
  fold (chapters_of_text full_text subject chapter_name).
  destruct (process_chapters_spec class_level subject page_info
              (chapters_of_text full_text subject chapter_name) 0 []) as [Hok Hfail].
  destruct (all_or_some_fail
              (all_texts (chapters_of_text full_text subject chapter_name)))
    as [Hall | Hex].
  - destruct (Hok Hall) as (new & -> & Hspec). intros [= <-]. exact Hspec.
  - rewrite (Hfail Hex). discriminate.
Qed.

(** X22.  [process_textbook] raises when the PDF cannot be opened,
    when the log line after the close of the document raises, and when the
    embedding request of any chunk fails: no chunk is returned then.
    Otherwise it returns one chunk per chunk text of the chapters, in
    order, each with its embedding, its id, the title and number of its
    chapter, the estimated page of the chapter start and its word count. *)
Theorem process_textbook_all_or_nothing (doc : Document) (class_level subject : str)
    (chapter_name : option str) :
  let full_text := fst (extract_pages re_sub 0 (page_texts doc) [] []) in
  let page_info := snd (extract_pages re_sub 0 (page_texts doc) [] []) in
  let chapters := chapters_of_text full_text subject chapter_name in
  let result := process_textbook re_sub finditer sent_tokenize lower embeddings_create
                  now (Some doc) class_level subject chapter_name in
  (len_after_close doc = false -> result = None)
  /\ (len_after_close doc = true ->
      Exists (fun t => embeddings_create t = None) (all_texts chapters) ->
      result = None)
  /\ (len_after_close doc = true ->
      Forall (fun t => embeddings_create t <> None) (all_texts chapters) ->
      exists all_chunks,
        result = Some all_chunks
        /\ map text all_chunks = all_texts chapters
        /\ chunks_of_chapters class_level subject page_info 0 chapters all_chunks)
  /\ process_textbook re_sub finditer sent_tokenize lower embeddings_create now None
       class_level subject chapter_name = None.
Proof.
  cbv zeta. unfold process_textbook, extract_text_from_pdf. cbv zeta.
  destruct (extract_pages re_sub 0 (page_texts doc) [] []) as [full_text page_info].
  cbn [fst snd].
  fold (chapters_of_text full_text subject chapter_name).
  destruct (process_chapters_spec class_level subject page_info
              (chapters_of_text full_text subject chapter_name) 0 []) as [Hok Hfail].
  split; [intros ->; reflexivity|].
  split; [intros ->; exact Hfail|]. split; [|reflexivity].
  intros -> Hall. destruct (Hok Hall) as (new & Hrun & Hspec). cbn [app] in Hrun.
  exists new. split; [exact Hrun|]. split; [|exact Hspec].
  apply (chunks_of_chapters_texts _ _ _ _ _ _ Hspec).
Qed.

End TextbookFacts.

(** ** Ids of the chunks of a textbook *)

Section TextbookIds.
Import Py Ingest.

Lemma pretty_N_go_head (x : N) :
  forall s, (0 < x)%N ->
    exists d rest, (0 < d < 10)%N /\ pretty_N_go x s = String (pretty_N_char d) rest.
Proof.
  induction (N.lt_wf_0 x) as [x _ IH]. intros s Hx.
  rewrite pretty_N_go_step by exact Hx.
  destruct (N.eq_dec (x / 10)%N 0%N) as [H0 | Hpos].
  - rewrite H0, pretty_N_go_0. exists (x mod 10)%N, s. split; [|reflexivity].
    pose proof (N.Div0.div_mod x 10%N) as Hdm. rewrite H0, N.mul_0_r, N.add_0_l in Hdm.
    rewrite <- Hdm. split; [exact Hx|]. rewrite Hdm. apply N.mod_lt. discriminate.
  - apply IH; [apply N.div_lt; [exact Hx | reflexivity] | apply N.neq_0_lt_0, Hpos].
Qed.

Lemma str_of_nat_head (n : nat) :
  (0 < n)%nat -> exists c rest, str_of_nat n = c :: rest /\ c <> 48%N.
Proof.
  intros Hn. rewrite str_of_nat_codes. unfold pretty, pretty_nat, pretty, pretty_N.
  destruct (decide (N.of_nat n = 0%N)); [lia|].
  destruct (pretty_N_go_head (N.of_nat n) "" ltac:(lia)) as (d & rest & Hd & ->).
  unfold codes. cbn [list_ascii_of_string map]. eexists _, _. split; [reflexivity|].
  assert (Hcases : (d = 1 \/ d = 2 \/ d = 3 \/ d = 4 \/ d = 5 \/ d = 6 \/ d = 7
                    \/ d = 8 \/ d = 9)%N) by lia.
  destruct Hcases as [-> | [-> | [-> | [-> | [-> | [-> | [-> | [-> | ->]]]]]]]];
    vm_compute; congruence.
Qed.

Lemma zeros_head_inj (k k' : nat) (d d' : str) :
  (forall rest, d <> 48%N :: rest) -> (forall rest, d' <> 48%N :: rest) ->
  d <> [] -> d' <> [] ->
  repeat 48%N k ++ d = repeat 48%N k' ++ d' -> d = d'.
Proof.
  intros Hd Hd' Hne Hne'. revert k'. induction k as [|k IH]; intros [|k']; cbn [repeat app].
  - auto.
  - intros ->. destruct (Hd (repeat 48%N k' ++ d')). reflexivity.
  - intros <-. destruct (Hd' (repeat 48%N k ++ d)). reflexivity.
  - intros [= Heq]. apply (IH k' Heq).
Qed.

Lemma pad3_inj (n m : nat) : (0 < n)%nat -> (0 < m)%nat -> pad3 n = pad3 m -> n = m.
Proof.
  intros Hn Hm Heq. unfold pad3 in Heq.
  destruct (str_of_nat_head n Hn) as (c & rest & Hc & Hc0).
  destruct (str_of_nat_head m Hm) as (c' & rest' & Hc' & Hc0').
  apply str_of_nat_inj. eapply zeros_head_inj; [| | | |exact Heq].
  - rewrite Hc. intros r [= -> _]. congruence.
  - rewrite Hc'. intros r [= -> _]. congruence.
  - rewrite Hc. discriminate.
  - rewrite Hc'. discriminate.
Qed.

Section Ids.
Variable lower : str -> str.

Lemma make_chunk_id_inj (class_level subject : str) (a b a' b' : nat) :
  make_chunk_id lower class_level subject a b
  = make_chunk_id lower class_level subject a' b' ->
  a = a' /\ b = b'.
Proof.
  unfold make_chunk_id. intros Heq.
  do 4 apply app_inv_head in Heq. change (lit "-") with [45%N] in Heq. cbn [app] in Heq.
  assert (Hd : ~ digit 45%N) by (unfold digit; lia).
  apply cut_at_first in Heq as [Ha Hb];
    [|apply (digits_without _ _ Hd), str_of_nat_digits..].
  apply str_of_nat_inj in Ha. apply pad3_inj in Hb; lia.
Qed.

End Ids.

Variable re_sub : CleanPattern -> str -> str -> str.
Variable finditer : Rag.Pattern -> str -> list (nat * nat).
Variable sent_tokenize : str -> list str.
Variable lower : str -> str.
Variable embeddings_create : str -> option (list Q).
Variable now : nat -> nat -> str.

(** The pairs (chapter index, chunk index) of chapters that hold
    [counts] chunks, the first chapter having index [chapter_idx]. *)
Fixpoint id_pairs (chapter_idx : nat) (counts : list nat) : list (nat * nat) :=
  match counts with
  | [] => []
  | n :: rest => map (pair chapter_idx) (seq 0 n) ++ id_pairs (S chapter_idx) rest
  end.

Lemma id_pairs_ge (counts : list nat) :
  forall chapter_idx p, p ∈ id_pairs chapter_idx counts -> (chapter_idx <= fst p)%nat.
Proof.
  induction counts as [|n rest IH]; intros ci p; cbn [id_pairs]; [inversion 1|].
  intros Hp. apply elem_of_app in Hp as [Hp | Hp].
  - apply list_elem_of_fmap in Hp as (k & -> & _). simpl. lia.
  - pose proof (IH _ _ Hp). lia.
Qed.

Lemma NoDup_id_pairs (counts : list nat) :
  forall chapter_idx, NoDup (id_pairs chapter_idx counts).
Proof.
  induction counts as [|n rest IH]; intros ci; cbn [id_pairs]; [constructor|].
  apply NoDup_app. split; [|split; [|apply IH]].
  - apply NoDup_fmap_2; [intros a b [= ->]; reflexivity | apply NoDup_seq].
  - intros p Hp Hp'. apply list_elem_of_fmap in Hp as (k & -> & _).
    apply id_pairs_ge in Hp'. simpl in Hp'. lia.
Qed.

Lemma chunks_of_chapter_ids (class_level subject : str) (page_info : list PageInfo)
    (chapter_idx : nat) (chapter : Rag.Chapter) (chunks : list str)
    (here : list TextChunk) :
  chunks_of_chapter lower embeddings_create class_level subject page_info
    chapter_idx chapter 0 chunks here ->
  map (fun c => chunk_id (metadata c)) here
  = map (fun p => make_chunk_id lower class_level subject (fst p) (snd p))
      (map (pair chapter_idx) (seq 0 (length chunks))).
Proof.
  intros [Hlen Hhere]. apply list_eq. intros i.
  rewrite !list_lookup_fmap. destruct (chunks !! i) as [t|] eqn:Et.
  - destruct (Hhere i t Et) as (c & -> & _ & _ & _ & Hid & _).
    rewrite lookup_seq_lt by (apply lookup_lt_Some in Et; exact Et).
    simpl. rewrite Hid. reflexivity.
  - apply lookup_ge_None in Et. rewrite lookup_seq_ge by exact Et.
    rewrite <- Hlen in Et. apply lookup_ge_None in Et. rewrite Et. reflexivity.
Qed.

Lemma chunks_of_chapters_ids (class_level subject : str) (page_info : list PageInfo)
    (chapters : list Rag.Chapter) :
  forall chapter_idx new,
    chunks_of_chapters sent_tokenize lower embeddings_create class_level subject
      page_info chapter_idx chapters new ->
    map (fun c => chunk_id (metadata c)) new
    = map (fun p => make_chunk_id lower class_level subject (fst p) (snd p))
        (id_pairs chapter_idx
           (map (fun chapter =>
                   length (Rag.chunk_text sent_tokenize (Rag.content chapter) 300 800))
              chapters)).
Proof.
  induction chapters as [|chapter rest IH]; intros ci new; cbn [chunks_of_chapters].
  - intros ->. reflexivity.
  - intros (here & later & -> & Hhere & Hlater). cbn [map id_pairs].
    rewrite !map_app, (IH _ _ Hlater), (chunks_of_chapter_ids _ _ _ _ _ _ _ Hhere).
    reflexivity.
Qed.

(** X23.  The chunks built by the chapter loop of [process_textbook]
    have pairwise distinct ids, for every list of chapters and every page
    table: storing them writes one vector per chunk. *)
Theorem textbook_chunk_ids_are_distinct (chapters : list Rag.Chapter)
    (class_level subject : str) (page_info : list PageInfo)
    (all_chunks : list TextChunk) :
  process_chapters sent_tokenize lower embeddings_create now class_level subject
    page_info 0 chapters [] = Some all_chunks ->
  NoDup (map (fun c => chunk_id (metadata c)) all_chunks).
Proof.
  intros Hrun.
  destruct (process_chapters_spec sent_tokenize lower embeddings_create now
              class_level subject page_info chapters 0 []) as [Hok Hfail].
  destruct (all_or_some_fail embeddings_create (all_texts sent_tokenize chapters))
    as [Hall | Hex]; [|rewrite (Hfail Hex) in Hrun; discriminate].
  destruct (Hok Hall) as (new & Hnew & Hspec).
  rewrite Hnew in Hrun. cbn [app] in Hrun. injection Hrun as <-.
  rewrite (chunks_of_chapters_ids _ _ _ _ _ _ Hspec).
  apply NoDup_fmap_2; [|apply NoDup_id_pairs].
  intros [a b] [a' b'] Heq. cbn [fst snd] in Heq.
  apply make_chunk_id_inj in Heq as [-> ->]. reflexivity.
Qed.

End TextbookIds.

(** ** Worked runs *)

Lemma failed_delete_does_not_abort_witness :
  existsb failed_deletion
    (new_events Demo.ingested
       (snd (Manager.upload_chapter_pdf Demo.delete_fails Demo.revised_pdf 9
               (Py.lit "real_numbers") true Demo.ingested))) = true
  /\ exists b,
       Manager.FileMove b
       ∈ new_events Demo.ingested
           (snd (Manager.upload_chapter_pdf Demo.delete_fails Demo.revised_pdf 9
                   (Py.lit "real_numbers") true Demo.ingested)).
Proof.
  assert (Hfail : existsb failed_deletion
            (new_events Demo.ingested
               (snd (Manager.upload_chapter_pdf Demo.delete_fails Demo.revised_pdf 9
                       (Py.lit "real_numbers") true Demo.ingested))) = true)
    by (vm_compute; reflexivity).
  split; [exact Hfail|].
  exact (proj1 (failed_delete_does_not_abort Demo.delete_fails Demo.revised_pdf 9
                  (Py.lit "real_numbers") true Demo.ingested Hfail)).
Defined.

(** C5 as stated fails.  The long chapter is ingested (two chunks), then a
    one-page revision is uploaded with [force_reupload] while every delete
    request fails: the upload succeeds, the new chunk 0 is upserted, and
    chunk 1 of the old content is still in the index. *)
Lemma failed_delete_still_replaces :
  let run := Manager.upload_chapter_pdf Demo.delete_fails Demo.revised_pdf 9
               (Py.lit "real_numbers") true Demo.ingested in
  existsb failed_deletion (new_events Demo.ingested (snd run)) = true
  /\ fst run = Manager.Ok (Manager.Processed 1 None None false)
  /\ Manager.success (Manager.Processed 1 None None false) = true
  /\ existsb Demo.is_upsert (new_events Demo.ingested (snd run)) = true
  /\ Demo.stored_ids (snd run)
     = [Py.lit "9_real_numbers_chunk_1"; Py.lit "9_real_numbers_chunk_0"].
Proof. vm_compute. repeat split; reflexivity. Qed.

(** C6 on the code.  When the first of two embedding requests fails, one
    vector is upserted and the result still reports two chunks; when both
    fail, nothing is upserted and the result is still a success reporting
    two chunks, although [upload_chapter_pdf] tests the value of
    [create_embeddings] to fail with the embeddings error. *)
Lemma embedding_failures_reported_as_full_success :
  let partial := Manager.upload_chapter_pdf Demo.first_embedding_fails
                   Demo.long_chapter_pdf 9 (Py.lit "real_numbers") false Demo.fresh in
  let none := Manager.upload_chapter_pdf Demo.no_embeddings
                Demo.long_chapter_pdf 9 (Py.lit "real_numbers") false Demo.fresh in
  fst partial = Manager.Ok (Manager.Processed 2 None None false)
  /\ Demo.stored_ids (snd partial) = [Py.lit "9_real_numbers_chunk_1"]
  /\ fst none = Manager.Ok (Manager.Processed 2 None None false)
  /\ Manager.success (Manager.Processed 2 None None false) = true
  /\ existsb Demo.is_upsert (new_events Demo.fresh (snd none)) = false
  /\ Demo.stored_ids (snd none) = [].
Proof. vm_compute. repeat split; reflexivity. Qed.

(** C2 on the code.  A record exists for class 9, [real_numbers], with
    the fingerprint of the long chapter; a different file is uploaded,
    not forced.  The upload returns success, not a request for
    confirmation: the stored chunks were deleted and the chunk of the new
    file was written. *)
Lemma changed_content_replaced_without_confirmation :
  let run := Manager.upload_chapter_pdf Demo.reliable Demo.revised_pdf 9
               (Py.lit "real_numbers") false Demo.ingested in
  Manager.m_file_hash
    <$> Manager.lookup_metadata Demo.ingested (Manager.chapter_key_of 9)
          (Py.lit "real_numbers")
  = Some (Demo.digest Demo.long_chapter_pdf)
  /\ Demo.digest Demo.long_chapter_pdf <> Demo.digest Demo.revised_pdf
  /\ Demo.stored_ids Demo.ingested
     = [Py.lit "9_real_numbers_chunk_1"; Py.lit "9_real_numbers_chunk_0"]
  /\ fst run = Manager.Ok (Manager.Processed 1 None None false)
  /\ Manager.requires_confirmation (Manager.Processed 1 None None false) = false
  /\ existsb Demo.is_delete (new_events Demo.ingested (snd run)) = true
  /\ existsb Demo.is_upsert (new_events Demo.ingested (snd run)) = true
  /\ Demo.stored_ids (snd run) = [Py.lit "9_real_numbers_chunk_0"].
Proof.
  cbv zeta. split; [vm_compute; reflexivity|]. split; [vm_compute; discriminate|].
  vm_compute. repeat split; reflexivity.
Qed.

Lemma embedding_failures_are_skipped_witness :
  (forall h input, Manager.embedding_create Demo.no_embeddings h input = None)
  /\ fst (Manager.upload_chapter_pdf Demo.no_embeddings Demo.long_chapter_pdf 9
            (Py.lit "real_numbers") false Demo.fresh)
     <> Manager.Ok Manager.EmbeddingsFailed.
Proof.
  assert (Hnone : forall h input,
             Manager.embedding_create Demo.no_embeddings h input = None)
    by (intros h input; reflexivity).
  split; [exact Hnone|].
  pose proof (embedding_failures_are_skipped Demo.no_embeddings Demo.long_chapter_pdf 9
                (Py.lit "real_numbers") false Demo.fresh) as H.
  cbv zeta in H. destruct H as (_ & _ & H).
  destruct (H Hnone) as [_ Hup]. apply Hup; reflexivity.
Defined.

Lemma upload_never_requires_confirmation_witness :
  exists a s',
    Manager.upload_chapter_pdf Demo.reliable Demo.revised_pdf 9 (Py.lit "real_numbers")
      false Demo.ingested = (Manager.Ok a, s')
    /\ Manager.requires_confirmation a = false.
Proof.
  pose proof (upload_never_requires_confirmation Demo.reliable Demo.revised_pdf 9
                (Py.lit "real_numbers") false Demo.ingested) as Hnever.
  assert (Hfst : fst (Manager.upload_chapter_pdf Demo.reliable Demo.revised_pdf 9
                        (Py.lit "real_numbers") false Demo.ingested)
                 = Manager.Ok (Manager.Processed 1 None None false))
    by (vm_compute; reflexivity).
  destruct (Manager.upload_chapter_pdf Demo.reliable Demo.revised_pdf 9
              (Py.lit "real_numbers") false Demo.ingested) as [r s'].
  cbn [fst] in Hfst. subst r.
  exists (Manager.Processed 1 None None false), s'.
  split; [reflexivity | exact (Hnever s' _ eq_refl)].
Defined.

(** ** Worked runs on the index, the records and the textbook pipeline *)

Lemma ingested_index_wf : index_wf (Manager.index Demo.ingested).
Proof.
  apply (map_Forall_to_list (fun k v => Manager.vec_id v = k)).
  vm_compute. repeat constructor.
Qed.

Lemma delete_existing_only_removes_scope_witness :
  index_wf (Manager.index Demo.ingested)
  /\ exists b s',
       Manager.delete_existing_chapter_chunks Demo.reliable 9 (Py.lit "real_numbers")
         Demo.ingested = (Manager.Ok b, s')
       /\ index_wf (Manager.index s').
Proof.
  split; [exact ingested_index_wf|].
  destruct (delete_existing_only_removes_scope Demo.reliable 9 (Py.lit "real_numbers")
              Demo.ingested ingested_index_wf) as (b & s' & Hrun & _ & Hwf & _).
  exists b, s'. split; [exact Hrun | exact Hwf].
Defined.

Lemma delete_existing_clears_scope_witness :
  (forall h, Manager.query_ok Demo.reliable h = true)
  /\ (forall h, Manager.delete_ok Demo.reliable h = true)
  /\ Manager.index_handle Demo.ingested = true
  /\ (length (scope_vectors 9 (Py.lit "real_numbers") (Manager.index Demo.ingested))
      <= 1000)%nat
  /\ exists s',
       Manager.delete_existing_chapter_chunks Demo.reliable 9 (Py.lit "real_numbers")
         Demo.ingested = (Manager.Ok true, s')
       /\ forall k v, Manager.index s' !! k = Some v ->
            in_scope 9 (Py.lit "real_numbers") v = false.
Proof.
  assert (Hq : forall h, Manager.query_ok Demo.reliable h = true) by reflexivity.
  assert (Hd : forall h, Manager.delete_ok Demo.reliable h = true) by reflexivity.
  assert (Hh : Manager.index_handle Demo.ingested = true) by (vm_compute; reflexivity).
  assert (Hlen : (length (scope_vectors 9 (Py.lit "real_numbers")
                            (Manager.index Demo.ingested)) <= 1000)%nat)
    by (apply Nat.leb_le; vm_compute; reflexivity).
  split; [exact Hq|]. split; [exact Hd|]. split; [exact Hh|]. split; [exact Hlen|].
  destruct (delete_existing_clears_scope Demo.reliable 9 (Py.lit "real_numbers") Hq Hd
              Demo.ingested Hh ingested_index_wf Hlen) as (b & s' & Hrun & Hnone & Hb).
  assert (Hfst : fst (Manager.delete_existing_chapter_chunks Demo.reliable 9
                        (Py.lit "real_numbers") Demo.ingested) = Manager.Ok true)
    by (vm_compute; reflexivity).
  rewrite Hrun in Hfst. injection Hfst as ->.
  exists s'. split; [exact Hrun | exact Hnone].
Defined.

Lemma create_embeddings_stores_every_chunk_witness :
  (forall h input, is_Some (Manager.embedding_create Demo.reliable h input))
  /\ (forall h, Manager.upsert_ok Demo.reliable h = true)
  /\ exists s' v,
       Manager.create_embeddings Demo.reliable [Py.lit "chunk one"; Py.lit "chunk two"]
         9 (Py.lit "real_numbers") Demo.fresh = (Manager.Ok true, s')
       /\ Manager.index s' !! Manager.chunk_id 9 (Py.lit "real_numbers") 1 = Some v
       /\ Manager.v_text (Manager.vec_metadata v) = Py.lit "chunk two".
Proof.
  assert (He : forall h input, is_Some (Manager.embedding_create Demo.reliable h input))
    by (intros h input; eexists; reflexivity).
  assert (Hu : forall h, Manager.upsert_ok Demo.reliable h = true) by reflexivity.
  split; [exact He|]. split; [exact Hu|].
  destruct (create_embeddings_stores_every_chunk Demo.reliable 9 (Py.lit "real_numbers")
              [Py.lit "chunk one"; Py.lit "chunk two"] Demo.fresh He Hu
              eq_refl eq_refl eq_refl) as (s' & Hrun & Hall & _).
  destruct (Hall 1%nat (Py.lit "chunk two") eq_refl) as (v & Hv & _ & _ & Ht & _).
  exists s', v. split; [exact Hrun|]. split; [exact Hv | exact Ht].
Defined.

Lemma duplicate_needs_matching_record_witness :
  exists a s',
    Manager.upload_chapter_pdf Demo.reliable Demo.long_chapter_pdf 9
      (Py.lit "real_numbers") false Demo.ingested = (Manager.Ok a, s')
    /\ Manager.duplicate_detected a = true
    /\ Manager.index s' = Manager.index Demo.ingested.
Proof.
  pose proof (duplicate_needs_matching_record Demo.reliable 9 (Py.lit "real_numbers")
                Demo.long_chapter_pdf false Demo.ingested) as Hthm.
  assert (Hdup : match fst (Manager.upload_chapter_pdf Demo.reliable
                              Demo.long_chapter_pdf 9 (Py.lit "real_numbers") false
                              Demo.ingested) with
                 | Manager.Ok a => Manager.duplicate_detected a
                 | Manager.Raise => false
                 end = true) by (vm_compute; reflexivity).
  destruct (Manager.upload_chapter_pdf Demo.reliable Demo.long_chapter_pdf 9
              (Py.lit "real_numbers") false Demo.ingested) as [[a|] s'];
    cbn [fst] in Hdup; [|discriminate].
  exists a, s'. split; [reflexivity|]. split; [exact Hdup|].
  exact (proj1 (proj2 (Hthm s' a eq_refl Hdup))).
Defined.

Lemma upload_after_delete_is_processed_again_witness :
  exists s1 a s2,
    Manager.delete_chapter Demo.reliable 9 (Py.lit "real_numbers") Demo.ingested
    = (Manager.Ok Manager.Deleted, s1)
    /\ Manager.upload_chapter_pdf Demo.reliable Demo.long_chapter_pdf 9
         (Py.lit "real_numbers") false s1 = (Manager.Ok a, s2)
    /\ Manager.duplicate_detected a = false.
Proof.
  pose proof (upload_after_delete_is_processed_again Demo.reliable 9
                (Py.lit "real_numbers") Demo.long_chapter_pdf false Demo.ingested)
    as Hthm.
  assert (Hdel : match fst (Manager.delete_chapter Demo.reliable 9
                              (Py.lit "real_numbers") Demo.ingested) with
                 | Manager.Ok Manager.Deleted => true
                 | _ => false
                 end = true) by (vm_compute; reflexivity).
  assert (Hup : match fst (Manager.upload_chapter_pdf Demo.reliable
                             Demo.long_chapter_pdf 9 (Py.lit "real_numbers") false
                             (snd (Manager.delete_chapter Demo.reliable 9
                                     (Py.lit "real_numbers") Demo.ingested))) with
                | Manager.Ok _ => true
                | Manager.Raise => false
                end = true) by (vm_compute; reflexivity).
  destruct (Manager.delete_chapter Demo.reliable 9 (Py.lit "real_numbers")
              Demo.ingested) as [[[]|] s1]; cbn [fst snd] in Hdel, Hup;
    try discriminate.
  destruct (Manager.upload_chapter_pdf Demo.reliable Demo.long_chapter_pdf 9
              (Py.lit "real_numbers") false s1) as [[a|] s2] eqn:Hrun;
    cbn [fst] in Hup; [|discriminate].
  exists s1, a, s2. split; [reflexivity|]. split; [exact Hrun|].
  exact (Hthm s1 s2 a eq_refl Hrun).
Defined.

Lemma no_client_no_processing_witness :
  (Manager.openai_client Demo.ingested_without_openai = false
   \/ Manager.pinecone_client Demo.ingested_without_openai = false)
  /\ exists a s',
       Manager.upload_chapter_pdf Demo.reliable Demo.long_chapter_pdf 9
         (Py.lit "real_numbers") false Demo.ingested_without_openai
       = (Manager.Ok a, s')
       /\ Manager.success a = true
       /\ Manager.duplicate_detected a = true.
Proof.
  assert (Hno : Manager.openai_client Demo.ingested_without_openai = false
                \/ Manager.pinecone_client Demo.ingested_without_openai = false)
    by (left; reflexivity).
  split; [exact Hno|].
  pose proof (no_client_no_processing Demo.reliable 9 (Py.lit "real_numbers")
                Demo.long_chapter_pdf false Demo.ingested_without_openai) as Hthm.
  assert (Hok : match fst (Manager.upload_chapter_pdf Demo.reliable
                             Demo.long_chapter_pdf 9 (Py.lit "real_numbers") false
                             Demo.ingested_without_openai) with
                | Manager.Ok a => Manager.success a
                | Manager.Raise => false
                end = true) by (vm_compute; reflexivity).
  destruct (Manager.upload_chapter_pdf Demo.reliable Demo.long_chapter_pdf 9
              (Py.lit "real_numbers") false Demo.ingested_without_openai)
    as [[a|] s']; cbn [fst] in Hok; [|discriminate].
  exists a, s'. split; [reflexivity|]. split; [exact Hok|].
  exact (Hthm s' a Hno eq_refl Hok).
Defined.

Lemma heading_found_twice_gives_empty_chapter_witness :
  Rag.EnglishChapter <> Rag.EnglishChapterUpper
  /\ (0%nat, 9%nat) ∈ Demo.finditer Rag.EnglishChapter (Py.lit "Chapter 1 Real numbers")
  /\ (0%nat, 9%nat)
     ∈ Demo.finditer Rag.EnglishChapterUpper (Py.lit "Chapter 1 Real numbers")
  /\ exists c,
       c ∈ Rag.detect_chapters Demo.finditer (Py.lit "Chapter 1 Real numbers") None
       /\ Rag.start_pos c = 0%nat /\ Rag.end_pos c = 0%nat /\ Rag.content c = [].
Proof.
  assert (Hne : Rag.EnglishChapter <> Rag.EnglishChapterUpper) by discriminate.
  assert (H1 : (0%nat, 9%nat)
               ∈ Demo.finditer Rag.EnglishChapter (Py.lit "Chapter 1 Real numbers"))
    by (change (Demo.finditer Rag.EnglishChapter (Py.lit "Chapter 1 Real numbers"))
          with [(0%nat, 9%nat)]; left).
  assert (H2 : (0%nat, 9%nat)
               ∈ Demo.finditer Rag.EnglishChapterUpper
                   (Py.lit "Chapter 1 Real numbers"))
    by (change (Demo.finditer Rag.EnglishChapterUpper
                  (Py.lit "Chapter 1 Real numbers"))
          with [(0%nat, 9%nat)]; left).
  split; [exact Hne|]. split; [exact H1|]. split; [exact H2|].
  exact (heading_found_twice_gives_empty_chapter Demo.finditer
           (Py.lit "Chapter 1 Real numbers") None _ _ 0%nat 9%nat 9%nat Hne H1 H2).
Defined.

Lemma page_estimate_is_not_early_witness :
  Ingest.extract_text_from_pdf Demo.re_sub (Some Demo.three_pages)
  = Some (Py.lit "First page." ++ [Py.NL; Py.NL] ++ Py.lit "Third page."
          ++ [Py.NL; Py.NL],
          [Ingest.mkPageInfo 1 (Py.lit "First page.") 2;
           Ingest.mkPageInfo 3 (Py.lit "Third page.") 2])
  /\ (3 <= Ingest._estimate_page_number 13
            [Ingest.mkPageInfo 1 (Py.lit "First page.") 2;
             Ingest.mkPageInfo 3 (Py.lit "Third page.") 2])%nat.
Proof.
  assert (Hrun : Ingest.extract_text_from_pdf Demo.re_sub (Some Demo.three_pages)
                 = Some (Py.lit "First page." ++ [Py.NL; Py.NL] ++ Py.lit "Third page."
                         ++ [Py.NL; Py.NL],
                         [Ingest.mkPageInfo 1 (Py.lit "First page.") 2;
                          Ingest.mkPageInfo 3 (Py.lit "Third page.") 2]))
    by (vm_compute; reflexivity).
  split; [exact Hrun|].
  destruct (page_estimate_is_not_early Demo.re_sub Demo.three_pages _ _ Hrun)
    as (_ & _ & _ & Hest).
  apply (Hest 1%nat (Ingest.mkPageInfo 3 (Py.lit "Third page.") 2) 13%nat eq_refl).
  vm_compute. lia.
Defined.

Lemma textbook_chunk_ids_are_distinct_witness :
  exists all_chunks,
    Ingest.process_chapters Demo.sent_tokenize Demo.lower Demo.embeddings_create
      Demo.now (Py.lit "9") (Py.lit "mathematics") [] 0 Demo.two_chapters []
    = Some all_chunks
    /\ map (fun c => Ingest.chunk_id (Ingest.metadata c)) all_chunks
       = [Py.lit "9-mathematics-1-001"; Py.lit "9-mathematics-2-001";
          Py.lit "9-mathematics-2-002"]
    /\ NoDup (map (fun c => Ingest.chunk_id (Ingest.metadata c)) all_chunks).
Proof.
  pose proof (textbook_chunk_ids_are_distinct Demo.sent_tokenize Demo.lower
                Demo.embeddings_create Demo.now Demo.two_chapters (Py.lit "9")
                (Py.lit "mathematics") []) as Hthm.
  assert (Hids : match Ingest.process_chapters Demo.sent_tokenize Demo.lower
                         Demo.embeddings_create Demo.now (Py.lit "9")
                         (Py.lit "mathematics") [] 0 Demo.two_chapters [] with
                 | Some all_chunks =>
                     map (fun c => Ingest.chunk_id (Ingest.metadata c)) all_chunks
                 | None => []
                 end
                 = [Py.lit "9-mathematics-1-001"; Py.lit "9-mathematics-2-001";
                    Py.lit "9-mathematics-2-002"]) by (vm_compute; reflexivity).
  destruct (Ingest.process_chapters Demo.sent_tokenize Demo.lower
              Demo.embeddings_create Demo.now (Py.lit "9") (Py.lit "mathematics") [] 0
              Demo.two_chapters []) as [all_chunks|]; [|discriminate].
  exists all_chunks. split; [reflexivity|]. split; [exact Hids|].
  exact (Hthm all_chunks eq_refl).
Defined.
